(** * replicate_paper.py: run orchestration and metrics extraction

    A shallow embedding of [scripts/replicate_paper.py]: the run grid
    ([generate]), log based resume ([check_resume]), sequential execution
    ([run_commands]) and the extraction of the embedded csv tables together
    with the derived metrics ([parse_output]), followed by the properties
    of these functions.

    Conventions of the embedding.
    - A run (a Python dict) is the record [run]; a key that is absent
      from the dict is a field holding [None].
    - A Python [str] is a [string] whose characters are the code points
      below 256; comparison and sorting are by code point.
    - Python exceptions are the constructors of [exn]; a computation that
      may raise has type [result A], and a loop that updates the runs in
      place returns the runs as they are when it ends together with the
      pending exception, if any.
    - The file system, the log directory and the external benchmark are an
      explicit [world]; what the script does to it, and every assignment
      to the [output] of a run, is recorded in a trace of events.
    - Library functions the script calls are section variables
      ([strptime], and what pandas and NumPy decide on their own, see
      [library]) or are modelled as far as the script uses them
      ([pd.DataFrame], column selection, [mean], [min]).
    - Floating point values are IEEE 754 values ([spec_float] of the
      standard library) and every operation rounds as IEEE 754 does, in
      the dtype NumPy gives it: [float32] or [float64] for a column,
      after [pd.to_numeric(..., downcast="float")], and for the scalars
      taken from it.  A column of integer literals, which pandas keeps as
      [int64], is read as a [float64] column; the two agree as long as
      the integers are below 2^53. *)

From Stdlib Require Import String Ascii List ZArith QArith Lia Bool Arith.
From Stdlib Require Import DecimalString Qround.
From Stdlib Require Import Sorted Permutation OrderedTypeEx SpecFloat.
Import ListNotations.
Open Scope string_scope.
Open Scope list_scope.
Open Scope Z_scope.

(** ** Exceptions and fallible computations *)

(** The exceptions the script can raise.  [SystemExit] carries the
    argument given to [sys.exit]. *)
Inductive exn : Type :=
| IndexError
| KeyError
| ValueError
| TypeError
| OverflowError
| UnboundLocalError
| OSError
| SystemExit (code : option Z).

Definition exn_name (e : exn) : string :=
  match e with
  | IndexError => "IndexError"
  | KeyError => "KeyError"
  | ValueError => "ValueError"
  | TypeError => "TypeError"
  | OverflowError => "OverflowError"
  | UnboundLocalError => "UnboundLocalError"
  | OSError => "OSError"
  | SystemExit _ => "SystemExit"
  end.

(** An indexing or type fault of the interpreter, as opposed to an error
    the program raises on purpose. *)
Definition indexing_or_type_fault (e : exn) : bool :=
  match e with
  | IndexError | KeyError | TypeError | UnboundLocalError => true
  | _ => false
  end.

Inductive result (A : Type) : Type :=
| Ok (a : A)
| Raise (e : exn).
Arguments Ok {A} a.
Arguments Raise {A} e.

Definition bind {A B} (m : result A) (k : A -> result B) : result B :=
  match m with
  | Ok a => k a
  | Raise e => Raise e
  end.

Notation "x <- m ;; k" := (bind m (fun x => k))
  (at level 61, m at next level, right associativity).
Notation "' pat <- m ;; k" := (bind m (fun x => match x with pat => k end))
  (at level 61, pat pattern, m at next level, right associativity).

(** [xs[n]] for a non-negative index. *)
Definition index {A} (xs : list A) (n : nat) : result A :=
  match nth_error xs n with
  | Some x => Ok x
  | None => Raise IndexError
  end.

(** ** Python string operations used by the script *)

Module Py.

(** [s.startswith(p)] *)
Fixpoint startswith (p s : string) : bool :=
  match p with
  | EmptyString => true
  | String a p' =>
      match s with
      | EmptyString => false
      | String b s' => Ascii.eqb a b && startswith p' s'
      end
  end.

(** [p in s] *)
Fixpoint contains (p s : string) : bool :=
  startswith p s ||
  match s with
  | EmptyString => false
  | String _ s' => contains p s'
  end.

(** The recursion behind [split]: [skip] counts the characters of a
    separator just matched that are still to be consumed.  The head of
    the returned list is the part being read. *)
Fixpoint split_from (sep : string) (skip : nat) (s : string) : list string :=
  match s with
  | EmptyString => [EmptyString]
  | String c s' =>
      match skip with
      | S k => split_from sep k s'
      | O =>
          if startswith sep s
          then EmptyString :: split_from sep (String.length sep - 1) s'
          else match split_from sep 0 s' with
               | p :: ps => String c p :: ps
               | [] => [String c EmptyString]
               end
      end
  end.

(** [s.split(sep)] for a non-empty separator: the parts between the
    leftmost non-overlapping occurrences of [sep]. *)
Definition split (sep s : string) : list string := split_from sep 0 s.

(** [sep.join(parts)] *)
Fixpoint join (sep : string) (parts : list string) : string :=
  match parts with
  | [] => EmptyString
  | [p] => p
  | p :: ps => (p ++ sep ++ join sep ps)%string
  end.

(** [s.endswith(p)] *)
Definition endswith (p s : string) : bool :=
  let n := String.length s in
  let m := String.length p in
  (m <=? n)%nat && String.eqb (substring (n - m) m s) p.

(** [s[1:-4]] *)
Definition slice_1_m4 (s : string) : string :=
  substring 1 (String.length s - 5) s.

(** [str(n)] for an int *)
Definition str (n : Z) : string := NilZero.string_of_int (Z.to_int n).

(** [xs[1:]] *)
Definition tail1 {A} (xs : list A) : list A := tl xs.

(** [xs[-1]] *)
Definition last1 {A} (xs : list A) : result A :=
  match rev xs with
  | [] => Raise IndexError
  | x :: _ => Ok x
  end.

(** [c.isspace()] for a character with a code point below 256: the
    ASCII white space, the separators U+001C to U+001F, the next line
    character U+0085 and the no-break space U+00A0. *)
Definition is_space (c : ascii) : bool :=
  let n := nat_of_ascii c in
  ((9 <=? n) && (n <=? 13) || (28 <=? n) && (n <=? 32)
   || (n =? 133) || (n =? 160))%nat.

(** [s.rstrip()] *)
Fixpoint rstrip (s : string) : string :=
  match s with
  | EmptyString => EmptyString
  | String c s' =>
      match rstrip s' with
      | EmptyString => if is_space c then EmptyString else String c EmptyString
      | t => String c t
      end
  end.

(** Insertion into a list sorted by code points, before the elements
    that are not smaller. *)
Fixpoint insert_sorted (x : string) (xs : list string) : list string :=
  match xs with
  | [] => [x]
  | y :: ys => if String.ltb y x then y :: insert_sorted x ys else x :: xs
  end.

(** [xs.sort()] on a list of strings (a stable sort). *)
Fixpoint sort (xs : list string) : list string :=
  match xs with
  | [] => []
  | x :: xs' => insert_sorted x (sort xs')
  end.

End Py.

(** The two-character sequence backslash, n that delimits the rows of a
    payload, and the line feed that ends a line. *)
Definition esc_nl : string := String (ascii_of_nat 92) (String "n" EmptyString).
Definition LF : string := String (ascii_of_nat 10) EmptyString.

(** ** Runs *)

(** One entry of [self.runs].  The keys [config], [usage], [latency] and
    [latency_breakdown] are absent (here [None]) until they are set. *)
Record run : Type := mkRun {
  mode : string;
  cores : Z;
  endpoints : Z;
  config : option string;
  command : list string;
  output : option (list string);
  worker_time : option Z;
  usage : option Z;
  latency : option Z;
  latency_breakdown : option (list Z)
}.

Definition set_output (r : run) (o : list string) : run :=
  mkRun (mode r) (cores r) (endpoints r) (config r) (command r) (Some o)
        (worker_time r) (usage r) (latency r) (latency_breakdown r).

Definition set_usage (r : run) (u : Z) : run :=
  mkRun (mode r) (cores r) (endpoints r) (config r) (command r) (output r)
        (worker_time r) (Some u) (latency r) (latency_breakdown r).

Definition set_latency (r : run) (l : Z) : run :=
  mkRun (mode r) (cores r) (endpoints r) (config r) (command r) (output r)
        (worker_time r) (usage r) (Some l) (latency_breakdown r).

Definition set_latency_breakdown (r : run) (b : list Z) : run :=
  mkRun (mode r) (cores r) (endpoints r) (config r) (command r) (output r)
        (worker_time r) (usage r) (latency r) (Some b).

(** ** EndpointScaling.generate *)

Module EndpointScaling.

(** The grid attributes of the experiment object. *)
Record grid : Type := mkGrid {
  modes : list string;
  cores_of : list Z;
  endpoint_counts : list Z
}.

(** The grid set by [__init__]. *)
Definition init : grid :=
  mkGrid ["cloud"; "edge"; "endpoint"] [4; 2; 1] [1; 2; 4; 8].

Definition new_run (md config : string) (c endpoint : Z) : run :=
  {| mode := md;
     cores := c;
     endpoints := endpoint;
     config := None;
     command := [ "python3"; "main.py"; "-v";
                  ("configuration/experiment_endpoint_scaling/"
                     ++ config ++ Py.str endpoint ++ ".cfg")%string ];
     output := None;
     worker_time := None;
     usage := None;
     latency := None;
     latency_breakdown := None |}.

(** The inner loop over [self.endpoints] for one mode. *)
Fixpoint generate_endpoints (md config : string) (c : Z)
         (es : list Z) (runs : list run) : list run :=
  match es with
  | [] => runs
  | endpoint :: es' =>
      if String.eqb md "endpoint" && (1 <? endpoint)
      then generate_endpoints md config c es' runs
      else generate_endpoints md config c es'
             (runs ++ [new_run md config c endpoint])
  end.

(** The outer loop over [self.modes]; the runs appended before an
    exception stay in [self.runs]. *)
Fixpoint generate_modes (g : grid) (ms : list string) (runs : list run)
  : list run * option exn :=
  match ms with
  | [] => (runs, None)
  | md :: ms' =>
      let sel :=
        if String.eqb md "cloud" then ("cloud_endpoint", index (cores_of g) 0)
        else if String.eqb md "edge" then ("edge_endpoint", index (cores_of g) 1)
        else ("endpoint", index (cores_of g) 2) in
      match snd sel with
      | Raise e => (runs, Some e)
      | Ok c =>
          generate_modes g ms'
            (generate_endpoints md (fst sel) c (endpoint_counts g) runs)
      end
  end.

Definition generate (g : grid) (runs : list run) : list run * option exn :=
  generate_modes g (modes g) runs.

End EndpointScaling.

(** ** Deployments.generate *)

Module Deployments.

Record grid : Type := mkGrid {
  config_path : string;
  configs : list string;
  modes : list string;
  cores_of : list Z;
  endpoint_counts : list Z
}.

Definition init : grid :=
  mkGrid "configuration/experiment_large_deployments/"
         ["cloud.cfg"; "edge_large.cfg"; "edge_small.cfg"; "mist.cfg"]
         ["cloud"; "edge"; "edge"; "edge"]
         [4; 4; 2; 2]
         [4; 4; 2; 1].

Definition new_run (path cfg md : string) (c endpoint : Z) : run :=
  {| mode := md;
     cores := c;
     endpoints := endpoint;
     config := Some (hd EmptyString (Py.split "." cfg));
     command := [ "python3"; "main.py"; "-v"; (path ++ cfg)%string ];
     output := None;
     worker_time := None;
     usage := None;
     latency := None;
     latency_breakdown := None |}.

(** The loop over [zip(configs, modes, cores, endpoints)], which stops
    with the shortest of the four lists. *)
Fixpoint generate_zip (path : string) (cs ms : list string) (ks es : list Z)
         (runs : list run) : list run :=
  match cs, ms, ks, es with
  | cfg :: cs', md :: ms', c :: ks', endpoint :: es' =>
      generate_zip path cs' ms' ks' es'
        (runs ++ [new_run path cfg md c endpoint])
  | _, _, _, _ => runs
  end.

Definition generate (g : grid) (runs : list run) : list run * option exn :=
  (generate_zip (config_path g) (configs g) (modes g) (cores_of g)
                (endpoint_counts g) runs, None).

End Deployments.


(** ** NumPy floating point values *)

Module NpFloat.

(** The dtypes a numeric column can have after
    [pd.to_numeric(..., downcast="float")]. *)
Inductive dtype : Type := float32 | float64.

(** IEEE 754 binary32 and binary64: the number of bits of the mantissa
    and the exponent of the infinities. *)
Definition prec (d : dtype) : Z :=
  match d with float32 => 24 | float64 => 53 end.

Definition emax (d : dtype) : Z :=
  match d with float32 => 128 | float64 => 1024 end.

(** The dtype of an operation on two NumPy floats. *)
Definition promote (a b : dtype) : dtype :=
  match a, b with
  | float32, float32 => float32
  | _, _ => float64
  end.

(** A NumPy float scalar, and a numeric column of a frame. *)
Record t : Type := mk { dtype_of : dtype; value : spec_float }.

Record column : Type := mkColumn {
  col_dtype : dtype;
  cells : list spec_float
}.

(** Conversion of a value to a dtype: to the nearest value of the
    dtype, a tie to the even one, and to an infinity beyond the range. *)
Definition cast (d : dtype) (x : spec_float) : spec_float :=
  match x with
  | S754_finite s m e => binary_round (prec d) (emax d) s m e
  | _ => x
  end.

(** The [float64] nearest to an integer; [lit 1000] is the Python float
    [1000.0]. *)
Definition lit (z : Z) : spec_float := binary_normalize 53 1024 z 0 false.

(** The integer [z] in the dtype [d]. *)
Definition of_int (d : dtype) (z : Z) : spec_float :=
  binary_normalize (prec d) (emax d) z 0 false.

(** [float(z)] for a Python int, which is also how an int that meets a
    float in an arithmetic operation is converted: an int beyond the
    range of a float is an [OverflowError]. *)
Definition py_float (z : Z) : result spec_float :=
  match lit z with
  | S754_infinity _ => Raise OverflowError
  | x => Ok x
  end.

(** The dtype of an operation between a NumPy float of the dtype [d] and
    a Python number.  With [weak] (the promotion of NumPy 2) the Python
    number takes the dtype of the NumPy operand; without it the Python
    number is a [float64] and so is the result. *)
Definition with_python (weak : bool) (d : dtype) : dtype :=
  if weak then d else float64.

(** [x / a] and [a * x] for a Python float [x] and a NumPy float [a]:
    both operands are converted to the dtype of the operation, and the
    result is rounded to it.  A numpy division by zero yields an
    infinity or NaN (and a warning), never an exception. *)
Definition rdiv (weak : bool) (x : spec_float) (a : t) : t :=
  let d := with_python weak (dtype_of a) in
  mk d (SFdiv (prec d) (emax d) (cast d x) (cast d (value a))).

Definition mul_py (weak : bool) (a : t) (x : spec_float) : t :=
  let d := with_python weak (dtype_of a) in
  mk d (SFmul (prec d) (emax d) (cast d (value a)) (cast d x)).

(** [a - b] for two NumPy floats. *)
Definition sub (a b : t) : t :=
  let d := promote (dtype_of a) (dtype_of b) in
  mk d (SFsub (prec d) (emax d) (cast d (value a)) (cast d (value b))).

(** The rational number a finite value stands for. *)
Definition exact (x : spec_float) : option Q :=
  match x with
  | S754_zero _ => Some 0%Q
  | S754_finite s m e =>
      Some (match e with
            | Zneg p => Qmake (cond_Zopp s (Zpos m)) (Pos.pow 2 p)
            | _ => inject_Z (cond_Zopp s (Zpos m) * 2 ^ e)
            end)
  | _ => None
  end.

Definition is_nan (x : spec_float) : bool :=
  match x with S754_nan => true | _ => false end.

Definition is_finite (x : spec_float) : bool :=
  match x with S754_zero _ | S754_finite _ _ _ => true | _ => false end.

(** [int(a)]: truncation towards zero; [ValueError] for NaN and
    [OverflowError] for an infinity. *)
Definition to_int (a : t) : result Z :=
  match exact (value a) with
  | Some q => Ok (Z.quot (Qnum q) (Zpos (Qden q)))
  | None =>
      match value a with
      | S754_nan => Raise ValueError
      | _ => Raise OverflowError
      end
  end.

(** The result of a reduction over no value. *)
Definition nan : t := mk float64 S754_nan.

(** pandas reductions skip NaN entries ([skipna=True]). *)
Definition dropna (c : column) : list spec_float :=
  filter (fun x => negb (is_nan x)) (cells c).

(** [Series.mean()]: the sum of the cells, a NaN cell counting as zero,
    divided by the number of cells that are not NaN, in the dtype of the
    column.  The summation is NumPy's and is passed in as [sum]. *)
Definition mean (sum : dtype -> list spec_float -> spec_float) (c : column)
  : t :=
  match dropna c with
  | [] => nan
  | ys =>
      let d := col_dtype c in
      mk d (SFdiv (prec d) (emax d)
              (sum d (map (fun x => if is_nan x then S754_zero false else x)
                          (cells c)))
              (of_int d (Z.of_nat (length ys))))
  end.

(** [Series.min()] *)
Definition min (c : column) : t :=
  match dropna c with
  | [] => nan
  | y :: ys =>
      mk (col_dtype c) (fold_left (fun m x => if SFltb x m then x else m) ys y)
  end.

(** The column [pd.to_numeric(..., downcast="float")] returns for the
    [float64] values [xs]: narrowed to [float32] or left as it is. *)
Definition downcast (narrow : bool) (xs : list spec_float) : column :=
  let d := if narrow then float32 else float64 in
  mkColumn d (map (cast d) xs).

(** Summation from left to right, as NumPy sums fewer than eight
    values; used to evaluate the program on concrete inputs. *)
Definition seq_sum (d : dtype) (xs : list spec_float) : spec_float :=
  fold_left (SFadd (prec d) (emax d)) xs (S754_zero false).

End NpFloat.

(** What the script leaves to pandas and NumPy: the reading of the text
    of a cell as a [float64] ([None] when the text is not a number);
    whether [to_numeric] with [downcast="float"] narrows a column of such
    values to [float32]; the sum of the cells of a column in the dtype of
    the column; and the promotion rule for an operation between a NumPy
    float and a Python number, see [NpFloat.with_python]. *)
Record library : Type := mkLibrary {
  to_float : string -> option spec_float;
  narrows : list spec_float -> bool;
  np_sum : NpFloat.dtype -> list spec_float -> spec_float;
  weak_scalars : bool
}.

(** ** pandas data frames, as far as the script uses them *)

(** A frame of text cells; a cell missing from a short row is [None]. *)
Record frame : Type := mkFrame {
  columns : list string;
  data : list (list (option string))
}.

Definition pad_row (k : nat) (row : list string) : list (option string) :=
  map Some row ++ repeat None (k - length row).

Definition max_width (rows : list (list string)) : nat :=
  fold_right (fun row m => Nat.max (length row) m) 0%nat rows.

(** [pd.DataFrame(rows, columns=cols)]: short rows are padded, and the
    widest row has to be as wide as [cols]. *)
Definition DataFrame (rows : list (list string)) (cols : list string)
  : result frame :=
  match rows with
  | [] => Ok (mkFrame cols [])
  | _ =>
      let k := max_width rows in
      if (k =? length cols)%nat
      then Ok (mkFrame cols (map (pad_row k) rows))
      else Raise ValueError
  end.

Fixpoint positions (name : string) (k : nat) (cols : list string) : list nat :=
  match cols with
  | [] => []
  | c :: cs =>
      if String.eqb c name then k :: positions name (S k) cs
      else positions name (S k) cs
  end.

(** [df[name]] handed to [pd.to_numeric]: a missing label is a
    [KeyError]; a label that occurs twice selects a frame, which
    [to_numeric] rejects. *)
Definition getitem (df : frame) (name : string)
  : result (list (option string)) :=
  match positions name 0 (columns df) with
  | [] => Raise KeyError
  | [p] => Ok (map (fun row => nth p row None) (data df))
  | _ => Raise TypeError
  end.

(** The embedded metrics protocol. *)
Definition marker : string := "Output in csv format".

(** [for i, line in enumerate(out): if marker in line: break], started
    with the value [i] holds before the loop and [k] lines consumed. *)
Fixpoint enumerate_marker (i : option nat) (k : nat) (out : list string)
  : option nat :=
  match out with
  | [] => i
  | line :: rest =>
      if Py.contains marker line then Some k
      else enumerate_marker (Some k) (S k) rest
  end.

(** Reading the local variable [i]. *)
Definition local (i : option nat) : result nat :=
  match i with
  | Some n => Ok n
  | None => Raise UnboundLocalError
  end.

(** The worker and the endpoint payload of a run. *)
Definition payloads (r : run) (out : list string) (i : option nat)
  : result (string * string) :=
  if negb (String.eqb (mode r) "endpoint") then
    n <- local i ;;
    l1 <- index out (n + 1) ;;
    m <- local i ;;
    l2 <- index out (m + 2) ;;
    Ok (Py.slice_1_m4 l1, Py.slice_1_m4 l2)
  else
    n <- local i ;;
    l1 <- index out (n + 1) ;;
    m <- local i ;;
    l2 <- index out (m + 1) ;;
    Ok (Py.slice_1_m4 l1, Py.slice_1_m4 l2).

(** [w2]: the rows of a payload without their index field. *)
Definition payload_rows (payload : string) : list (list string) :=
  map Py.tail1 (map (Py.split ",") (Py.split esc_nl payload)).

(** [pd.DataFrame(w2[1:], columns=w2[0])] *)
Definition payload_frame (payload : string) : result frame :=
  let w2 := payload_rows payload in
  header <- index w2 0 ;;
  DataFrame (Py.tail1 w2) header.

(** ** Instances used to evaluate the program on concrete inputs *)

(** A reading of plain decimal literals such as [125] or [62.5], which
    is the nearest [float64] as long as the digits without the point and
    the power of ten both fit 53 bits. *)
Definition digit_value (c : ascii) : option Z :=
  let n := Z.of_nat (nat_of_ascii c) in
  if (48 <=? n) && (n <=? 57) then Some (n - 48) else None.

Fixpoint digits_value (s : string) (acc : Z) : option Z :=
  match s with
  | EmptyString => Some acc
  | String c s' =>
      match digit_value c with
      | Some d => digits_value s' (10 * acc + d)
      | None => None
      end
  end.

Definition decimal_literal (s : string) : option spec_float :=
  match Py.split "." s with
  | [a] =>
      if String.eqb a EmptyString then None
      else option_map NpFloat.lit (digits_value a 0)
  | [a; b] =>
      if String.eqb a EmptyString || String.eqb b EmptyString then None
      else match digits_value a 0, digits_value b 0 with
           | Some x, Some y =>
               let scale := Z.pow 10 (Z.of_nat (String.length b)) in
               Some (SFdiv 53 1024 (NpFloat.lit (x * scale + y))
                           (NpFloat.lit scale))
           | _, _ => None
           end
  | _ => None
  end.

(** The column of the given decimal literals, kept as [float64] or
    narrowed to [float32]. *)
Definition literal_column (narrow : bool) (texts : list string)
  : NpFloat.column :=
  NpFloat.downcast narrow
    (flat_map (fun s => match decimal_literal s with
                        | Some x => [x]
                        | None => []
                        end) texts).

(** Two libraries to evaluate the program with: one that keeps every
    column as [float64] and computes with a Python number in [float64],
    and one that narrows every column to [float32] and computes in the
    dtype of the NumPy operand. *)
Definition sample_lib : library :=
  mkLibrary decimal_literal (fun _ => false) NpFloat.seq_sum false.

Definition narrow_lib : library :=
  mkLibrary decimal_literal (fun _ => true) NpFloat.seq_sum true.

(** Fixed-width time stamps [YYYY-MM-DD_HH:MM:SS], read as the number
    [YYYYMMDDHHMMSS]. *)
Fixpoint stamp_value (pattern s : string) (acc : Z) : option Z :=
  match pattern, s with
  | EmptyString, EmptyString => Some acc
  | String p pattern', String c s' =>
      if Ascii.eqb p "d"
      then match digit_value c with
           | Some d => stamp_value pattern' s' (10 * acc + d)
           | None => None
           end
      else if Ascii.eqb p c then stamp_value pattern' s' acc else None
  | _, _ => None
  end.

Definition stamp_of_string (s : string) : option Z :=
  stamp_value "dddd-dd-dd_dd:dd:dd" s 0.

(** A world with a fixed log directory and fixed file contents, in which
    every process prints [out] and writes [err] to its error stream. *)
Record sample_world : Type := mkWorld {
  sw_dir : list string;
  sw_files : list (string * list string);
  sw_out : list string;
  sw_err : list string
}.

Fixpoint assoc (key : string) (kvs : list (string * list string))
  : option (list string) :=
  match kvs with
  | [] => None
  | (k, v) :: rest => if String.eqb k key then Some v else assoc key rest
  end.

Definition sw_listdir (w : sample_world) : result (list string) :=
  Ok (sw_dir w).
Definition sw_read (path : string) (w : sample_world) : result (list string) :=
  match assoc path (sw_files w) with
  | Some content => Ok content
  | None => Raise OSError
  end.
Definition sw_execute (cmd : list string) (w : sample_world)
  : result (list string * list string) * sample_world :=
  (Ok (sw_out w, sw_err w), w).

(** Sample data: five pending runs; a log directory with three logs (not
    in order) and a file that is not a log; a world whose processes write
    to their error stream; a run whose output lacks the marker. *)
Definition five_runs : list run :=
  firstn 5 (fst (EndpointScaling.generate EndpointScaling.init [])).

Definition three_logs_world : sample_world :=
  mkWorld [ "2024-01-03_10:00:00_c.log"; "notes.txt";
            "2024-01-01_10:00:00_a.log"; "2024-01-02_10:00:00_b.log" ]
          [ ("./logs/2024-01-01_10:00:00_a.log", ["first"]);
            ("./logs/2024-01-02_10:00:00_b.log", ["second"]);
            ("./logs/2024-01-03_10:00:00_c.log", ["third"]);
            ("./logs/notes.txt", ["notes"]) ]
          [] [].

Definition failing_world : sample_world :=
  mkWorld [] [] ["started"] ["Traceback"].

Definition run_without_marker : run :=
  set_output (EndpointScaling.new_run "cloud" "cloud_endpoint" 4 1)
             ["no metrics here"].

(** ** The program *)

(** The two experiments [main] can build. *)
Inductive experiment : Type := EndpointScalingExp | DeploymentsExp.

(** Who assigned a run's [output]. *)
Inductive source : Type := Resume | Execution.

(** What the script did to the world and to the [output] fields, in
    order: a file opened and read, a process run to completion with the
    lines of its two streams, [output] of the run at a position assigned,
    and the finished runs handed to [plot] and [print_result]. *)
Inductive event : Type :=
| EvRead (path : string)
| EvExecute (cmd : list string) (out err : list string)
| EvAssign (idx : nat) (src : source)
| EvReport.

Section Program.

(** pandas and NumPy. *)
Variable lib : library.

(** [datetime.datetime], [strptime] with the format
    [%Y-%m-%d_%H:%M:%S] and the comparison [>=]. *)
Variable datetime : Type.
Variable strptime : string -> option datetime.
Variable dt_ge : datetime -> datetime -> bool.

(** The world outside the script: [os.listdir("./logs")], reading a
    file as a list of lines ([open] and [readlines]), and running a
    process to completion, which yields the decoded lines of its two
    streams.  Each of them can end in an exception the world chooses,
    and running a process changes the world. *)
Variable world : Type.
Variable listdir : world -> result (list string).
Variable read_file : string -> world -> result (list string).
Variable execute :
  list string -> world -> result (list string * list string) * world.

(** *** parse_output *)

(** The cells of a column as floats: a missing cell is NaN, and a text
    that is not a number is a [ValueError]. *)
Fixpoint to_floats (cells : list (option string)) : result (list spec_float) :=
  match cells with
  | [] => Ok []
  | None :: rest =>
      xs <- to_floats rest ;;
      Ok (S754_nan :: xs)
  | Some s :: rest =>
      match to_float lib s with
      | None => Raise ValueError
      | Some x =>
          xs <- to_floats rest ;;
          Ok (x :: xs)
      end
  end.

(** [pd.to_numeric(cells, downcast="float")] *)
Definition to_numeric (cells : list (option string)) : result NpFloat.column :=
  xs <- to_floats cells ;;
  Ok (NpFloat.downcast (narrows lib xs) xs).

(** [df[name] = pd.to_numeric(df[name], downcast="float")], returning
    the converted column. *)
Definition numeric_column (df : frame) (name : string)
  : result NpFloat.column :=
  cells <- getitem df name ;;
  to_numeric cells.

Definition frequency : Z := 5.

(** [processed_rate = 1000.0 / agg], [processed_rate *= cores],
    [requested_rate = float(frequency * endpoints)] and
    [int((requested_rate / processed_rate) * 100)], for the aggregate
    [agg] of the processing times. *)
Definition usage_of (agg : NpFloat.t) (c e : Z) : result Z :=
  let weak := weak_scalars lib in
  let processed_rate := NpFloat.rdiv weak (NpFloat.lit 1000) agg in
  cores <- NpFloat.py_float c ;;
  let processed_rate := NpFloat.mul_py weak processed_rate cores in
  requested_rate <- NpFloat.py_float (frequency * e) ;;
  NpFloat.to_int
    (NpFloat.mul_py weak (NpFloat.rdiv weak requested_rate processed_rate)
                    (NpFloat.lit 100)).

(** Lines 226-240 of [EndpointScaling.parse_output]: the metrics of one
    run from its converted columns.  [usage] is stored before [latency]
    is computed. *)
Definition es_metrics (r : run) (wproc elat : NpFloat.column)
  : run * option exn :=
  match usage_of (NpFloat.mean (np_sum lib) wproc) (cores r) (endpoints r) with
  | Raise e => (r, Some e)
  | Ok u =>
      let r1 := set_usage r u in
      match NpFloat.to_int (NpFloat.mean (np_sum lib) elat) with
      | Raise e => (r1, Some e)
      | Ok l => (set_latency r1 l, None)
      end
  end.

(** Lines 206-224: the two tables of a run and their numeric columns. *)
Definition es_tables (r : run) (out : list string) (i : option nat)
  : result (NpFloat.column * NpFloat.column) :=
  ' (worker, endpoint) <- payloads r out i ;;
  wdf <- payload_frame worker ;;
  wproc <- numeric_column wdf "proc_time/data (ms)" ;;
  edf <- payload_frame endpoint ;;
  elat <- numeric_column edf "latency_avg (ms)" ;;
  Ok (wproc, elat).

(** One iteration of the loop of [EndpointScaling.parse_output]; [i] is
    the local variable of that name, which survives from one run to the
    next. *)
Definition es_parse_run (i : option nat) (r : run)
  : run * option nat * option exn :=
  match output r with
  | None => (r, i, Some TypeError)
  | Some out =>
      let i' := enumerate_marker i 0 out in
      match es_tables r out i' with
      | Raise e => (r, i', Some e)
      | Ok (wproc, elat) =>
          let (r', e) := es_metrics r wproc elat in (r', i', e)
      end
  end.

(** Lines 454-478 of [Deployments.parse_output]. *)
Definition latency_breakdown_of (wproc elat epre : NpFloat.column)
  : result (list Z) :=
  processing <- NpFloat.to_int (NpFloat.min wproc) ;;
  communication <-
    NpFloat.to_int
      (NpFloat.sub (NpFloat.sub (NpFloat.min elat) (NpFloat.min epre))
                   (NpFloat.min wproc)) ;;
  Ok [processing; communication].

Definition dp_metrics (r : run) (wproc elat epre : NpFloat.column)
  : run * option exn :=
  match usage_of (NpFloat.min wproc) (cores r) (endpoints r) with
  | Raise e => (r, Some e)
  | Ok u =>
      let r1 := set_usage r u in
      match NpFloat.to_int (NpFloat.min elat) with
      | Raise e => (r1, Some e)
      | Ok l =>
          let r2 := set_latency r1 l in
          match latency_breakdown_of wproc elat epre with
          | Raise e => (r2, Some e)
          | Ok b => (set_latency_breakdown r2 b, None)
          end
      end
  end.

Definition dp_tables (r : run) (out : list string) (i : option nat)
  : result (NpFloat.column * NpFloat.column * NpFloat.column) :=
  ' (worker, endpoint) <- payloads r out i ;;
  wdf <- payload_frame worker ;;
  wproc <- numeric_column wdf "proc_time/data (ms)" ;;
  _ <- numeric_column wdf "delay_avg (ms)" ;;
  edf <- payload_frame endpoint ;;
  elat <- numeric_column edf "latency_avg (ms)" ;;
  epre <- numeric_column edf "preproc_time/data (ms)" ;;
  Ok (wproc, elat, epre).

Definition dp_parse_run (i : option nat) (r : run)
  : run * option nat * option exn :=
  match output r with
  | None => (r, i, Some TypeError)
  | Some out =>
      let i' := enumerate_marker i 0 out in
      match dp_tables r out i' with
      | Raise e => (r, i', Some e)
      | Ok (wproc, elat, epre) =>
          let (r', e) := dp_metrics r wproc elat epre in (r', i', e)
      end
  end.

(** [for run in self.runs: ...]: the runs are updated in place and the
    loop ends at the first exception. *)
Fixpoint parse_loop (step : option nat -> run -> run * option nat * option exn)
         (i : option nat) (rs : list run) : list run * option exn :=
  match rs with
  | [] => ([], None)
  | r :: rest =>
      match step i r with
      | (r', _, Some e) => (r' :: rest, Some e)
      | (r', i', None) =>
          let (rest', e) := parse_loop step i' rest in (r' :: rest', e)
      end
  end.

Definition parse_output (x : experiment) (rs : list run)
  : list run * option exn :=
  match x with
  | EndpointScalingExp => parse_loop es_parse_run None rs
  | DeploymentsExp => parse_loop dp_parse_run None rs
  end.

(** *** The experiment object and the world *)

Record state : Type := mkState {
  runs : list run;
  env : world;
  trace : list event
}.

Definition record (ev : event) (st : state) : state :=
  mkState (runs st) (env st) (trace st ++ [ev]).

Fixpoint update {A} (xs : list A) (n : nat) (f : A -> A) : list A :=
  match xs, n with
  | [], _ => []
  | x :: xs', O => f x :: xs'
  | x :: xs', S n' => x :: update xs' n' f
  end.

(** [self.runs[idx]["output"] = content] *)
Definition assign_output (idx : nat) (content : list string) (src : source)
           (st : state) : result state :=
  _ <- index (runs st) idx ;;
  Ok (record (EvAssign idx src)
        (mkState (update (runs st) idx (fun r => set_output r content))
                 (env st) (trace st))).

(** [open(path, "r")] followed by [readlines()]. *)
Definition open_read (path : string) (st : state)
  : result (list string * state) :=
  match read_file path (env st) with
  | Raise e => Raise e
  | Ok content => Ok (content, record (EvRead path) st)
  end.

(** *** check_resume *)

(** The time stamp in the name of a log. *)
Definition log_datetime (log : string) : result datetime :=
  let splits := Py.split "_" log in
  s0 <- index splits 0 ;;
  s1 <- index splits 1 ;;
  match strptime (s0 ++ "_" ++ s1)%string with
  | Some dt => Ok dt
  | None => Raise ValueError
  end.

(** [os.path.join("./logs", log)] for a directory entry. *)
Definition log_path (log : string) : string := ("./logs/" ++ log)%string.

(** The loop over the sorted logs with its cursor [exp_i]. *)
Fixpoint resume_loop (resume : datetime) (logs : list string) (exp_i : nat)
         (st : state) : state * option exn :=
  match logs with
  | [] => (st, None)
  | log :: rest =>
      match log_datetime log with
      | Raise e => (st, Some e)
      | Ok dt =>
          if dt_ge dt resume then
            match open_read (log_path log) st with
            | Raise e => (st, Some e)
            | Ok (content, st1) =>
                match assign_output exp_i content Resume st1 with
                | Raise e => (st1, Some e)
                | Ok st2 =>
                    if (exp_i + 1 =? length (runs st2))%nat
                    then (st2, None)
                    else resume_loop resume rest (exp_i + 1) st2
                end
            end
          else resume_loop resume rest exp_i st
      end
  end.

Definition check_resume (resume : option datetime) (st : state)
  : state * option exn :=
  match resume with
  | None => (st, None)
  | Some d =>
      match listdir (env st) with
      | Raise e => (st, Some e)
      | Ok names =>
          resume_loop d (Py.sort (filter (Py.endswith ".log") names)) 0 st
      end
  end.

(** *** run_commands *)

(** The body of the loop for the run at position [idx]. *)
Definition run_command (idx : nat) (st : state) : state * option exn :=
  match nth_error (runs st) idx with
  | None => (st, None)
  | Some r =>
      match command r with
      | [] => (st, None)
      | _ =>
          match output r with
          | Some _ => (st, None)
          | None =>
              match execute (command r) (env st) with
              | (Raise e, w') => (mkState (runs st) w' (trace st), Some e)
              | (Ok (out, err), w') =>
                  let st1 :=
                    record (EvExecute (command r) out err)
                           (mkState (runs st) w' (trace st)) in
                  match err with
                  | _ :: _ => (st1, Some (SystemExit None))
                  | [] =>
                      match
                        (line <- index out 0 ;;
                         logpath <-
                           Py.last1 (Py.split "and file at " (Py.rstrip line)) ;;
                         open_read logpath st1)
                      with
                      | Raise e => (st1, Some e)
                      | Ok (content, st2) =>
                          match assign_output idx content Execution st2 with
                          | Raise e => (st2, Some e)
                          | Ok st3 => (st3, None)
                          end
                      end
                  end
              end
          end
      end
  end.

Fixpoint run_loop (idxs : list nat) (st : state) : state * option exn :=
  match idxs with
  | [] => (st, None)
  | idx :: rest =>
      match run_command idx st with
      | (st', Some e) => (st', Some e)
      | (st', None) => run_loop rest st'
      end
  end.

Definition run_commands (st : state) : state * option exn :=
  run_loop (seq 0 (length (runs st))) st.

(** *** main *)

Definition generate (x : experiment) (rs : list run) : list run * option exn :=
  match x with
  | EndpointScalingExp => EndpointScaling.generate EndpointScaling.init rs
  | DeploymentsExp => Deployments.generate Deployments.init rs
  end.

(** A stage of [main] that runs only if no exception is pending. *)
Definition andthen (m : state * option exn)
           (k : state -> state * option exn) : state * option exn :=
  match m with
  | (st, None) => k st
  | (st, Some e) => (st, Some e)
  end.

Definition lift_runs (f : list run -> list run * option exn) (st : state)
  : state * option exn :=
  let (rs, e) := f (runs st) in (mkState rs (env st) (trace st), e).

(** [main]: generate, resume, execute, parse, and hand the result to the
    reporting code. *)
Definition main (x : experiment) (resume : option datetime) (w : world)
  : state * option exn :=
  andthen (lift_runs (generate x) (mkState [] w [])) (fun st =>
  andthen (check_resume resume st) (fun st =>
  andthen (run_commands st) (fun st =>
  andthen (lift_runs (parse_output x) st) (fun st =>
  (record EvReport st, None))))).

(** ** Specification-side notions *)

(** [round(x)] of Python: to the nearest integer, a tie to the even one. *)
Definition py_round (x : Q) : Z :=
  let f := Qfloor x in
  let twice_frac := Qnum x * 2 - f * 2 * Zpos (Qden x) in
  match twice_frac ?= Zpos (Qden x) with
  | Lt => f
  | Gt => f + 1
  | Eq => if Z.even f then f else f + 1
  end.

(** [u] is [x] with its fractional part cut off. *)
Definition truncates_to (x : Q) (u : Z) : Prop :=
  (0 <= x -> inject_Z u <= x /\ x < inject_Z (u + 1))%Q /\
  (x <= 0 -> inject_Z (u - 1) < x /\ x <= inject_Z u)%Q.

(** A run that has no output yet. *)
Definition pending (r : run) : Prop := output r = None.

(** A run no metric has been stored in. *)
Definition no_metrics (r : run) : Prop :=
  usage r = None /\ latency r = None /\ latency_breakdown r = None.

(** The resume step in the words of the specification: the content of an
    artifact goes to the next run that does not have an output yet. *)
Fixpoint assign_next_pending (content : list string) (rs : list run)
  : list run :=
  match rs with
  | [] => []
  | r :: rs' =>
      match output r with
      | None => set_output r content :: rs'
      | Some _ => r :: assign_next_pending content rs'
      end
  end.

Definition resume_spec (rs : list run) (contents : list (list string))
  : list run :=
  fold_left (fun acc content => assign_next_pending content acc) contents rs.

(** The resume step as the loop performs it: the contents go to the runs
    by position, from the first run on, whether or not a run has an
    output. *)
Fixpoint fill_in_order (contents : list (list string)) (rs : list run)
  : list run :=
  match contents, rs with
  | c :: cs, r :: rs' => set_output r c :: fill_in_order cs rs'
  | _, _ => rs
  end.

(** A list of names in ascending order of their code points. *)
Definition ascending (xs : list string) : Prop :=
  StronglySorted (fun a b => String.leb a b = true) xs.

(** [logs] lists the names of the directory that end with [.log], each
    as often as the directory has it, in ascending order. *)
Definition sorted_logs (names logs : list string) : Prop :=
  Permutation logs (filter (Py.endswith ".log") names) /\ ascending logs.

(** Whether the name of a log carries a time stamp not before [resume]. *)
Definition stamped_from (resume : datetime) (log : string) : bool :=
  match log_datetime log with
  | Ok dt => dt_ge dt resume
  | Raise _ => false
  end.

(** The logs a resume from [resume] uses, in the order it meets them,
    and what they hold. *)
Definition eligible_logs (resume : datetime) (names : list string)
  : list string :=
  filter (stamped_from resume)
         (Py.sort (filter (Py.endswith ".log") names)).

Definition log_content (w : world) (log : string) : list string :=
  match read_file (log_path log) w with
  | Ok content => content
  | Raise _ => []
  end.

(** The paths read and the positions assigned, as a trace records them. *)
Fixpoint reads (tr : list event) : list string :=
  match tr with
  | [] => []
  | EvRead p :: tr' => p :: reads tr'
  | _ :: tr' => reads tr'
  end.

Fixpoint assigned (tr : list event) : list nat :=
  match tr with
  | [] => []
  | EvAssign i _ :: tr' => i :: assigned tr'
  | _ :: tr' => assigned tr'
  end.

(** The runs of the endpoint mode. *)
Definition in_endpoint_mode (r : run) : bool := String.eqb (mode r) "endpoint".

(** An output none of whose lines holds the marker. *)
Definition no_marker (out : list string) : Prop :=
  Forall (fun line => Py.contains marker line = false) out.

(** The fault raised when the line after the last one is asked for. *)
Definition missing_marker_fault (out : list string) (i : option nat) : exn :=
  match out, i with
  | [], None => UnboundLocalError
  | _, _ => IndexError
  end.

(** The rates of the specification for an aggregate [m] of the
    processing times: [processedRate = (1000.0 / m) * cores] and the
    percentage [requestedRate / processedRate * 100], each operation
    rounded as the floating point arithmetic rounds it. *)
Definition processed_rate (m : NpFloat.t) (c : spec_float) : NpFloat.t :=
  NpFloat.mul_py (weak_scalars lib)
                 (NpFloat.rdiv (weak_scalars lib) (NpFloat.lit 1000) m) c.

Definition percentage (requested : spec_float) (processed : NpFloat.t)
  : NpFloat.t :=
  NpFloat.mul_py (weak_scalars lib)
                 (NpFloat.rdiv (weak_scalars lib) requested processed)
                 (NpFloat.lit 100).

(** The same percentage computed without any rounding. *)
Definition exact_percentage (m : Q) (c e : Z) : Q :=
  (inject_Z (frequency * e) / (inject_Z 1000 / m * inject_Z c)) * inject_Z 100.

(** A float that is not negative: its sign bit is clear, or it is NaN. *)
Definition sign_clear (x : spec_float) : bool :=
  match x with
  | S754_zero s | S754_infinity s | S754_finite s _ _ => negb s
  | S754_nan => true
  end.


(** A loop body that reproduces its own result when it is run again on
    the run it has updated. *)
Definition stable (step : option nat -> run -> run * option nat * option exn)
  : Prop :=
  forall i r, step i (fst (fst (step i r))) = step i r.

(** A run that has an output. *)
Definition filled (r : run) : Prop := output r <> None.


(** [r'] is [r], possibly with its output replaced by the content of a
    file of the log directory whose name ends with [.log]. *)
Definition output_from_logs (w : world) (r r' : run) : Prop :=
  r' = r \/
  exists names log content,
    listdir w = Ok names /\ In log names
    /\ Py.endswith ".log" log = true
    /\ read_file (log_path log) w = Ok content
    /\ r' = set_output r content.

(** Every position the trace assigns is assigned once, and holds a run
    with an output. *)
Definition write_once (st : state) : Prop :=
  NoDup (assigned (trace st))
  /\ forall i, In i (assigned (trace st)) ->
               exists r, nth_error (runs st) i = Some r /\ filled r.

(** No process of the trace wrote to its error stream. *)
Definition quiet (tr : list event) : Prop :=
  forall cmd out err, In (EvExecute cmd out err) tr -> err = [].

(** A state in which no process has failed, nothing was reported and no
    metric is stored. *)
Definition clean (st : state) : Prop :=
  quiet (trace st) /\ ~ In EvReport (trace st) /\ Forall no_metrics (runs st).

(** A state left by [sys.exit()] right after a process has written to
    its error stream. *)
Definition aborted (st : state) (e : option exn) : Prop :=
  e = Some (SystemExit None)
  /\ exists tr cmd out err,
       trace st = tr ++ [EvExecute cmd out err]
       /\ err <> [] /\ quiet tr /\ ~ In EvReport tr
       /\ Forall no_metrics (runs st).

(** What the caller of the script sees: the exit status of the
    interpreter, which is 0 after a normal end and after [sys.exit()]
    without an argument, the argument of [sys.exit(n)], and 1 after any
    other uncaught exception. *)
Definition exit_status (e : option exn) : Z :=
  match e with
  | None => 0
  | Some (SystemExit None) => 0
  | Some (SystemExit (Some n)) => n
  | Some _ => 1
  end.

(** The caller is told that the batch has failed. *)
Definition reports_failure (e : option exn) : Prop := exit_status e <> 0.

(** A field that holds neither a comma nor the escaped newline. *)
Definition plain (s : string) : Prop :=
  Py.contains "," s = false /\ Py.contains esc_nl s = false.

(** The rows of a table, each behind its synthetic index field. *)
Fixpoint indexed_rows (idx : nat -> string) (k : nat)
         (rows : list (list string)) : list (list string) :=
  match rows with
  | [] => []
  | row :: rest => (idx k :: row) :: indexed_rows idx (S k) rest
  end.

(** Every row followed by one escaped newline. *)
Fixpoint terminated (rows : list string) : string :=
  match rows with
  | [] => EmptyString
  | r :: rest => (r ++ esc_nl ++ terminated rest)%string
  end.

(** Modelled from the spec: the escaped-payload format, whose encoder
    belongs to the benchmark application and not to the script.  A
    table becomes one string: each row (the header first) with a
    synthetic leading index field [idx k], its fields separated by
    commas, and one escaped newline per row. *)
Definition payload_text (idx : nat -> string) (header : list string)
           (rows : list (list string)) : string :=
  terminated (map (Py.join ",") (indexed_rows idx 0 (header :: rows))).

(** A payload inside a line of output: one character before it and the
    text [t] after it.  The slice [[1:-4]] of [parse_output] drops one
    character at the front and four at the end. *)
Definition framed (c : ascii) (t : string) (payload : string) : string :=
  String c (payload ++ t).

(** The line that carries a table when the payload stands between two
    quote characters and the line ends with a line feed. *)
Definition encode_payload (idx : nat -> string) (header : list string)
           (rows : list (list string)) : string :=
  framed "'" ("'" ++ LF) (payload_text idx header rows).

(** The decoding steps of [parse_output] for one payload line:
    [line[1:-4]], the two splits, the index column dropped and the frame
    built from the header and the data rows. *)
Definition decode_payload (line : string) : result frame :=
  payload_frame (Py.slice_1_m4 line).

(** What identifies a run: the fields that only [generate] assigns. *)
Definition descriptor (r : run)
  : string * Z * Z * option string * list string * option Z :=
  (mode r, cores r, endpoints r, config r, command r, worker_time r).

(** A run as [generate] appends it: without output and metrics, and with
    a command to execute. *)
Definition fresh (r : run) : Prop :=
  output r = None /\ no_metrics r /\ command r <> [].

(** The metrics [parse_output] stores for an experiment. *)
Definition has_metrics (x : experiment) (r : run) : Prop :=
  usage r <> None /\ latency r <> None
  /\ (x = DeploymentsExp -> latency_breakdown r <> None).

(** The number of runs a grid of the endpoint scaling experiment asks
    for: every endpoint count for a mode that is not [endpoint], and the
    counts up to 1 for the [endpoint] mode. *)
Definition grid_size (ms : list string) (es : list Z) : nat :=
  (length (filter (fun md => negb (String.eqb md "endpoint")) ms) * length es
   + length (filter (fun md => String.eqb md "endpoint") ms)
     * length (filter (fun e => (e <=? 1)%Z) es))%nat.

(** [r'] is [r], or it is [r], which had a command and no output, with
    the output an execution gave it. *)
Definition executed_from (r r' : run) : Prop :=
  r' = r
  \/ (output r = None /\ command r <> []
      /\ exists content, r' = set_output r content).

(** A run [run_commands] has dealt with: it has no command or it has an
    output. *)
Definition settled (r : run) : Prop := command r = [] \/ filled r.

(** The stages of [main] before [parse_output], and those from it on. *)
Definition prepare (x : experiment) (resume : option datetime) (w : world)
  : state * option exn :=
  andthen (andthen (lift_runs (generate x) (mkState [] w []))
                   (check_resume resume))
          run_commands.

Definition parse_and_report (x : experiment) (st : state)
  : state * option exn :=
  andthen (lift_runs (parse_output x) st)
          (fun st' => (record EvReport st', None)).

(** A string of white space only. *)
Fixpoint all_space (s : string) : bool :=
  match s with
  | EmptyString => true
  | String c s' => Py.is_space c && all_space s'
  end.

(** A table that the payload format can carry: fields without comma and
    escaped newline, and rows as wide as the header. *)
Definition encodable (idx : nat -> string) (header : list string)
           (rows : list (list string)) : Prop :=
  (forall k, plain (idx k))
  /\ Forall plain header
  /\ Forall (Forall plain) rows
  /\ Forall (fun row => length row = length header) rows.

(** The cells of the column at position [p] of a table. *)
Definition column_cells (p : nat) (rows : list (list string))
  : list (option string) :=
  map (fun row => nth p (map Some row) None) rows.

(** The commands of the processes a trace has run, in order. *)
Fixpoint executions (tr : list event) : list (list string) :=
  match tr with
  | [] => []
  | EvExecute cmd _ _ :: tr' => cmd :: executions tr'
  | _ :: tr' => executions tr'
  end.

(** Whether [run_commands] executes a run: it has a command and no
    output. *)
Definition to_execute (r : run) : bool :=
  match command r, output r with
  | _ :: _, None => true
  | _, _ => false
  end.

(** [xs] is the beginning of [ys]. *)
Definition prefix_of {A} (xs ys : list A) : Prop := exists zs, ys = xs ++ zs.

(** *** Sample data for the properties of the stages *)

(** A worker table and an endpoint table, the lines that carry them and
    a log with the marker line before them. *)
Definition sample_worker_header : list string :=
  ["container"; "proc_time/data (ms)"; "delay_avg (ms)"].
Definition sample_worker_rows : list (list string) :=
  [["w0"; "125"; "3"]; ["w1"; "75"; "5"]].
Definition sample_endpoint_header : list string :=
  ["latency_avg (ms)"; "preproc_time/data (ms)"].
Definition sample_endpoint_rows : list (list string) :=
  [["200"; "30"]; ["210"; "35"]].

Definition sample_worker_line : string :=
  encode_payload (fun _ => "0") sample_worker_header sample_worker_rows.
Definition sample_endpoint_line : string :=
  encode_payload (fun _ => "0") sample_endpoint_header sample_endpoint_rows.

Definition sample_log : list string :=
  [ "starting"; "Output in csv format";
    sample_worker_line; sample_endpoint_line ].

(** A world in which every process succeeds and points to a log that
    holds [sample_log], and one in which every process is silent. *)
Definition working_world : sample_world :=
  mkWorld [] [("/tmp/run.log", sample_log)]
          [("Logging enabled, writing to stdout and file at /tmp/run.log"
              ++ LF)%string]
          [].

Definition silent_world : sample_world := mkWorld [] [] [] [].

Definition stray_log_world : sample_world :=
  mkWorld ["2024-01-02_10:00:00_b.log"; "0stray.log"] [] [] [].

Definition five_counts : EndpointScaling.grid :=
  EndpointScaling.mkGrid ["cloud"; "edge"; "endpoint"] [4; 2; 1]
                         [1; 2; 4; 8; 16].

Definition logged_run (md : string) : run :=
  set_output (EndpointScaling.new_run md "cloud_endpoint" 4 1) sample_log.

(** ** Properties of [generate] *)

Lemma generate_endpoints_eq (md cfg : string) (c : Z) (es : list Z) :
  forall rs,
    EndpointScaling.generate_endpoints md cfg c es rs =
    rs ++ map (EndpointScaling.new_run md cfg c)
              (filter (fun e => negb (String.eqb md "endpoint" && (1 <? e))) es).
Proof using Type.
  induction es as [|e es IH]; intros rs; simpl.
  - now rewrite app_nil_r.
  - destruct (String.eqb md "endpoint" && (1 <? e)); simpl.
    + apply IH.
    + rewrite IH, <- app_assoc. reflexivity.
Qed.

Lemma filter_mode_new_run (md cfg : string) (c : Z) (es : list Z) :
  filter in_endpoint_mode (map (EndpointScaling.new_run md cfg c) es) =
  if String.eqb md "endpoint"
  then map (EndpointScaling.new_run md cfg c) es
  else [].
Proof using Type.
  induction es as [|e es IH]; simpl.
  - now destruct (String.eqb md "endpoint").
  - unfold in_endpoint_mode at 1. simpl.
    destruct (String.eqb md "endpoint") eqn:E; rewrite IH; reflexivity.
Qed.

(** C1 (amended).  On the grid of [__init__] [generate] appends the nine
    runs cloud x 1,2,4,8, edge x 1,2,4,8, endpoint x 1, in this order and
    without an exception; and for any list of endpoint counts the runs of
    the endpoint mode are one per listed count that does not exceed 1. *)
Theorem generate_endpoint_scaling_runs :
  (map (fun r => (mode r, endpoints r))
       (fst (EndpointScaling.generate EndpointScaling.init [])) =
   [ ("cloud", 1); ("cloud", 2); ("cloud", 4); ("cloud", 8);
     ("edge", 1); ("edge", 2); ("edge", 4); ("edge", 8);
     ("endpoint", 1) ]
   /\ snd (EndpointScaling.generate EndpointScaling.init []) = None)
  /\ forall (c0 c1 c2 : Z) (es : list Z),
       filter in_endpoint_mode
         (fst (EndpointScaling.generate
                 (EndpointScaling.mkGrid ["cloud"; "edge"; "endpoint"]
                                         [c0; c1; c2] es) [])) =
       map (EndpointScaling.new_run "endpoint" "endpoint" c2)
           (filter (fun e => e <=? 1) es).
Proof using Type.
  split.
  - split; reflexivity.
  - intros c0 c1 c2 es.
    unfold EndpointScaling.generate. cbn -[EndpointScaling.generate_endpoints].
    rewrite !generate_endpoints_eq. cbn [fst app].
    rewrite !filter_app, !filter_mode_new_run. cbn [String.eqb Ascii.eqb Bool.eqb andb app].
    f_equal. apply filter_ext. intros e.
    now rewrite Z.leb_antisym.
Qed.

(** C1, as stated, fails: with the endpoint counts 2, 4, 8 the endpoint
    mode generates no run at all. *)
Lemma endpoint_mode_without_run :
  length (filter in_endpoint_mode
            (fst (EndpointScaling.generate
                    (EndpointScaling.mkGrid ["cloud"; "edge"; "endpoint"]
                                            [4; 2; 1] [2; 4; 8]) []))) <> 1%nat.
Proof using Type. vm_compute. discriminate. Qed.

(** ** Output without the marker line *)

Lemma enumerate_no_marker (out : list string) :
  no_marker out ->
  forall i k,
    enumerate_marker i k out =
    match out with
    | [] => i
    | _ :: _ => Some (k + length out - 1)%nat
    end.
Proof using Type.
  induction 1 as [|line rest Hline _ IH]; intros i k; simpl.
  - reflexivity.
  - rewrite Hline, IH. destruct rest; simpl; f_equal; lia.
Qed.

Lemma payloads_no_marker (r : run) (out : list string) (i : option nat) :
  no_marker out ->
  payloads r out (enumerate_marker i 0 out) =
  Raise (missing_marker_fault out i).
Proof using Type.
  intros H. rewrite (enumerate_no_marker out H).
  assert (Hidx : forall n, (length out <= n)%nat ->
                           index out n = @Raise string IndexError).
  { intros n Hn. unfold index.
    now rewrite (proj2 (nth_error_None out n) Hn). }
  unfold payloads.
  destruct out as [|line rest].
  - destruct i as [n|]; simpl.
    + destruct (negb (String.eqb (mode r) "endpoint")); simpl;
        rewrite Hidx by (simpl; lia); reflexivity.
    + now destruct (negb (String.eqb (mode r) "endpoint")).
  - cbn [local bind missing_marker_fault].
    destruct (negb (String.eqb (mode r) "endpoint")); cbn [bind];
      rewrite Hidx by (simpl; lia); reflexivity.
Qed.

(** C3 (amended).  When no line of a run's output contains the marker,
    the loop body of [parse_output] stores no metric and fails with an
    indexing fault: [IndexError] for the line after the last one, or
    [UnboundLocalError] when the output is empty and [i] was never
    bound. *)
Theorem parse_run_without_marker
        (i : option nat) (r : run) (out : list string) :
  output r = Some out ->
  no_marker out ->
  es_parse_run i r =
    (r, enumerate_marker i 0 out, Some (missing_marker_fault out i))
  /\ dp_parse_run i r =
    (r, enumerate_marker i 0 out, Some (missing_marker_fault out i))
  /\ indexing_or_type_fault (missing_marker_fault out i) = true.
Proof using Type.
  intros Hout Hno.
  unfold es_parse_run, dp_parse_run, es_tables, dp_tables.
  rewrite Hout, (payloads_no_marker r out i Hno). cbn [bind].
  repeat split.
  now destruct out, i.
Qed.

(** ** Arithmetic of the metrics *)

(** [int] cuts off the fractional part of the number a float stands
    for. *)
Lemma quot_truncates (x : Q) :
  truncates_to x (Z.quot (Qnum x) (Zpos (Qden x))).
Proof using Type.
  destruct x as [a d]. simpl Qnum. simpl Qden.
  split; intros Hx.
  - assert (Ha : 0 <= a) by (unfold Qle in Hx; simpl in Hx; lia).
    rewrite Z.quot_div_nonneg by lia.
    change (a / Zpos d) with (Qfloor (a # d)).
    split; [apply Qfloor_le | apply Qlt_floor].
  - assert (Ha : a <= 0) by (unfold Qle in Hx; simpl in Hx; lia).
    replace (Z.quot a (Zpos d)) with (Qceiling (a # d)).
    + split; [apply Qceiling_lt | apply Qle_ceiling].
    + unfold Qceiling, Qfloor. simpl.
      rewrite <- (Z.opp_involutive a) at 2.
      rewrite Z.quot_opp_l by lia.
      rewrite Z.quot_div_nonneg by lia. reflexivity.
Qed.

Lemma to_int_exact (a : NpFloat.t) (q : Q) :
  NpFloat.exact (NpFloat.value a) = Some q ->
  exists u, NpFloat.to_int a = Ok u /\ truncates_to q u.
Proof using Type.
  intros H. unfold NpFloat.to_int. rewrite H.
  eexists. split; [reflexivity | apply quot_truncates].
Qed.

(** C4 (amended).  Under the mean policy, when the number of cores and
    five times the number of endpoints are in the range of a float and
    the percentage [requestedRate / processedRate * 100] is finite, with
    [processedRate = (1000.0 / mean) * cores] and
    [requestedRate = 5 * endpoints] and every operation rounded as the
    floating point arithmetic rounds it, [usage] is this percentage with
    its fractional part cut off by [int]; the value is not capped at
    100. *)
Theorem usage_is_truncated_percentage
        (r : run) (wproc elat : NpFloat.column) (c requested : spec_float)
        (q : Q) :
  NpFloat.py_float (cores r) = Ok c ->
  NpFloat.py_float (frequency * endpoints r) = Ok requested ->
  NpFloat.exact
    (NpFloat.value
       (percentage requested
          (processed_rate (NpFloat.mean (np_sum lib) wproc) c))) = Some q ->
  exists u,
    usage (fst (es_metrics r wproc elat)) = Some u
    /\ truncates_to q u.
Proof using Type.
  intros Hc Hr Hq.
  destruct (to_int_exact _ q Hq) as [u [Hu Ht]].
  exists u. split; [|exact Ht].
  unfold es_metrics, usage_of. rewrite Hc. cbn [bind]. rewrite Hr. cbn [bind].
  unfold percentage, processed_rate in Hu. rewrite Hu.
  now destruct (NpFloat.to_int (NpFloat.mean (np_sum lib) elat)).
Qed.








(** ** Repeating [parse_output] *)
(** ** Repeating [parse_output] *)

Lemma payloads_mode (r1 r2 : run) (out : list string) (i : option nat) :
  mode r1 = mode r2 -> payloads r1 out i = payloads r2 out i.
Proof using Type. intros H. unfold payloads. now rewrite H. Qed.

Lemma es_metrics_again (r : run) (wproc elat : NpFloat.column) :
  es_metrics (fst (es_metrics r wproc elat)) wproc elat =
  es_metrics r wproc elat.
Proof using Type.
  unfold es_metrics.
  destruct (usage_of (NpFloat.mean (np_sum lib) wproc) (cores r) (endpoints r)) eqn:U;
    cbn [fst].
  - destruct (NpFloat.to_int (NpFloat.mean (np_sum lib) elat)) eqn:L;
      cbn [fst set_usage set_latency cores endpoints]; rewrite U, ?L;
      reflexivity.
  - rewrite U. reflexivity.
Qed.

Lemma dp_metrics_again (r : run) (wproc elat epre : NpFloat.column) :
  dp_metrics (fst (dp_metrics r wproc elat epre)) wproc elat epre =
  dp_metrics r wproc elat epre.
Proof using Type.
  unfold dp_metrics.
  destruct (usage_of (NpFloat.min wproc) (cores r) (endpoints r)) eqn:U;
    cbn [fst].
  - destruct (NpFloat.to_int (NpFloat.min elat)) eqn:L; cbn [fst].
    + destruct (latency_breakdown_of wproc elat epre) eqn:B;
        cbn [fst set_usage set_latency set_latency_breakdown cores endpoints];
        rewrite ?U, ?L, ?B; reflexivity.
    + cbn [set_usage cores endpoints]. rewrite ?U, ?L. reflexivity.
  - rewrite ?U. reflexivity.
Qed.

Lemma es_metrics_keeps (r : run) (wproc elat : NpFloat.column) :
  output (fst (es_metrics r wproc elat)) = output r
  /\ mode (fst (es_metrics r wproc elat)) = mode r.
Proof using Type.
  unfold es_metrics.
  destruct (usage_of _ _ _); [|now split].
  destruct (NpFloat.to_int _); now split.
Qed.

Lemma dp_metrics_keeps (r : run) (wproc elat epre : NpFloat.column) :
  output (fst (dp_metrics r wproc elat epre)) = output r
  /\ mode (fst (dp_metrics r wproc elat epre)) = mode r.
Proof using Type.
  unfold dp_metrics.
  destruct (usage_of _ _ _); [|now split].
  destruct (NpFloat.to_int _); [|now split].
  destruct (latency_breakdown_of _ _ _); now split.
Qed.

Lemma es_parse_run_stable : stable es_parse_run.
Proof using Type.
  intros i r. unfold es_parse_run at 2 3.
  destruct (output r) as [out|] eqn:O.
  - destruct (es_tables r out (enumerate_marker i 0 out)) as [[wproc elat]|e] eqn:T.
    + destruct (es_metrics_keeps r wproc elat) as [Ho Hm].
      pose proof (es_metrics_again r wproc elat) as Ha.
      destruct (es_metrics r wproc elat) as [r' e'] eqn:M.
      cbn [fst] in *. unfold es_parse_run. rewrite Ho, O.
      unfold es_tables in *. rewrite (payloads_mode r' r out _ Hm), T.
      now rewrite Ha.
    + cbn [fst]. unfold es_parse_run. now rewrite O, T.
  - cbn [fst]. unfold es_parse_run. now rewrite O.
Qed.

Lemma dp_parse_run_stable : stable dp_parse_run.
Proof using Type.
  intros i r. unfold dp_parse_run at 2 3.
  destruct (output r) as [out|] eqn:O.
  - destruct (dp_tables r out (enumerate_marker i 0 out))
      as [[[wproc elat] epre]|e] eqn:T.
    + destruct (dp_metrics_keeps r wproc elat epre) as [Ho Hm].
      pose proof (dp_metrics_again r wproc elat epre) as Ha.
      destruct (dp_metrics r wproc elat epre) as [r' e'] eqn:M.
      cbn [fst] in *. unfold dp_parse_run. rewrite Ho, O.
      unfold dp_tables in *. rewrite (payloads_mode r' r out _ Hm), T.
      now rewrite Ha.
    + cbn [fst]. unfold dp_parse_run. now rewrite O, T.
  - cbn [fst]. unfold dp_parse_run. now rewrite O.
Qed.

Lemma parse_loop_again
      (step : option nat -> run -> run * option nat * option exn) :
  stable step ->
  forall rs i,
    parse_loop step i (fst (parse_loop step i rs)) = parse_loop step i rs.
Proof using Type.
  intros Hs rs. induction rs as [|r rs IH]; intros i; simpl.
  - reflexivity.
  - pose proof (Hs i r) as H.
    destruct (step i r) as [[r' i'] [e|]] eqn:S; cbn [fst] in *.
    + simpl. now rewrite H.
    + specialize (IH i').
      destruct (parse_loop step i' rs) as [rest' e'] eqn:P. cbn [fst] in *.
      simpl. rewrite H, IH. reflexivity.
Qed.

(** C9.  [parse_output] keeps no state between two calls: run again on
    the runs it has updated, it stores the same [usage], [latency] and
    [latency_breakdown] and ends the same way; and so does the metric
    computation of a single run on the same tables. *)
Theorem parse_output_is_idempotent :
  (forall (x : experiment) (rs : list run),
      parse_output x (fst (parse_output x rs)) = parse_output x rs)
  /\ (forall (r : run) (wproc elat : NpFloat.column),
         es_metrics (fst (es_metrics r wproc elat)) wproc elat =
         es_metrics r wproc elat)
  /\ (forall (r : run) (wproc elat epre : NpFloat.column),
         dp_metrics (fst (dp_metrics r wproc elat epre)) wproc elat epre =
         dp_metrics r wproc elat epre).
Proof using Type.
  split; [|split].
  - intros [|] rs; unfold parse_output; apply parse_loop_again.
    + apply es_parse_run_stable.
    + apply dp_parse_run_stable.
  - apply es_metrics_again.
  - apply dp_metrics_again.
Qed.

(** ** Lists, sorting and the state operations *)

Lemma update_length {A} (f : A -> A) (xs : list A) :
  forall n, length (update xs n f) = length xs.
Proof using Type.
  induction xs as [|x xs IH]; intros [|n]; simpl; auto.
Qed.

Lemma update_app {A} (f : A -> A) (xs : list A) (y : A) (ys : list A) :
  update (xs ++ y :: ys) (length xs) f = xs ++ f y :: ys.
Proof using Type.
  induction xs as [|x xs IH]; simpl; [reflexivity | now rewrite IH].
Qed.

Lemma update_nth_error {A} (f : A -> A) (xs : list A) :
  forall n i,
    nth_error (update xs n f) i =
    if (i =? n)%nat then option_map f (nth_error xs i) else nth_error xs i.
Proof using Type.
  induction xs as [|x xs IH]; intros [|n] [|i]; simpl; try reflexivity.
  - now destruct (i =? n)%nat.
  - apply IH.
Qed.

Lemma insert_sorted_in (x y : string) (xs : list string) :
  In y (Py.insert_sorted x xs) <-> x = y \/ In y xs.
Proof using Type.
  clear. induction xs as [|z xs IH]; simpl.
  - tauto.
  - destruct (String.ltb z x); simpl; rewrite ?IH; tauto.
Qed.

Lemma sort_in (y : string) (xs : list string) :
  In y (Py.sort xs) <-> In y xs.
Proof using Type.
  clear. induction xs as [|x xs IH]; simpl.
  - tauto.
  - rewrite insert_sorted_in, IH. tauto.
Qed.

Lemma sorted_logs_in (names : list string) (log : string) :
  In log (Py.sort (filter (Py.endswith ".log") names)) <->
  In log names /\ Py.endswith ".log" log = true.
Proof using Type. now rewrite sort_in, filter_In. Qed.

Lemma assign_output_ok (idx : nat) (content : list string) (src : source)
      (st : state) :
  (idx < length (runs st))%nat ->
  assign_output idx content src st =
  Ok (mkState (update (runs st) idx (fun r => set_output r content))
              (env st) (trace st ++ [EvAssign idx src])).
Proof using Type.
  intros H. unfold assign_output, index.
  destruct (nth_error (runs st) idx) eqn:E.
  - reflexivity.
  - apply nth_error_None in E. lia.
Qed.

(** ** Resume *)

Lemma assign_output_out (idx : nat) (content : list string) (src : source)
      (st : state) :
  (length (runs st) <= idx)%nat ->
  assign_output idx content src st = Raise IndexError.
Proof using Type.
  intros H. unfold assign_output, index.
  now rewrite (proj2 (nth_error_None (runs st) idx) H).
Qed.

Lemma assign_next_pending_filled (content : list string) (rs : list run) :
  Forall filled rs -> assign_next_pending content rs = rs.
Proof using Type.
  induction 1 as [|r rs Hr _ IH]; simpl.
  - reflexivity.
  - unfold filled in Hr. destruct (output r); [now rewrite IH | congruence].
Qed.

Lemma assign_next_pending_app (content : list string)
      (done : list run) (p : run) (pend : list run) :
  Forall filled done -> pending p ->
  assign_next_pending content (done ++ p :: pend) =
  done ++ set_output p content :: pend.
Proof using Type.
  intros Hd Hp. induction Hd as [|r rs Hr _ IH]; simpl.
  - unfold pending in Hp. now rewrite Hp.
  - unfold filled in Hr. destruct (output r); [now rewrite IH | congruence].
Qed.

(** [Py.sort] sorts: its result is a rearrangement of its argument in
    ascending order, and the only one. *)
Lemma leb_trans (a b c : string) :
  String.leb a b = true -> String.leb b c = true -> String.leb a c = true.
Proof using Type.
  unfold String.leb. intros Hab Hbc.
  destruct (String.compare a b) eqn:E1; [| |discriminate].
  - apply String_as_OT.cmp_eq in E1. now subst.
  - destruct (String.compare b c) eqn:E2; [| |discriminate].
    + apply String_as_OT.cmp_eq in E2. subst. now rewrite E1.
    + apply String_as_OT.cmp_lt in E1, E2.
      pose proof (String_as_OT.lt_trans _ _ _ E1 E2) as H.
      apply String_as_OT.cmp_lt in H. unfold String_as_OT.cmp in H.
      now rewrite H.
Qed.

Lemma leb_refl (a : string) : String.leb a a = true.
Proof using Type.
  unfold String.leb.
  pose proof (proj2 (String_as_OT.cmp_eq a a) eq_refl) as H.
  unfold String_as_OT.cmp in H. now rewrite H.
Qed.

Lemma ltb_leb (a b : string) : String.ltb a b = true -> String.leb a b = true.
Proof using Type.
  unfold String.ltb, String.leb.
  destruct (String.compare a b); intros H; try discriminate H; reflexivity.
Qed.

Lemma not_ltb_leb (a b : string) :
  String.ltb a b = false -> String.leb b a = true.
Proof using Type.
  unfold String.ltb, String.leb. rewrite (String.compare_antisym b a).
  destruct (String.compare a b); intros H; try discriminate H; reflexivity.
Qed.

Lemma insert_sorted_perm (x : string) (xs : list string) :
  Permutation (Py.insert_sorted x xs) (x :: xs).
Proof using Type.
  induction xs as [|y ys IH]; simpl.
  - apply Permutation_refl.
  - destruct (String.ltb y x).
    + apply perm_trans with (y :: x :: ys);
        [now apply perm_skip | apply perm_swap].
    + apply Permutation_refl.
Qed.

Lemma sort_perm (xs : list string) : Permutation (Py.sort xs) xs.
Proof using Type.
  induction xs as [|x xs IH]; simpl.
  - constructor.
  - apply perm_trans with (x :: Py.sort xs);
      [apply insert_sorted_perm | now apply perm_skip].
Qed.

Lemma insert_sorted_ascending (x : string) (xs : list string) :
  ascending xs -> ascending (Py.insert_sorted x xs).
Proof using Type.
  unfold ascending. induction 1 as [|y ys Hs IH Hy]; simpl.
  - repeat constructor.
  - destruct (String.ltb y x) eqn:E.
    + constructor; [exact IH|].
      apply Forall_forall. intros z Hz.
      apply (Permutation_in _ (insert_sorted_perm x ys)) in Hz.
      destruct Hz as [<-|Hz]; [now apply ltb_leb|].
      rewrite Forall_forall in Hy. now apply Hy.
    + apply not_ltb_leb in E.
      constructor; [now constructor|].
      constructor; [exact E|].
      eapply Forall_impl; [|exact Hy].
      intros z Hz. now apply leb_trans with y.
Qed.

Lemma sort_ascending (xs : list string) : ascending (Py.sort xs).
Proof using Type.
  induction xs as [|x xs IH]; simpl.
  - constructor.
  - now apply insert_sorted_ascending.
Qed.

Lemma ascending_head_least (a b : string) (l1 l2 : list string) :
  ascending (a :: l1) -> Permutation (a :: l1) (b :: l2) ->
  String.leb a b = true.
Proof using Type.
  intros Hs Hp. inversion Hs as [|? ? _ Ha]; subst.
  assert (Hin : In b (a :: l1))
    by (apply (Permutation_in _ (Permutation_sym Hp)); now left).
  destruct Hin as [<-|Hin]; [apply leb_refl|].
  rewrite Forall_forall in Ha. now apply Ha.
Qed.

Lemma ascending_unique (l1 : list string) :
  forall l2, ascending l1 -> ascending l2 -> Permutation l1 l2 -> l1 = l2.
Proof using Type.
  induction l1 as [|a l1 IH]; intros [|b l2] H1 H2 Hp.
  - reflexivity.
  - now apply Permutation_nil_cons in Hp.
  - apply Permutation_sym in Hp. now apply Permutation_nil_cons in Hp.
  - assert (a = b) as <-.
    { apply String.leb_antisym.
      - exact (ascending_head_least a b l1 l2 H1 Hp).
      - exact (ascending_head_least b a l2 l1 H2 (Permutation_sym Hp)). }
    f_equal. apply IH.
    + now inversion H1.
    + now inversion H2.
    + exact (Permutation_cons_inv Hp).
Qed.

Lemma sorted_logs_sort (names : list string) :
  sorted_logs names (Py.sort (filter (Py.endswith ".log") names)).
Proof using Type.
  split; [apply sort_perm | apply sort_ascending].
Qed.

Lemma sorted_logs_unique (names logs : list string) :
  sorted_logs names logs ->
  logs = Py.sort (filter (Py.endswith ".log") names).
Proof using Type.
  intros [Hp Hs]. apply ascending_unique.
  - exact Hs.
  - apply sort_ascending.
  - apply perm_trans with (filter (Py.endswith ".log") names);
      [exact Hp | apply Permutation_sym, sort_perm].
Qed.

(** With every run pending, filling by position is filling the next run
    without an output. *)
Lemma fill_in_order_pending (contents : list (list string)) :
  forall (done pend : list run),
    Forall filled done -> Forall pending pend ->
    resume_spec (done ++ pend) contents = done ++ fill_in_order contents pend.
Proof using Type.
  unfold resume_spec.
  induction contents as [|c cs IH]; intros done pend Hd Hp.
  - reflexivity.
  - cbn [fold_left]. destruct pend as [|p pend'].
    + rewrite app_nil_r, (assign_next_pending_filled c done Hd).
      specialize (IH done [] Hd (Forall_nil _)).
      rewrite app_nil_r in IH. rewrite IH. now destruct cs.
    + inversion Hp as [|? ? Hp1 Hp']; subst.
      rewrite (assign_next_pending_app c done p pend' Hd Hp1).
      cbn [fill_in_order].
      replace (done ++ set_output p c :: pend')
        with ((done ++ [set_output p c]) ++ pend')
        by (now rewrite <- app_assoc).
      rewrite IH; [now rewrite <- app_assoc| |assumption].
      apply Forall_app. split; [assumption|].
      constructor; [|constructor]. unfold filled. simpl. discriminate.
Qed.

(** The loop with its cursor at [length done]: the contents of the logs
    stamped not before the resume time go to the runs from the cursor
    on, one by one. *)
Lemma resume_loop_fills (resume : datetime) (logs : list string) :
  forall (done rest : list run) (st : state),
    runs st = done ++ rest ->
    Forall (fun log => exists dt, log_datetime log = Ok dt) logs ->
    (forall log, In log (filter (stamped_from resume) logs) ->
                 exists content,
                   read_file (log_path log) (env st) = Ok content) ->
    runs (fst (resume_loop resume logs (length done) st)) =
      done ++ fill_in_order
                (map (log_content (env st)) (filter (stamped_from resume) logs))
                rest
    /\ snd (resume_loop resume logs (length done) st) =
       match rest, filter (stamped_from resume) logs with
       | [], _ :: _ => Some IndexError
       | _, _ => None
       end.
Proof using Type.
  induction logs as [|log logs' IH]; intros done rest st Hruns Hparse Hread.
  - cbn. split; [now destruct rest | now destruct rest].
  - inversion Hparse as [|? ? [dt Hdt] Hparse']; subst.
    assert (Hsf : stamped_from resume log = dt_ge dt resume)
      by (unfold stamped_from; now rewrite Hdt).
    cbn [resume_loop filter] in *. rewrite Hsf in *. rewrite Hdt.
    destruct (dt_ge dt resume) eqn:Hge.
    + destruct (Hread log (or_introl eq_refl)) as [content Hc].
      unfold open_read. rewrite Hc.
      cbn [map]. unfold log_content at 1. rewrite Hc.
      destruct rest as [|r rest'].
      * rewrite assign_output_out
          by (cbn [record runs]; rewrite Hruns, length_app; simpl; lia).
        cbn [fst snd record runs fill_in_order]. now split.
      * rewrite assign_output_ok
          by (cbn [record runs]; rewrite Hruns, length_app; simpl; lia).
        cbn [record runs env trace].
        rewrite update_length, Hruns, update_app. cbn [fill_in_order].
        destruct rest' as [|q rest''].
        -- replace (length done + 1 =? length (done ++ [r]))%nat with true
             by (symmetry; apply Nat.eqb_eq; rewrite length_app; simpl; lia).
           cbn [fst snd runs]. split; [|reflexivity].
           now destruct (map _ _).
        -- replace (length done + 1 =? length (done ++ r :: q :: rest''))%nat
             with false
             by (symmetry; apply Nat.eqb_neq; rewrite length_app; simpl; lia).
           set (st2 := mkState (done ++ set_output r content :: q :: rest'')
                               (env st)
                               ((trace st ++ [EvRead (log_path log)])
                                  ++ [EvAssign (length done) Resume])).
           destruct (IH (done ++ [set_output r content]) (q :: rest'') st2)
             as [Hr He].
           ++ unfold st2. cbn [runs]. now rewrite <- app_assoc.
           ++ assumption.
           ++ intros l Hl. apply Hread. now right.
           ++ replace (length done + 1)%nat
                with (length (done ++ [set_output r content]))
                by (rewrite length_app; reflexivity).
              rewrite Hr, He. unfold st2. cbn [env].
              split; [now rewrite <- app_assoc | reflexivity].
    + apply (IH done rest st); assumption.
Qed.

(** C2 (amended).  For the sorted list of the logs, [check_resume] hands
    the contents of the logs stamped not before the resume time to the
    runs by position: the first such log to the first run, the next to
    the second, and so on, until the logs or the runs are used up, and a
    run that has an output is overwritten.  It ends without an exception
    unless there is no run at all for the first such log.  With every
    run pending this is what the specification's matcher yields: each
    content goes to the next run without an output. *)
Theorem check_resume_fills_by_position
        (resume : datetime) (st : state) (names logs : list string) :
  listdir (env st) = Ok names ->
  sorted_logs names logs ->
  (forall log, In log names -> Py.endswith ".log" log = true ->
               exists dt, log_datetime log = Ok dt) ->
  (forall log, In log names -> Py.endswith ".log" log = true ->
               stamped_from resume log = true ->
               exists content,
                 read_file (log_path log) (env st) = Ok content) ->
  runs (fst (check_resume (Some resume) st)) =
    fill_in_order
      (map (log_content (env st)) (filter (stamped_from resume) logs))
      (runs st)
  /\ snd (check_resume (Some resume) st) =
     match runs st, filter (stamped_from resume) logs with
     | [], _ :: _ => Some IndexError
     | _, _ => None
     end
  /\ (Forall pending (runs st) ->
      fill_in_order
        (map (log_content (env st)) (filter (stamped_from resume) logs))
        (runs st) =
      resume_spec (runs st)
        (map (log_content (env st)) (filter (stamped_from resume) logs))).
Proof using Type.
  intros Hdir Hsorted Hparse Hread.
  rewrite (sorted_logs_unique names logs Hsorted).
  unfold check_resume. rewrite Hdir.
  destruct (resume_loop_fills resume
              (Py.sort (filter (Py.endswith ".log") names)) [] (runs st) st)
    as [Hr He].
  - reflexivity.
  - apply Forall_forall. intros log Hin.
    apply sorted_logs_in in Hin. destruct Hin. now apply Hparse.
  - intros log Hin. apply filter_In in Hin. destruct Hin as [Hin Hst].
    apply sorted_logs_in in Hin. destruct Hin. now apply Hread.
  - cbn [length app] in Hr, He.
    split; [exact Hr|]. split; [exact He|].
    intros Hpend. symmetry.
    apply (fill_in_order_pending _ [] (runs st)); [constructor | exact Hpend].
Qed.

Lemma reads_app (tr1 tr2 : list event) :
  reads (tr1 ++ tr2) = reads tr1 ++ reads tr2.
Proof using Type.
  induction tr1 as [|ev tr1 IH]; simpl.
  - reflexivity.
  - destruct ev; simpl; now rewrite ?IH.
Qed.

Lemma assigned_app (tr1 tr2 : list event) :
  assigned (tr1 ++ tr2) = assigned tr1 ++ assigned tr2.
Proof using Type.
  induction tr1 as [|ev tr1 IH]; simpl.
  - reflexivity.
  - destruct ev; simpl; now rewrite ?IH.
Qed.

Lemma resume_loop_reads (resume : datetime) (names : list string)
      (logs : list string) :
  forall (exp_i : nat) (st : state) (w : world),
    env st = w ->
    listdir w = Ok names ->
    (forall log, In log logs ->
                 In log names /\ Py.endswith ".log" log = true) ->
    exists tr,
      trace (fst (resume_loop resume logs exp_i st)) = trace st ++ tr
      /\ (length (reads tr) + exp_i <=
          Nat.max (exp_i + 1) (length (runs st)))%nat
      /\ (forall p, In p (reads tr) ->
                    exists log, In log logs /\ p = log_path log)
      /\ length (runs (fst (resume_loop resume logs exp_i st))) =
         length (runs st)
      /\ (forall i r',
             nth_error (runs (fst (resume_loop resume logs exp_i st))) i =
             Some r' ->
             exists r, nth_error (runs st) i = Some r
                       /\ output_from_logs w r r').
Proof using Type.
  induction logs as [|log rest IH]; intros exp_i st w Hw Hdir Hlogs.
  - exists []. cbn. rewrite app_nil_r. repeat split; try lia; try tauto.
    intros i r' H. exists r'. split; [assumption | now left].
  - assert (Hstay :
      exists tr : list event,
        trace st = trace st ++ tr
        /\ (length (reads tr) + exp_i <=
            Nat.max (exp_i + 1) (length (runs st)))%nat
        /\ (forall p, In p (reads tr) ->
                      exists l, In l (log :: rest) /\ p = log_path l)
        /\ length (runs st) = length (runs st)
        /\ (forall i r', nth_error (runs st) i = Some r' ->
                         exists r, nth_error (runs st) i = Some r
                                   /\ output_from_logs w r r')).
    { exists []. rewrite app_nil_r. cbn. repeat split; try lia; try tauto.
      intros i r' H. exists r'. split; [assumption | now left]. }
    cbn [resume_loop].
    destruct (log_datetime log) as [dt|e]; [|exact Hstay].
    destruct (dt_ge dt resume).
    + unfold open_read.
      destruct (read_file (log_path log) (env st)) as [content|] eqn:Hc;
        [|exact Hstay].
      destruct (Nat.ltb_spec exp_i (length (runs st))) as [Hlt|Hge];
        [|rewrite assign_output_out by (cbn [record runs]; lia);
          exists [EvRead (log_path log)]; cbn [fst record trace runs];
          split; [reflexivity|]; split; [cbn [reads length]; lia|];
          split; [intros p [<-|[]]; exists log; split;
                    [now left | reflexivity]|];
          split; [reflexivity|];
          intros i r' H; exists r'; split; [assumption | now left]].
      rewrite assign_output_ok by (cbn [record runs]; lia).
      cbn [record runs env trace]. rewrite update_length.
      set (st2 := mkState (update (runs st) exp_i (fun r => set_output r content))
                          (env st)
                          ((trace st ++ [EvRead (log_path log)])
                             ++ [EvAssign exp_i Resume])).
      assert (Hstep : forall i r',
                 nth_error (runs st2) i = Some r' ->
                 exists r, nth_error (runs st) i = Some r
                           /\ output_from_logs w r r').
      { intros i r' H. unfold st2 in H. cbn [runs] in H.
        rewrite update_nth_error in H.
        destruct (i =? exp_i)%nat.
        - destruct (nth_error (runs st) i) as [r|]; [|discriminate].
          injection H as <-. exists r. split; [reflexivity|]. right.
          exists names, log, content. rewrite <- Hw.
          destruct (Hlogs log (or_introl eq_refl)). rewrite Hw. subst w.
          repeat split; assumption.
        - exists r'. split; [assumption | now left]. }
      destruct (exp_i + 1 =? length (runs st))%nat eqn:Hend.
      * exists [EvRead (log_path log); EvAssign exp_i Resume].
        cbn [fst]. apply Nat.eqb_eq in Hend.
        split; [unfold st2; cbn [trace]; now rewrite <- app_assoc|].
        split; [cbn; lia|].
        split.
        -- intros p [<-|[]]. exists log. split; [now left | reflexivity].
        -- split; [unfold st2; cbn [runs]; apply update_length | exact Hstep].
      * apply Nat.eqb_neq in Hend.
        destruct (IH (exp_i + 1)%nat st2 w) as [tr [Ht [Hn [Hp [Hl Hr]]]]].
        -- unfold st2. cbn. assumption.
        -- assumption.
        -- intros l Hl. apply Hlogs. now right.
        -- exists (EvRead (log_path log) :: EvAssign exp_i Resume :: tr).
           fold st2. rewrite Ht. unfold st2 at 1. cbn [trace].
           rewrite <- !app_assoc. cbn [app].
           split; [reflexivity|].
           assert (Hlen2 : length (runs st2) = length (runs st))
             by (unfold st2; cbn [runs]; apply update_length).
           split; [cbn [reads length]; lia|].
           split.
           ++ cbn [reads]. intros p [<-|Hin].
              ** exists log. split; [now left | reflexivity].
              ** destruct (Hp p Hin) as [l [Hl1 Hl2]].
                 exists l. split; [now right | assumption].
           ++ split; [lia|].
              intros i r' H. destruct (Hr i r' H) as [r1 [H1 H1']].
              destruct (Hstep i r1 H1) as [r [H0 H0']].
              exists r. split; [assumption|].
              destruct H1' as [->|(ns & l & c & Ha & Hb & Hc' & Hd & ->)];
                [assumption|].
              right. exists ns, l, c. repeat split; try assumption.
              destruct H0' as [->|(ns' & l' & c' & _ & _ & _ & _ & ->)];
                reflexivity.
    + destruct (IH exp_i st w Hw Hdir) as [tr [Ht [Hn [Hp [Hl Hr]]]]].
      * intros l Hl. apply Hlogs. now right.
      * exists tr. repeat split; try assumption.
        intros p Hin. destruct (Hp p Hin) as [l [Hl1 Hl2]].
        exists l. split; [now right | assumption].
Qed.

(** C10 (amended).  [check_resume] opens only files of the log
    directory whose name ends with [.log] and leaves every run either as
    it was or with the content of such a file as its output; it opens at
    most as many files as there are runs, except that with no run at all
    it still opens one file before [self.runs[0]] fails. *)
Theorem check_resume_reads_only_logs
        (resume : option datetime) (st : state) :
  exists tr,
    trace (fst (check_resume resume st)) = trace st ++ tr
    /\ (length (reads tr) <= Nat.max 1 (length (runs st)))%nat
    /\ (forall p, In p (reads tr) ->
                  exists names log,
                    listdir (env st) = Ok names /\ In log names
                    /\ Py.endswith ".log" log = true /\ p = log_path log)
    /\ (forall i r',
           nth_error (runs (fst (check_resume resume st))) i = Some r' ->
           exists r, nth_error (runs st) i = Some r
                     /\ output_from_logs (env st) r r').
Proof using Type.
  assert (Hstay :
    exists tr : list event,
      trace st = trace st ++ tr
      /\ (length (reads tr) <= Nat.max 1 (length (runs st)))%nat
      /\ (forall p, In p (reads tr) ->
                    exists names log,
                      listdir (env st) = Ok names /\ In log names
                      /\ Py.endswith ".log" log = true /\ p = log_path log)
      /\ (forall i r', nth_error (runs st) i = Some r' ->
                       exists r, nth_error (runs st) i = Some r
                                 /\ output_from_logs (env st) r r')).
  { exists []. rewrite app_nil_r. cbn. repeat split; try lia; try tauto.
    intros i r' H. exists r'. split; [assumption | now left]. }
  unfold check_resume.
  destruct resume as [d|]; [|exact Hstay].
  destruct (listdir (env st)) as [names|] eqn:Hdir; [|exact Hstay].
  destruct (resume_loop_reads d names
              (Py.sort (filter (Py.endswith ".log") names)) 0 st (env st)
              eq_refl Hdir)
    as [tr [Ht [Hn [Hp [Hl Hr]]]]].
  - intros log Hin. now apply sorted_logs_in.
  - exists tr. repeat split; try assumption; try lia.
    intros p Hin. destruct (Hp p Hin) as [log [Hlog ->]].
    apply sorted_logs_in in Hlog. destruct Hlog.
    exists names, log. repeat split; assumption.
Qed.

(** ** The output of a run is written once *)

Lemma assign_output_inv (idx : nat) (content : list string) (src : source)
      (st st' : state) :
  assign_output idx content src st = Ok st' ->
  st' = mkState (update (runs st) idx (fun r => set_output r content))
                (env st) (trace st ++ [EvAssign idx src])
  /\ exists r, nth_error (runs st) idx = Some r.
Proof using Type.
  unfold assign_output, index.
  destruct (nth_error (runs st) idx) as [r|]; cbn [bind]; [|discriminate].
  intros H. injection H as <-. split; [reflexivity | now exists r].
Qed.

Lemma write_once_assign (idx : nat) (content : list string) (src : source)
      (st st' : state) :
  write_once st ->
  ~ In idx (assigned (trace st)) ->
  assign_output idx content src st = Ok st' ->
  write_once st'.
Proof using Type.
  intros [Hnd Hf] Hnew H.
  apply assign_output_inv in H. destruct H as [-> [r Hr]].
  unfold write_once. cbn [trace runs].
  rewrite assigned_app. cbn [assigned]. split.
  - apply NoDup_app; [assumption | constructor; [intros [] | constructor] |].
    intros a Ha [<-|[]]. contradiction.
  - intros i Hi. rewrite update_nth_error. apply in_app_or in Hi.
    destruct (i =? idx)%nat eqn:E.
    + apply Nat.eqb_eq in E. subst i. rewrite Hr. cbn.
      eexists. split; [reflexivity|]. unfold filled. cbn. discriminate.
    + destruct Hi as [Hi|[<-|[]]]; [now apply Hf|].
      rewrite Nat.eqb_refl in E. discriminate.
Qed.

Lemma write_once_ext (st st' : state) :
  runs st' = runs st ->
  assigned (trace st') = assigned (trace st) ->
  write_once st -> write_once st'.
Proof using Type. unfold write_once. intros -> ->. tauto. Qed.

Lemma resume_loop_write_once (resume : datetime) (logs : list string) :
  forall (exp_i : nat) (st : state),
    write_once st ->
    (forall i, In i (assigned (trace st)) -> (i < exp_i)%nat) ->
    write_once (fst (resume_loop resume logs exp_i st)).
Proof using Type.
  induction logs as [|log rest IH]; intros exp_i st Hw Hlt; cbn [resume_loop].
  - exact Hw.
  - destruct (log_datetime log) as [dt|e]; [|exact Hw].
    destruct (dt_ge dt resume); [|now apply IH].
    unfold open_read.
    destruct (read_file (log_path log) (env st)) as [content|]; [|exact Hw].
    assert (Hw1 : write_once (record (EvRead (log_path log)) st)).
    { apply (write_once_ext st); [reflexivity | | exact Hw].
      cbn [record trace]. rewrite assigned_app. cbn. apply app_nil_r. }
    assert (Ha1 : assigned (trace (record (EvRead (log_path log)) st)) =
                  assigned (trace st)).
    { cbn [record trace]. rewrite assigned_app. cbn. apply app_nil_r. }
    destruct (assign_output exp_i content Resume
                (record (EvRead (log_path log)) st)) as [st2|e] eqn:Ha;
      [|exact Hw1].
    assert (Hw2 : write_once st2).
    { apply (write_once_assign _ _ _ _ _ Hw1) in Ha; [assumption|].
      rewrite Ha1. intros Hin. apply Hlt in Hin. lia. }
    destruct (exp_i + 1 =? length (runs st2))%nat; [exact Hw2|].
    apply IH; [exact Hw2|].
    apply assign_output_inv in Ha. destruct Ha as [-> _].
    cbn [trace]. rewrite assigned_app, Ha1. cbn [assigned].
    intros i Hi. apply in_app_or in Hi. destruct Hi as [Hi|[<-|[]]].
    + apply Hlt in Hi. lia.
    + lia.
Qed.

Lemma check_resume_write_once (resume : option datetime) (st : state) :
  assigned (trace st) = [] ->
  write_once (fst (check_resume resume st)).
Proof using Type.
  intros Ht.
  assert (Hw : write_once st).
  { unfold write_once. rewrite Ht. split; [constructor | intros i []]. }
  unfold check_resume.
  destruct resume as [d|]; [|exact Hw].
  destruct (listdir (env st)); [|exact Hw].
  apply resume_loop_write_once; [exact Hw|].
  rewrite Ht. intros i [].
Qed.

Lemma run_command_write_once (idx : nat) (st : state) :
  write_once st -> write_once (fst (run_command idx st)).
Proof using Type.
  intros Hw. unfold run_command.
  destruct (nth_error (runs st) idx) as [r|] eqn:Hr; [|exact Hw].
  destruct (command r) as [|c0 cs]; [exact Hw|].
  destruct (output r) as [o|] eqn:Ho; [exact Hw|].
  destruct (execute (c0 :: cs) (env st)) as [[[out err]|e] w'];
    [|apply (write_once_ext st); [reflexivity | reflexivity | exact Hw]].
  set (st1 := record (EvExecute (c0 :: cs) out err)
                     (mkState (runs st) w' (trace st))).
  assert (Ha1 : assigned (trace st1) = assigned (trace st)).
  { unfold st1. cbn [record trace]. rewrite assigned_app. cbn.
    apply app_nil_r. }
  assert (Hw1 : write_once st1).
  { apply (write_once_ext st); [reflexivity | exact Ha1 | exact Hw]. }
  destruct err; [|exact Hw1].
  destruct (index out 0) as [line|e]; cbn [bind]; [|exact Hw1].
  destruct (Py.last1 _) as [logpath|e]; cbn [bind]; [|exact Hw1].
  unfold open_read.
  destruct (read_file logpath (env st1)) as [content|]; [|exact Hw1].
  assert (Ha2 : assigned (trace (record (EvRead logpath) st1)) =
                assigned (trace st)).
  { cbn [record trace]. rewrite assigned_app, Ha1. cbn. apply app_nil_r. }
  assert (Hw2 : write_once (record (EvRead logpath) st1)).
  { apply (write_once_ext st); [reflexivity | exact Ha2 | exact Hw]. }
  destruct (assign_output idx content Execution (record (EvRead logpath) st1))
    as [st3|e] eqn:Ha; [|exact Hw2].
  cbn [fst]. apply (write_once_assign _ _ _ _ _ Hw2) in Ha; [assumption|].
  rewrite Ha2. intros Hin.
  destruct Hw as [_ Hf]. destruct (Hf idx Hin) as [r0 [Hr0 Hfill]].
  rewrite Hr in Hr0. injection Hr0 as <-. unfold filled in Hfill. congruence.
Qed.

Lemma run_loop_write_once (idxs : list nat) :
  forall st, write_once st -> write_once (fst (run_loop idxs st)).
Proof using Type.
  induction idxs as [|idx rest IH]; intros st Hw; cbn [run_loop].
  - exact Hw.
  - pose proof (run_command_write_once idx st Hw) as H1.
    destruct (run_command idx st) as [st' [e|]]; cbn [fst] in *.
    + exact H1.
    + now apply IH.
Qed.

Lemma no_repeated_assign (tr : list event) (i : nat) (s1 s2 : source) :
  NoDup (assigned tr) ->
  In (EvAssign i s1) tr -> In (EvAssign i s2) tr -> s1 = s2.
Proof using Type.
  assert (Hin : forall t j s, In (EvAssign j s) t -> In j (assigned t)).
  { induction t as [|ev t IH]; intros j s; simpl; [tauto|].
    intros [->|H]; [now left|].
    destruct ev; simpl; eauto. }
  induction tr as [|ev tr IH]; simpl; [tauto|].
  intros Hnd [->|H1] [H2|H2].
  - congruence.
  - simpl in Hnd. inversion Hnd; subst. exfalso. eauto.
  - subst ev. simpl in Hnd. inversion Hnd; subst. exfalso. eauto.
  - apply IH; try assumption. destruct ev; simpl in Hnd; try assumption.
    now inversion Hnd.
Qed.

Lemma main_no_repeated_position
      (x : experiment) (resume : option datetime) (w : world) :
  NoDup (assigned (trace (fst (main x resume w)))).
Proof using Type.
  unfold main, andthen, lift_runs. cbn [runs env trace].
  destruct (generate x []) as [rs [e|]].
  - cbn. constructor.
  - pose proof (check_resume_write_once resume (mkState rs w []) eq_refl) as H1.
    destruct (check_resume resume (mkState rs w [])) as [st1 [e|]];
      cbn [fst] in *; [apply H1|].
    pose proof (run_loop_write_once (seq 0 (length (runs st1))) st1 H1) as H2.
    unfold run_commands.
    destruct (run_loop (seq 0 (length (runs st1))) st1) as [st2 [e|]];
      cbn [fst] in *; [apply H2|].
    destruct H2 as [Hnd _].
    destruct (parse_output x (runs st2)) as [rs' [e|]]; cbn [fst trace record].
    + exact Hnd.
    + rewrite assigned_app. cbn. now rewrite app_nil_r.
Qed.

(** C8.  In a run of [main] the output of every run is assigned at most
    once: no position occurs twice among the assignments, so a run
    filled by the resume is not assigned by the execution and a run
    filled by the execution was not filled by the resume. *)
Theorem output_assigned_at_most_once
        (x : experiment) (resume : option datetime) (w : world) :
  NoDup (assigned (trace (fst (main x resume w))))
  /\ forall i,
       ~ (In (EvAssign i Resume) (trace (fst (main x resume w)))
          /\ In (EvAssign i Execution) (trace (fst (main x resume w)))).
Proof using Type.
  split.
  - apply main_no_repeated_position.
  - intros i [H1 H2].
    pose proof (no_repeated_assign _ i Resume Execution
                  (main_no_repeated_position x resume w) H1 H2) as H.
    discriminate H.
Qed.

(** ** A failing process ends the batch *)

Lemma no_metrics_set_output (content : list string) (rs : list run) :
  forall n,
    Forall no_metrics rs ->
    Forall no_metrics (update rs n (fun r => set_output r content)).
Proof using Type.
  induction rs as [|r rs IH]; intros [|n] H; simpl; try assumption;
    inversion H; subst; constructor; auto.
Qed.

Lemma clean_read (path : string) (st : state) :
  clean st -> clean (record (EvRead path) st).
Proof using Type.
  intros [Hq [Hr Hm]]. unfold clean. cbn [record trace runs].
  repeat split; try assumption.
  - intros cmd out err Hin. apply in_app_or in Hin.
    destruct Hin as [Hin|[Hin|[]]]; [now apply (Hq cmd out) | discriminate].
  - intros Hin. apply in_app_or in Hin.
    destruct Hin as [Hin|[Hin|[]]]; [contradiction | discriminate].
Qed.

Lemma clean_assign (idx : nat) (content : list string) (src : source)
      (st st' : state) :
  clean st -> assign_output idx content src st = Ok st' -> clean st'.
Proof using Type.
  intros [Hq [Hr Hm]] H. apply assign_output_inv in H. destruct H as [-> _].
  unfold clean. cbn [trace runs]. repeat split.
  - intros cmd out err Hin. apply in_app_or in Hin.
    destruct Hin as [Hin|[Hin|[]]]; [now apply (Hq cmd out) | discriminate].
  - intros Hin. apply in_app_or in Hin.
    destruct Hin as [Hin|[Hin|[]]]; [contradiction | discriminate].
  - now apply no_metrics_set_output.
Qed.

Lemma resume_loop_clean (resume : datetime) (logs : list string) :
  forall (exp_i : nat) (st : state),
    clean st -> clean (fst (resume_loop resume logs exp_i st)).
Proof using Type.
  induction logs as [|log rest IH]; intros exp_i st Hc; cbn [resume_loop].
  - exact Hc.
  - destruct (log_datetime log) as [dt|e]; [|exact Hc].
    destruct (dt_ge dt resume); [|now apply IH].
    unfold open_read.
    destruct (read_file (log_path log) (env st)) as [content|]; [|exact Hc].
    pose proof (clean_read (log_path log) st Hc) as Hc1.
    destruct (assign_output exp_i content Resume
                (record (EvRead (log_path log)) st)) as [st2|e] eqn:Ha;
      [|exact Hc1].
    pose proof (clean_assign _ _ _ _ _ Hc1 Ha) as Hc2.
    destruct (exp_i + 1 =? length (runs st2))%nat; [exact Hc2 | now apply IH].
Qed.

Lemma check_resume_clean (resume : option datetime) (st : state) :
  clean st -> clean (fst (check_resume resume st)).
Proof using Type.
  intros Hc. unfold check_resume.
  destruct resume as [d|]; [|exact Hc].
  destruct (listdir (env st)); [|exact Hc].
  now apply resume_loop_clean.
Qed.

Lemma run_command_outcome (idx : nat) (st : state) :
  clean st ->
  clean (fst (run_command idx st))
  \/ aborted (fst (run_command idx st)) (snd (run_command idx st)).
Proof using Type.
  intros Hc. unfold run_command.
  destruct (nth_error (runs st) idx) as [r|]; [|now left].
  destruct (command r) as [|c0 cs]; [now left|].
  destruct (output r); [now left|].
  destruct (execute (c0 :: cs) (env st)) as [[[out err]|e] w'];
    [|now left].
  destruct Hc as [Hq [Hr Hm]].
  destruct err as [|l err].
  - assert (Hc1 : clean (record (EvExecute (c0 :: cs) out [])
                                (mkState (runs st) w' (trace st)))).
    { unfold clean. cbn [record trace runs]. repeat split; try assumption.
      - intros cmd o e Hin. apply in_app_or in Hin.
        destruct Hin as [Hin|[Hin|[]]]; [now apply (Hq cmd o)|].
        now injection Hin as _ _ <-.
      - intros Hin. apply in_app_or in Hin.
        destruct Hin as [Hin|[Hin|[]]]; [contradiction | discriminate]. }
    left.
    destruct (index out 0) as [line|e]; cbn [bind]; [|exact Hc1].
    destruct (Py.last1 _) as [logpath|e]; cbn [bind]; [|exact Hc1].
    unfold open_read.
    destruct (read_file logpath _) as [content|]; [|exact Hc1].
    pose proof (clean_read logpath _ Hc1) as Hc2.
    destruct (assign_output idx content Execution _) as [st3|e] eqn:Ha;
      [|exact Hc2].
    exact (clean_assign _ _ _ _ _ Hc2 Ha).
  - right. cbn [fst snd]. split; [reflexivity|].
    exists (trace st), (c0 :: cs), out, (l :: err).
    cbn [record trace runs]. repeat split; try assumption. discriminate.
Qed.

Lemma aborted_some (st : state) : ~ aborted st None.
Proof using Type. intros [H _]. discriminate H. Qed.

Lemma run_loop_outcome (idxs : list nat) :
  forall st,
    clean st ->
    clean (fst (run_loop idxs st))
    \/ aborted (fst (run_loop idxs st)) (snd (run_loop idxs st)).
Proof using Type.
  induction idxs as [|idx rest IH]; intros st Hc; cbn [run_loop].
  - now left.
  - pose proof (run_command_outcome idx st Hc) as H1.
    destruct (run_command idx st) as [st' [e|]]; cbn [fst snd] in *.
    + exact H1.
    + destruct H1 as [H1|H1]; [now apply IH | now apply aborted_some in H1].
Qed.

Lemma generate_no_metrics (x : experiment) :
  Forall no_metrics (fst (generate x [])).
Proof using Type.
  destruct x; vm_compute; repeat constructor.
Qed.

(** How [main] ends: without a failed process in its trace, or by the
    [sys.exit()] that follows one. *)
Lemma main_outcome (x : experiment) (resume : option datetime) (w : world) :
  quiet (trace (fst (main x resume w)))
  \/ aborted (fst (main x resume w)) (snd (main x resume w)).
Proof using Type.
  unfold main, andthen, lift_runs. cbn [runs env trace].
  pose proof (generate_no_metrics x) as Hg.
  destruct (generate x []) as [rs [e|]]; cbn [fst] in Hg.
  - left. cbn. intros cmd out err [].
  - assert (Hc0 : clean (mkState rs w [])).
    { unfold clean. cbn. repeat split; auto. intros cmd out err []. }
    pose proof (check_resume_clean resume _ Hc0) as H1.
    destruct (check_resume resume (mkState rs w [])) as [st1 [e|]];
      cbn [fst] in *; [left; apply H1|].
    pose proof (run_loop_outcome (seq 0 (length (runs st1))) st1 H1) as H2.
    unfold run_commands.
    destruct (run_loop (seq 0 (length (runs st1))) st1) as [st2 [e|]];
      cbn [fst snd] in *.
    + destruct H2 as [H2|H2]; [left; apply H2 | now right].
    + destruct H2 as [[Hq _]|H2]; [|now apply aborted_some in H2].
      left.
      destruct (parse_output x (runs st2)) as [rs' [e|]];
        cbn [fst trace record]; [exact Hq|].
      intros cmd out err Hin. apply in_app_or in Hin.
      destruct Hin as [Hin|[Hin|[]]]; [now apply (Hq cmd out) | discriminate].
Qed.

(** C6 (amended).  If a process run by [main] has written anything to
    its error stream, then [main] has ended with the [SystemExit] of
    [sys.exit()], that process is the last thing the script did, no run
    holds a metric and nothing has been handed to the reporting code;
    the exit carries no argument, so the exit status is 0 and the caller
    is not told of a failure. *)
Theorem process_error_aborts_batch
        (x : experiment) (resume : option datetime) (w : world)
        (cmd out err : list string) :
  In (EvExecute cmd out err) (trace (fst (main x resume w))) ->
  err <> [] ->
  snd (main x resume w) = Some (SystemExit None)
  /\ (exists tr, trace (fst (main x resume w)) = tr ++ [EvExecute cmd out err])
  /\ Forall no_metrics (runs (fst (main x resume w)))
  /\ ~ In EvReport (trace (fst (main x resume w)))
  /\ exit_status (snd (main x resume w)) = 0.
Proof using Type.
  intros Hin Herr.
  destruct (main_outcome x resume w) as [Hq|[He Ha]].
  - exfalso. apply Herr. exact (Hq cmd out err Hin).
  - destruct Ha as (tr & c & o & e & Ht & Hne & Hq & Hr & Hm).
    split; [exact He|]. rewrite Ht in *.
    apply in_app_or in Hin. destruct Hin as [Hin|[Hin|[]]].
    + exfalso. apply Herr. exact (Hq cmd out err Hin).
    + injection Hin as -> -> ->.
      split; [now exists tr|]. split; [exact Hm|].
      split; [|now rewrite He].
      intros H. apply in_app_or in H.
      destruct H as [H|[H|[]]]; [contradiction | discriminate].
Qed.

(** ** Encoding and decoding a payload *)

Lemma string_length_app (a b : string) :
  String.length (a ++ b) = (String.length a + String.length b)%nat.
Proof using Type. induction a as [|c a IH]; simpl; [reflexivity | now rewrite IH]. Qed.

Lemma substring_prefix (a b : string) :
  substring 0 (String.length a) (a ++ b) = a.
Proof using Type.
  induction a as [|c a IH]; simpl.
  - now destruct b.
  - now rewrite IH.
Qed.

Lemma string_app_assoc (a b c : string) :
  ((a ++ b) ++ c = a ++ (b ++ c))%string.
Proof using Type. induction a as [|x a IH]; simpl; [reflexivity | now rewrite IH]. Qed.

Lemma slice_framed (c : ascii) (t body : string) :
  String.length t = 2%nat ->
  Py.slice_1_m4 (framed c t (body ++ esc_nl)) = body.
Proof using Type.
  intros Ht. unfold Py.slice_1_m4, framed. rewrite string_app_assoc.
  cbn [String.length substring].
  rewrite !string_length_app, Ht.
  match goal with
  | |- substring 0 ?n _ = _ =>
      replace n with (String.length body) by (cbn; lia)
  end.
  apply substring_prefix.
Qed.

Lemma terminated_join (rows : list string) :
  rows <> [] ->
  terminated rows = (Py.join esc_nl rows ++ esc_nl)%string.
Proof using Type.
  induction rows as [|r rest IH]; [congruence|]. intros _.
  destruct rest as [|r' rest'].
  - cbn. reflexivity.
  - cbn [terminated Py.join] in *. rewrite IH by discriminate.
    now rewrite !string_app_assoc.
Qed.

Lemma split_comma_part (p rest : string) :
  Py.contains "," p = false ->
  Py.split_from "," 0 (p ++ "," ++ rest) = p :: Py.split_from "," 0 rest.
Proof using Type.
  induction p as [|c p IH]; intros H.
  - reflexivity.
  - cbn [Py.contains Py.startswith] in H.
    apply orb_false_elim in H. destruct H as [Hc Hp].
    rewrite andb_true_r in Hc.
    pose proof (IH Hp) as IH'.
    cbn [append Py.split_from Py.startswith] in *. rewrite Hc. cbn [andb].
    now rewrite IH'.
Qed.

Lemma split_comma_last (p : string) :
  Py.contains "," p = false -> Py.split_from "," 0 p = [p].
Proof using Type.
  induction p as [|c p IH]; intros H.
  - reflexivity.
  - cbn [Py.contains Py.startswith] in H.
    apply orb_false_elim in H. destruct H as [Hc Hp].
    rewrite andb_true_r in Hc.
    cbn [Py.split_from Py.startswith]. rewrite Hc. cbn [andb].
    now rewrite (IH Hp).
Qed.

Lemma split_join_comma (fields : list string) :
  fields <> [] ->
  Forall (fun f => Py.contains "," f = false) fields ->
  Py.split "," (Py.join "," fields) = fields.
Proof using Type.
  unfold Py.split.
  induction fields as [|f rest IH]; [congruence|]. intros _ H.
  inversion H as [|? ? Hf Hrest]; subst.
  destruct rest as [|f' rest'].
  - cbn [Py.join]. now apply split_comma_last.
  - cbn [Py.join] in *. rewrite (split_comma_part _ _ Hf).
    now rewrite IH by (assumption || discriminate).
Qed.

(** An escaped newline cannot begin on the last character of a part
    that holds none: the separator does not begin with [n]. *)
Lemma startswith_esc_nl (c : ascii) (p t : string) :
  Py.contains esc_nl (String c p) = false ->
  Py.startswith esc_nl (String c (p ++ esc_nl ++ t)) = false
  /\ Py.startswith esc_nl (String c p) = false
  /\ Py.contains esc_nl p = false.
Proof using Type.
  intros H. cbn [Py.contains] in H. apply orb_false_elim in H.
  destruct H as [Hs Hp]. repeat split; try assumption.
  unfold esc_nl in *. cbn [Py.startswith] in *.
  destruct (Ascii.eqb (ascii_of_nat 92) c); [|reflexivity].
  cbn [andb] in *. destruct p as [|d p]; [reflexivity|].
  cbn [append]. exact Hs.
Qed.

Lemma split_esc_part (p rest : string) :
  Py.contains esc_nl p = false ->
  Py.split_from esc_nl 0 (p ++ esc_nl ++ rest) =
  p :: Py.split_from esc_nl 0 rest.
Proof using Type.
  induction p as [|c p IH]; intros H.
  - destruct rest; reflexivity.
  - destruct (startswith_esc_nl c p rest H) as [Hs [_ Hp]].
    cbn [append Py.split_from]. cbn [append] in Hs. rewrite Hs.
    now rewrite (IH Hp).
Qed.

Lemma split_esc_last (p : string) :
  Py.contains esc_nl p = false -> Py.split_from esc_nl 0 p = [p].
Proof using Type.
  induction p as [|c p IH]; intros H.
  - reflexivity.
  - destruct (startswith_esc_nl c p EmptyString H) as [_ [Hs Hp]].
    cbn [Py.split_from]. rewrite Hs. now rewrite (IH Hp).
Qed.

Lemma split_join_esc (rows : list string) :
  rows <> [] ->
  Forall (fun r => Py.contains esc_nl r = false) rows ->
  Py.split esc_nl (Py.join esc_nl rows) = rows.
Proof using Type.
  unfold Py.split.
  induction rows as [|r rest IH]; [congruence|]. intros _ H.
  inversion H as [|? ? Hr Hrest]; subst.
  destruct rest as [|r' rest'].
  - cbn [Py.join]. now apply split_esc_last.
  - cbn [Py.join] in *. rewrite (split_esc_part _ _ Hr).
    now rewrite IH by (assumption || discriminate).
Qed.

Lemma contains_esc_comma (a b : string) :
  Py.contains esc_nl a = false ->
  Py.contains esc_nl b = false ->
  Py.contains esc_nl (a ++ "," ++ b) = false.
Proof using Type.
  induction a as [|c a IH]; intros Ha Hb.
  - cbn [append Py.contains]. rewrite Hb. reflexivity.
  - cbn [Py.contains] in Ha. apply orb_false_elim in Ha.
    destruct Ha as [Hs Ha].
    pose proof (IH Ha Hb) as IH'.
    cbn [append Py.contains] in *. rewrite IH', orb_false_r.
    unfold esc_nl in *. cbn [Py.startswith] in *.
    destruct (Ascii.eqb (ascii_of_nat 92) c); [|reflexivity].
    cbn [andb] in *. destruct a as [|d a]; [reflexivity | exact Hs].
Qed.

Lemma contains_esc_join (fields : list string) :
  Forall (fun f => Py.contains esc_nl f = false) fields ->
  Py.contains esc_nl (Py.join "," fields) = false.
Proof using Type.
  induction 1 as [|f rest Hf Hrest IH].
  - reflexivity.
  - destruct rest as [|f' rest']; [exact Hf|].
    cbn [Py.join] in *. now apply contains_esc_comma.
Qed.

Lemma indexed_rows_tail (idx : nat -> string) (rows : list (list string)) :
  forall k, map Py.tail1 (indexed_rows idx k rows) = rows.
Proof using Type.
  induction rows as [|row rest IH]; intros k; simpl; [reflexivity|].
  now rewrite IH.
Qed.

Lemma indexed_rows_plain (idx : nat -> string) (rows : list (list string)) :
  (forall k, plain (idx k)) ->
  Forall (Forall plain) rows ->
  forall k, Forall (fun row => row <> [] /\ Forall plain row)
                   (indexed_rows idx k rows).
Proof using Type.
  intros Hidx H. induction H as [|row rest Hrow _ IH]; intros k; simpl.
  - constructor.
  - constructor; [|apply IH]. split; [discriminate|]. now constructor.
Qed.

Lemma split_rows (irows : list (list string)) :
  Forall (fun row => row <> [] /\ Forall plain row) irows ->
  map (Py.split ",") (map (Py.join ",") irows) = irows
  /\ Forall (fun r => Py.contains esc_nl r = false) (map (Py.join ",") irows).
Proof using Type.
  induction 1 as [|row rest [Hne Hrow] _ [IH1 IH2]]; simpl.
  - split; [reflexivity | constructor].
  - split.
    + rewrite IH1, split_join_comma; [reflexivity | assumption |].
      eapply Forall_impl; [|exact Hrow]. now intros f [Hf _].
    + constructor; [|assumption]. apply contains_esc_join.
      eapply Forall_impl; [|exact Hrow]. now intros f [_ Hf].
Qed.

Lemma pad_row_full (k : nat) (row : list string) :
  length row = k -> pad_row k row = map Some row.
Proof using Type.
  intros <-. unfold pad_row. rewrite Nat.sub_diag. apply app_nil_r.
Qed.

Lemma max_width_rect (k : nat) (rows : list (list string)) :
  rows <> [] ->
  Forall (fun row => length row = k) rows ->
  max_width rows = k.
Proof using Type.
  intros Hne H. induction H as [|row rest Hrow Hrest IH]; [congruence|].
  simpl. destruct rest as [|row' rest'].
  - simpl. lia.
  - rewrite IH by discriminate. lia.
Qed.

Lemma DataFrame_rect (header : list string) (rows : list (list string)) :
  Forall (fun row => length row = length header) rows ->
  DataFrame rows header = Ok (mkFrame header (map (map Some) rows)).
Proof using Type.
  intros H. unfold DataFrame. destruct rows as [|row rest]; [reflexivity|].
  rewrite (max_width_rect (length header)) by (assumption || discriminate).
  rewrite Nat.eqb_refl. do 2 f_equal.
  apply map_ext_in. intros r Hr. apply pad_row_full.
  rewrite Forall_forall in H. now apply H.
Qed.

(** C7 (amended).  For a table whose rows are as wide as its header and
    whose fields and index fields hold neither a comma nor the escaped
    newline, and for a line that holds the payload of the table behind
    one character and before two more, whatever these three characters
    are, decoding the line yields the frame with the same header and the
    same rows. *)
Theorem decode_encode_payload
        (c : ascii) (t : string)
        (idx : nat -> string) (header : list string)
        (rows : list (list string)) :
  String.length t = 2%nat ->
  (forall k, plain (idx k)) ->
  Forall plain header ->
  Forall (Forall plain) rows ->
  Forall (fun row => length row = length header) rows ->
  decode_payload (framed c t (payload_text idx header rows)) =
  Ok (mkFrame header (map (map Some) rows)).
Proof using Type.
  intros Ht Hidx Hh Hrows Hrect.
  pose proof (indexed_rows_plain idx (header :: rows) Hidx
                (Forall_cons _ Hh Hrows) 0%nat) as Hplain.
  destruct (split_rows _ Hplain) as [Hsplit Hesc].
  unfold decode_payload, payload_text.
  rewrite terminated_join by (simpl; discriminate).
  rewrite (slice_framed c t _ Ht).
  unfold payload_frame, payload_rows.
  rewrite split_join_esc by (assumption || (simpl; discriminate)).
  rewrite Hsplit, indexed_rows_tail.
  cbn [index nth_error bind Py.tail1 tl].
  now apply DataFrame_rect.
Qed.

(** C7, as stated, fails.  The payload of the table with the header a, b
    and the rows 1, 2 and 3, 4, taken as the line to decode without
    anything around it, loses the index field of the header and the last
    cell to the slice [[1:-4]]: the decoded frame holds a missing cell
    where the table has 4; with the rows only separated by the escaped
    newline the whole last row is lost.  And a header field that holds
    a comma comes back as two columns, however the payload is framed. *)
Lemma decode_encode_unframed :
  decode_payload
    (payload_text (fun k => Py.str (Z.of_nat k)) ["a"; "b"]
                  [["1"; "2"]; ["3"; "4"]]) =
  Ok (mkFrame ["a"; "b"] [[Some "1"; Some "2"]; [Some "3"; None]])
  /\ mkFrame ["a"; "b"] [[Some "1"; Some "2"]; [Some "3"; None]] <>
     mkFrame ["a"; "b"] (map (map Some) [["1"; "2"]; ["3"; "4"]])
  /\ decode_payload
       (Py.join esc_nl
          (map (Py.join ",")
               (indexed_rows (fun k => Py.str (Z.of_nat k)) 0
                             [["a"; "b"]; ["1"; "2"]; ["3"; "4"]]))) =
     Ok (mkFrame ["a"; "b"] [[Some "1"; Some "2"]; [None; None]])
  /\ decode_payload
       (encode_payload (fun k => Py.str (Z.of_nat k)) ["a,b"] []) =
     Ok (mkFrame ["a"; "b"] [])
  /\ mkFrame ["a"; "b"] [] <> mkFrame ["a,b"] [].
Proof using Type.
  split; [reflexivity|]. split; [discriminate|]. split; [reflexivity|].
  split; [reflexivity | discriminate].
Qed.

(** ** More on [generate] *)

Lemma new_run_fresh_es (md cfg : string) (c e : Z) :
  fresh (EndpointScaling.new_run md cfg c e).
Proof using Type.
  unfold fresh, no_metrics. cbn. repeat split. discriminate.
Qed.

Lemma new_run_fresh_dp (path cfg md : string) (c e : Z) :
  fresh (Deployments.new_run path cfg md c e).
Proof using Type.
  unfold fresh, no_metrics. cbn. repeat split. discriminate.
Qed.

Lemma generate_zip_eq (path : string) (cs : list string) :
  forall (ms : list string) (ks es : list Z) (rs : list run),
  exists new,
    Deployments.generate_zip path cs ms ks es rs = rs ++ new
    /\ length new =
       Nat.min (Nat.min (length cs) (length ms))
               (Nat.min (length ks) (length es))
    /\ Forall fresh new.
Proof using Type.
  induction cs as [|cfg cs IH]; intros ms ks es rs.
  - exists []. cbn. rewrite app_nil_r. repeat split. constructor.
  - destruct ms as [|md ms], ks as [|c ks], es as [|e es];
      try (exists []; cbn [Deployments.generate_zip]; rewrite app_nil_r;
           split; [reflexivity|]; split; [cbn [length]; lia | constructor]).
    cbn [Deployments.generate_zip].
    destruct (IH ms ks es (rs ++ [Deployments.new_run path cfg md c e]))
      as [new [E [L F]]].
    exists (Deployments.new_run path cfg md c e :: new).
    rewrite E, <- app_assoc. cbn [app length]. repeat split.
    + rewrite L. lia.
    + constructor; [apply new_run_fresh_dp | exact F].
Qed.

(** X1.  [Deployments.generate] never raises and keeps the runs that are
    there; it appends as many fresh runs as the shortest of the four
    lists [configs], [modes], [cores], [endpoints] has entries. *)
Theorem deployments_generate_shortest_list
        (g : Deployments.grid) (rs : list run) :
  exists new,
    Deployments.generate g rs = (rs ++ new, None)
    /\ length new =
       Nat.min (Nat.min (length (Deployments.configs g))
                        (length (Deployments.modes g)))
               (Nat.min (length (Deployments.cores_of g))
                        (length (Deployments.endpoint_counts g)))
    /\ Forall fresh new.
Proof using Type.
  unfold Deployments.generate.
  destruct (generate_zip_eq (Deployments.config_path g) (Deployments.configs g)
              (Deployments.modes g) (Deployments.cores_of g)
              (Deployments.endpoint_counts g) rs) as [new [E [L F]]].
  exists new. rewrite E. repeat split; assumption.
Qed.

Lemma split_dot_head (s : string) :
  exists stem parts,
    Py.split_from "." 0 s = stem :: parts
    /\ Py.contains "." stem = false
    /\ (s = stem \/ exists rest, s = (stem ++ "." ++ rest)%string).
Proof using Type.
  induction s as [|c s IH].
  - exists EmptyString, []. repeat split. now left.
  - cbn [Py.split_from Py.startswith].
    destruct (Ascii.eqb "." c) eqn:E; cbn [andb].
    + apply Ascii.eqb_eq in E. subst c.
      exists EmptyString. eexists. repeat split. right. now exists s.
    + destruct IH as [stem [parts [Hs [Hc Hd]]]]. rewrite Hs.
      exists (String c stem), parts. repeat split.
      * cbn [Py.contains Py.startswith]. now rewrite E, Hc.
      * destruct Hd as [->|[rest ->]]; [now left|].
        right. now exists rest.
Qed.

(** X2.  The [config] key of a deployments run is the name of the
    configuration file up to its first dot: it holds no dot, and the file
    name is this stem, alone or followed by a dot and the rest. *)
Theorem deployments_config_is_stem (path cfg md : string) (c e : Z) :
  exists stem,
    config (Deployments.new_run path cfg md c e) = Some stem
    /\ Py.contains "." stem = false
    /\ (cfg = stem \/ exists rest, cfg = (stem ++ "." ++ rest)%string).
Proof using Type.
  destruct (split_dot_head cfg) as [stem [parts [Hs [Hc Hd]]]].
  exists stem. cbn [Deployments.new_run config]. unfold Py.split.
  rewrite Hs. repeat split; assumption.
Qed.

Lemma generate_endpoints_new (md cfg : string) (c : Z) (es : list Z)
      (rs : list run) :
  exists new,
    EndpointScaling.generate_endpoints md cfg c es rs = rs ++ new
    /\ Forall fresh new
    /\ length new =
       if String.eqb md "endpoint"
       then length (filter (fun e => e <=? 1) es)
       else length es.
Proof using Type.
  rewrite generate_endpoints_eq. eexists. split; [reflexivity|]. split.
  - apply Forall_forall. intros r Hr. apply in_map_iff in Hr.
    destruct Hr as [e [<- _]]. apply new_run_fresh_es.
  - rewrite length_map. destruct (String.eqb md "endpoint"); cbn [andb negb].
    + f_equal. apply filter_ext. intros e. now rewrite Z.leb_antisym.
    + f_equal. clear. induction es as [|e es IH]; cbn; [reflexivity|].
      now rewrite IH.
Qed.

Lemma generate_modes_three (g : EndpointScaling.grid) (ms : list string) :
  (3 <= length (EndpointScaling.cores_of g))%nat ->
  forall rs,
  exists new,
    EndpointScaling.generate_modes g ms rs = (rs ++ new, None)
    /\ Forall fresh new
    /\ length new = grid_size ms (EndpointScaling.endpoint_counts g).
Proof using Type.
  intros Hc.
  destruct (EndpointScaling.cores_of g) as [|c0 [|c1 [|c2 cs]]] eqn:Ec;
    try (simpl in Hc; lia).
  induction ms as [|md ms IH]; intros rs.
  - exists []. cbn. rewrite app_nil_r. repeat split. constructor.
  - cbn [EndpointScaling.generate_modes]. rewrite Ec.
    assert (Hsel : exists cfg c,
      (let sel :=
         if String.eqb md "cloud" then ("cloud_endpoint", index (c0 :: c1 :: c2 :: cs) 0)
         else if String.eqb md "edge" then ("edge_endpoint", index (c0 :: c1 :: c2 :: cs) 1)
         else ("endpoint", index (c0 :: c1 :: c2 :: cs) 2) in
       (fst sel, snd sel)) = (cfg, Ok c)).
    { destruct (String.eqb md "cloud"); [|destruct (String.eqb md "edge")];
        cbn; eauto. }
    destruct Hsel as [cfg [c Hsel]]. cbv zeta in Hsel.
    injection Hsel as Hf Hs. cbv zeta. rewrite Hs, Hf.
    destruct (generate_endpoints_new md cfg c
                (EndpointScaling.endpoint_counts g) rs) as [n1 [E1 [F1 L1]]].
    rewrite E1.
    destruct (IH (rs ++ n1)) as [n2 [E2 [F2 L2]]].
    exists (n1 ++ n2). rewrite E2, <- app_assoc. repeat split.
    + apply Forall_app. now split.
    + rewrite length_app, L1, L2. unfold grid_size. cbn [filter].
      destruct (String.eqb md "endpoint"); cbn [negb length]; lia.
Qed.

(** X3.  With at least three core counts, [EndpointScaling.generate]
    never raises and keeps the runs that are there; the runs it appends
    are fresh, and there are as many of them as the grid asks for: every
    endpoint count for each mode other than [endpoint], and the counts up
    to 1 for each [endpoint] mode. *)
Theorem endpoint_scaling_generate_size
        (g : EndpointScaling.grid) (rs : list run) :
  (3 <= length (EndpointScaling.cores_of g))%nat ->
  exists new,
    EndpointScaling.generate g rs = (rs ++ new, None)
    /\ Forall fresh new
    /\ length new =
       grid_size (EndpointScaling.modes g) (EndpointScaling.endpoint_counts g).
Proof using Type.
  intros Hc. now apply generate_modes_three.
Qed.

(** X4.  Without any core count, [EndpointScaling.generate] raises
    [IndexError] at the first mode and appends nothing. *)
Theorem endpoint_scaling_generate_no_cores
        (g : EndpointScaling.grid) (rs : list run) :
  EndpointScaling.cores_of g = [] ->
  EndpointScaling.modes g <> [] ->
  EndpointScaling.generate g rs = (rs, Some IndexError).
Proof using Type.
  intros Hc Hm. unfold EndpointScaling.generate.
  destruct (EndpointScaling.modes g) as [|md ms]; [congruence|].
  cbn [EndpointScaling.generate_modes]. rewrite Hc.
  destruct (String.eqb md "cloud"); [|destruct (String.eqb md "edge")];
    reflexivity.
Qed.

(** ** More on [run_commands] *)

Lemma Forall2_refl_eq {A} (R : A -> A -> Prop) (xs : list A) :
  (forall x, R x x) -> Forall2 R xs xs.
Proof using Type.
  intros H. induction xs; constructor; auto.
Qed.

Lemma Forall2_update {A} (R : A -> A -> Prop) (f : A -> A) (xs : list A) :
  (forall x, R x x) ->
  forall n,
    (forall x, nth_error xs n = Some x -> R x (f x)) ->
    Forall2 R xs (update xs n f).
Proof using Type.
  intros Hr. induction xs as [|x xs IH]; intros [|n] H; cbn.
  - constructor.
  - constructor.
  - constructor; [apply H; reflexivity | now apply Forall2_refl_eq].
  - constructor; [apply Hr | apply IH; exact H].
Qed.

Lemma Forall2_trans_rel {A} (R : A -> A -> Prop) :
  (forall x y z, R x y -> R y z -> R x z) ->
  forall xs ys zs, Forall2 R xs ys -> Forall2 R ys zs -> Forall2 R xs zs.
Proof using Type.
  intros Ht xs ys zs H. revert zs.
  induction H as [|x y xs ys Hxy _ IH]; intros zs Hz; inversion Hz; subst.
  - constructor.
  - constructor; eauto.
Qed.

Lemma executed_from_refl (r : run) : executed_from r r.
Proof using Type. now left. Qed.

Lemma executed_from_trans (r1 r2 r3 : run) :
  executed_from r1 r2 -> executed_from r2 r3 -> executed_from r1 r3.
Proof using Type.
  intros [->|(Ho & Hc & c & ->)] H; [exact H|].
  destruct H as [->|(Ho' & _)].
  - right. repeat split; try assumption. now exists c.
  - cbn in Ho'. discriminate.
Qed.

Lemma run_command_executed_from (idx : nat) (st : state) :
  Forall2 executed_from (runs st) (runs (fst (run_command idx st))).
Proof using Type.
  assert (Hsame : Forall2 executed_from (runs st) (runs st))
    by apply Forall2_refl_eq, executed_from_refl.
  unfold run_command.
  destruct (nth_error (runs st) idx) as [r|] eqn:Hr; [|exact Hsame].
  destruct (command r) as [|c0 cs] eqn:Hcmd; [exact Hsame|].
  destruct (output r) as [o|] eqn:Ho; [exact Hsame|].
  destruct (execute (c0 :: cs) (env st)) as [[[out err]|e] w']; [|exact Hsame].
  destruct err; [|exact Hsame].
  destruct (index out 0) as [line|e]; cbn [bind]; [|exact Hsame].
  destruct (Py.last1 _) as [logpath|e]; cbn [bind]; [|exact Hsame].
  unfold open_read.
  destruct (read_file logpath _) as [content|e]; [|exact Hsame].
  destruct (assign_output idx content Execution _) as [st3|e] eqn:Ha;
    [|exact Hsame].
  apply assign_output_inv in Ha. destruct Ha as [-> _].
  cbn [fst runs record]. apply Forall2_update; [apply executed_from_refl|].
  intros x Hx. rewrite Hr in Hx. injection Hx as <-.
  right. repeat split; try assumption.
  - rewrite Hcmd. discriminate.
  - now exists content.
Qed.

Lemma run_loop_executed_from (idxs : list nat) :
  forall st, Forall2 executed_from (runs st) (runs (fst (run_loop idxs st))).
Proof using Type.
  induction idxs as [|idx rest IH]; intros st; cbn [run_loop].
  - apply Forall2_refl_eq, executed_from_refl.
  - pose proof (run_command_executed_from idx st) as H1.
    destruct (run_command idx st) as [st' [e|]]; cbn [fst] in *.
    + exact H1.
    + eapply Forall2_trans_rel; [exact executed_from_trans | exact H1 | apply IH].
Qed.

(** X5.  [run_commands] keeps the number and the order of the runs, and
    changes a run only by giving an output to one that had a command and
    no output: a run that has an output, from the resume or otherwise,
    comes out as it went in. *)
Theorem run_commands_only_fills_pending (st : state) :
  Forall2 executed_from (runs st) (runs (fst (run_commands st))).
Proof using Type.
  apply run_loop_executed_from.
Qed.

Lemma settled_executed_from (r r' : run) :
  executed_from r r' -> settled r -> settled r'.
Proof using Type.
  intros [->|(_ & _ & c & ->)] H; [exact H|].
  right. unfold filled. cbn. discriminate.
Qed.

Lemma Forall2_nth_error {A} (R : A -> A -> Prop) (xs ys : list A) :
  Forall2 R xs ys ->
  forall n y, nth_error ys n = Some y ->
              exists x, nth_error xs n = Some x /\ R x y.
Proof using Type.
  induction 1 as [|x y xs ys Hxy _ IH]; intros [|n] z Hz; cbn in *;
    try discriminate.
  - injection Hz as <-. now exists x.
  - now apply IH.
Qed.

Lemma run_command_settles (idx : nat) (st st' : state) :
  run_command idx st = (st', None) ->
  forall r, nth_error (runs st') idx = Some r -> settled r.
Proof using Type.
  unfold run_command.
  destruct (nth_error (runs st) idx) as [r0|] eqn:Hr.
  2:{ intros H. injection H as <-. intros r H. congruence. }
  destruct (command r0) as [|c0 cs] eqn:Hcmd.
  { intros H. injection H as <-. intros r H.
    rewrite Hr in H. injection H as <-. now left. }
  destruct (output r0) as [o|] eqn:Ho.
  { intros H. injection H as <-. intros r H.
    rewrite Hr in H. injection H as <-. right. unfold filled. congruence. }
  destruct (execute (c0 :: cs) (env st)) as [[[out err]|e] w']; [|discriminate].
  destruct err; [|discriminate].
  destruct (index out 0) as [line|e]; cbn [bind]; [|discriminate].
  destruct (Py.last1 _) as [logpath|e]; cbn [bind]; [|discriminate].
  unfold open_read.
  destruct (read_file logpath _) as [content|e]; [|discriminate].
  destruct (assign_output idx content Execution _) as [st3|e] eqn:Ha;
    [|discriminate].
  intros H. injection H as <-.
  apply assign_output_inv in Ha. destruct Ha as [-> _].
  cbn [runs record]. intros r H. rewrite update_nth_error, Nat.eqb_refl in H.
  rewrite Hr in H. cbn in H. injection H as <-.
  right. unfold filled. cbn. discriminate.
Qed.

Lemma run_loop_settles (idxs : list nat) :
  forall st st',
    run_loop idxs st = (st', None) ->
    forall idx r, In idx idxs -> nth_error (runs st') idx = Some r ->
                  settled r.
Proof using Type.
  induction idxs as [|i rest IH]; intros st st' H idx r Hin Hr.
  - destruct Hin.
  - cbn [run_loop] in H.
    destruct (run_command i st) as [st1 [e|]] eqn:H1; [discriminate|].
    destruct Hin as [<-|Hin]; [|now apply (IH st1 st' H idx r)].
    pose proof (run_loop_executed_from rest st1) as H2.
    rewrite H in H2. cbn [fst] in H2.
    destruct (Forall2_nth_error _ _ _ H2 i r Hr) as [r1 [Hr1 Hrel]].
    apply (settled_executed_from r1 r Hrel).
    exact (run_command_settles i st st1 H1 r1 Hr1).
Qed.

(** X6.  When [run_commands] returns without an exception, every run
    that has a command has an output. *)
Theorem run_commands_success_settles (st st' : state) :
  run_commands st = (st', None) ->
  Forall settled (runs st').
Proof using Type.
  intros H. apply Forall_forall. intros r Hr.
  apply In_nth_error in Hr. destruct Hr as [idx Hr].
  pose proof (run_loop_executed_from (seq 0 (length (runs st))) st) as H2.
  unfold run_commands in H. rewrite H in H2. cbn [fst] in H2.
  apply (run_loop_settles _ st st' H idx r); [|exact Hr].
  apply in_seq. split; [lia|]. cbn.
  apply Forall2_length in H2. rewrite H2.
  apply nth_error_Some. congruence.
Qed.

(** X7.  A process that prints nothing on either stream is not a
    success: reading the first line of its output raises [IndexError],
    and the run stays without output. *)
Theorem run_commands_silent_process
        (st : state) (r : run) (rest : list run) (w' : world) :
  runs st = r :: rest ->
  output r = None ->
  command r <> [] ->
  execute (command r) (env st) = (Ok ([], []), w') ->
  run_commands st =
  (mkState (r :: rest) w' (trace st ++ [EvExecute (command r) [] []]),
   Some IndexError).
Proof using Type.
  intros Hruns Ho Hc He. unfold run_commands. rewrite Hruns.
  cbn [length seq run_loop]. unfold run_command. rewrite Hruns.
  cbn [nth_error]. rewrite Ho.
  destruct (command r) as [|c0 cs]; [congruence|].
  rewrite He. cbn. reflexivity.
Qed.

(** ** More on [parse_output] *)

Lemma es_metrics_descriptor (r : run) (wproc elat : NpFloat.column) :
  descriptor (fst (es_metrics r wproc elat)) = descriptor r
  /\ output (fst (es_metrics r wproc elat)) = output r.
Proof using Type.
  unfold es_metrics.
  destruct (usage_of _ _ _); [|now split].
  destruct (NpFloat.to_int _); now split.
Qed.

Lemma dp_metrics_descriptor (r : run) (wproc elat epre : NpFloat.column) :
  descriptor (fst (dp_metrics r wproc elat epre)) = descriptor r
  /\ output (fst (dp_metrics r wproc elat epre)) = output r.
Proof using Type.
  unfold dp_metrics.
  destruct (usage_of _ _ _); [|now split].
  destruct (NpFloat.to_int _); [|now split].
  destruct (latency_breakdown_of _ _ _); now split.
Qed.

Lemma es_parse_run_descriptor (i : option nat) (r : run) :
  descriptor (fst (fst (es_parse_run i r))) = descriptor r
  /\ output (fst (fst (es_parse_run i r))) = output r.
Proof using Type.
  unfold es_parse_run.
  destruct (output r) as [out|] eqn:O; [|now split].
  destruct (es_tables r out _) as [[wproc elat]|e]; [|now split].
  pose proof (es_metrics_descriptor r wproc elat) as H.
  destruct (es_metrics r wproc elat) as [r' e']. cbn [fst] in *.
  now rewrite <- O.
Qed.

Lemma dp_parse_run_descriptor (i : option nat) (r : run) :
  descriptor (fst (fst (dp_parse_run i r))) = descriptor r
  /\ output (fst (fst (dp_parse_run i r))) = output r.
Proof using Type.
  unfold dp_parse_run.
  destruct (output r) as [out|] eqn:O; [|now split].
  destruct (dp_tables r out _) as [[[wproc elat] epre]|e]; [|now split].
  pose proof (dp_metrics_descriptor r wproc elat epre) as H.
  destruct (dp_metrics r wproc elat epre) as [r' e']. cbn [fst] in *.
  now rewrite <- O.
Qed.

Lemma es_parse_run_success (i : option nat) (r r' : run) (i' : option nat) :
  es_parse_run i r = (r', i', None) -> has_metrics EndpointScalingExp r'.
Proof using Type.
  unfold es_parse_run.
  destruct (output r) as [out|]; [|discriminate].
  destruct (es_tables r out _) as [[wproc elat]|e]; [|discriminate].
  unfold es_metrics.
  destruct (usage_of _ _ _); [|discriminate].
  destruct (NpFloat.to_int _); [|discriminate].
  intros H. injection H as <- _. unfold has_metrics. cbn.
  repeat split; discriminate.
Qed.

Lemma dp_parse_run_success (i : option nat) (r r' : run) (i' : option nat) :
  dp_parse_run i r = (r', i', None) -> has_metrics DeploymentsExp r'.
Proof using Type.
  unfold dp_parse_run.
  destruct (output r) as [out|]; [|discriminate].
  destruct (dp_tables r out _) as [[[wproc elat] epre]|e]; [|discriminate].
  unfold dp_metrics.
  destruct (usage_of _ _ _); [|discriminate].
  destruct (NpFloat.to_int _); [|discriminate].
  destruct (latency_breakdown_of _ _ _); [|discriminate].
  intros H. injection H as <- _. unfold has_metrics. cbn.
  repeat split; discriminate.
Qed.

Lemma parse_loop_keeps
      (step : option nat -> run -> run * option nat * option exn) :
  (forall i r, descriptor (fst (fst (step i r))) = descriptor r
               /\ output (fst (fst (step i r))) = output r) ->
  forall rs i,
    map descriptor (fst (parse_loop step i rs)) = map descriptor rs
    /\ map output (fst (parse_loop step i rs)) = map output rs.
Proof using Type.
  intros Hs rs. induction rs as [|r rs IH]; intros i; cbn [parse_loop].
  - now split.
  - destruct (Hs i r) as [Hd Ho].
    destruct (step i r) as [[r' i'] [e|]]; cbn [fst] in *.
    + cbn. now rewrite Hd, Ho.
    + destruct (IH i') as [IHd IHo].
      destruct (parse_loop step i' rs) as [rest' e']. cbn [fst] in *.
      cbn. now rewrite Hd, Ho, IHd, IHo.
Qed.

Lemma parse_loop_success
      (step : option nat -> run -> run * option nat * option exn)
      (P : run -> Prop) :
  (forall i r r' i', step i r = (r', i', None) -> P r') ->
  forall rs i rs',
    parse_loop step i rs = (rs', None) -> Forall P rs'.
Proof using Type.
  intros Hs rs. induction rs as [|r rs IH]; intros i rs'; cbn [parse_loop].
  - intros H. injection H as <-. constructor.
  - destruct (step i r) as [[r' i'] [e|]] eqn:S; [discriminate|].
    destruct (parse_loop step i' rs) as [rest' e'] eqn:L.
    intros H. injection H as <- ->.
    constructor; [exact (Hs _ _ _ _ S) | exact (IH _ _ L)].
Qed.

Lemma parse_loop_failure
      (step : option nat -> run -> run * option nat * option exn)
      (P : run -> Prop) :
  (forall i r r' i', step i r = (r', i', None) -> P r') ->
  forall rs i rs' e,
    parse_loop step i rs = (rs', Some e) ->
    exists pre r post pre' j,
      rs = pre ++ r :: post
      /\ rs' = pre' ++ fst (fst (step j r)) :: post
      /\ snd (step j r) = Some e
      /\ length pre' = length pre
      /\ Forall P pre'.
Proof using Type.
  intros Hs rs. induction rs as [|r rs IH]; intros i rs' e; cbn [parse_loop].
  - discriminate.
  - destruct (step i r) as [[r' i'] [e0|]] eqn:S.
    + intros H. injection H as <- <-.
      exists [], r, rs, [], i. rewrite S. cbn. repeat split. constructor.
    + destruct (parse_loop step i' rs) as [rest' e'] eqn:L.
      intros H. injection H as <- ->.
      destruct (IH _ _ _ L) as (pre & r0 & post & pre' & j & E1 & E2 & E3 & E4 & E5).
      exists (r :: pre), r0, post, (r' :: pre'), j. subst rs rest'.
      cbn. repeat split; try assumption; try lia.
      constructor; [exact (Hs _ _ _ _ S) | exact E5].
Qed.

(** X8.  When [parse_output] returns without an exception, every run
    holds a usage and a latency and, in the deployments experiment, a
    latency breakdown. *)
Theorem parse_output_success_has_metrics
        (x : experiment) (rs rs' : list run) :
  parse_output x rs = (rs', None) ->
  Forall (has_metrics x) rs'.
Proof using Type.
  destruct x; unfold parse_output; apply parse_loop_success.
  - apply es_parse_run_success.
  - apply dp_parse_run_success.
Qed.

(** X9.  When [parse_output] raises, it has stopped at one run: the runs
    before it hold their metrics, the runs after it are untouched, and
    the failing run keeps its output and its descriptor. *)
Theorem parse_output_failure_position
        (x : experiment) (rs rs' : list run) (e : exn) :
  parse_output x rs = (rs', Some e) ->
  exists pre r post pre' r',
    rs = pre ++ r :: post
    /\ rs' = pre' ++ r' :: post
    /\ length pre' = length pre
    /\ Forall (has_metrics x) pre'
    /\ descriptor r' = descriptor r
    /\ output r' = output r.
Proof using Type.
  destruct x; unfold parse_output; intros H.
  - destruct (parse_loop_failure es_parse_run (has_metrics EndpointScalingExp)
                es_parse_run_success _ _ _ _ H)
      as (pre & r & post & pre' & j & E1 & E2 & _ & E4 & E5).
    destruct (es_parse_run_descriptor j r) as [Hd Ho].
    exists pre, r, post, pre', (fst (fst (es_parse_run j r))).
    repeat split; assumption.
  - destruct (parse_loop_failure dp_parse_run (has_metrics DeploymentsExp)
                dp_parse_run_success _ _ _ _ H)
      as (pre & r & post & pre' & j & E1 & E2 & _ & E4 & E5).
    destruct (dp_parse_run_descriptor j r) as [Hd Ho].
    exists pre, r, post, pre', (fst (fst (dp_parse_run j r))).
    repeat split; assumption.
Qed.

Lemma parse_output_keeps (x : experiment) (rs : list run) :
  map descriptor (fst (parse_output x rs)) = map descriptor rs
  /\ map output (fst (parse_output x rs)) = map output rs.
Proof using Type.
  destruct x; unfold parse_output; apply parse_loop_keeps.
  - apply es_parse_run_descriptor.
  - apply dp_parse_run_descriptor.
Qed.

(** X10.  [parse_output] reads the outputs and never writes them: with
    or without an exception, the runs come out in the same number and
    order, each with the output and the descriptor it went in with. *)
Theorem parse_output_keeps_outputs (x : experiment) (rs : list run) :
  map descriptor (fst (parse_output x rs)) = map descriptor rs
  /\ map output (fst (parse_output x rs)) = map output rs.
Proof using Type.
  apply parse_output_keeps.
Qed.

Lemma enumerate_marker_stops
      (pre : list string) (line : string) (post : list string) :
  no_marker pre ->
  Py.contains marker line = true ->
  forall i k,
    enumerate_marker i k (pre ++ line :: post) = Some (k + length pre)%nat.
Proof using Type.
  intros Hpre Hline.
  induction Hpre as [|l pre Hl _ IH]; intros i k; cbn.
  - rewrite Hline. f_equal. lia.
  - rewrite Hl, IH. f_equal. lia.
Qed.

(** X11.  The marker loop stops at the first line that contains the
    marker, whatever [i] held before: the payload lines are those that
    follow the first marker line. *)
Theorem enumerate_marker_first
        (i : option nat) (k : nat) (pre : list string) (line : string)
        (post : list string) :
  no_marker pre ->
  Py.contains marker line = true ->
  enumerate_marker i k (pre ++ line :: post) = Some (k + length pre)%nat.
Proof using Type.
  intros Hpre Hline. now apply enumerate_marker_stops.
Qed.

(** ** The runs through the stages of [main] *)

Lemma map_descriptor_update (content : list string) (rs : list run) :
  forall n,
    map descriptor (update rs n (fun r => set_output r content)) =
    map descriptor rs.
Proof using Type.
  induction rs as [|r rs IH]; intros [|n]; cbn; try reflexivity.
  now rewrite IH.
Qed.

Lemma resume_loop_descriptor (resume : datetime) (logs : list string) :
  forall (exp_i : nat) (st : state),
    map descriptor (runs (fst (resume_loop resume logs exp_i st))) =
    map descriptor (runs st).
Proof using Type.
  induction logs as [|log rest IH]; intros exp_i st; cbn [resume_loop].
  - reflexivity.
  - destruct (log_datetime log) as [dt|e]; [|reflexivity].
    destruct (dt_ge dt resume); [|apply IH].
    unfold open_read.
    destruct (read_file (log_path log) (env st)) as [content|e]; [|reflexivity].
    destruct (assign_output exp_i content Resume _) as [st2|e] eqn:Ha;
      [|reflexivity].
    apply assign_output_inv in Ha. destruct Ha as [-> _].
    cbn [runs record].
    destruct (_ =? _)%nat; cbn [fst runs].
    + apply map_descriptor_update.
    + rewrite IH. cbn [runs]. apply map_descriptor_update.
Qed.

Lemma check_resume_descriptor (resume : option datetime) (st : state) :
  map descriptor (runs (fst (check_resume resume st))) =
  map descriptor (runs st).
Proof using Type.
  unfold check_resume.
  destruct resume as [d|]; [|reflexivity].
  destruct (listdir (env st)); [|reflexivity].
  apply resume_loop_descriptor.
Qed.

Lemma executed_from_descriptor (rs rs' : list run) :
  Forall2 executed_from rs rs' -> map descriptor rs' = map descriptor rs.
Proof using Type.
  induction 1 as [|r r' rs rs' H _ IH]; cbn; [reflexivity|].
  rewrite IH. f_equal.
  now destruct H as [->|(_ & _ & c & ->)].
Qed.

Lemma run_commands_descriptor (st : state) :
  map descriptor (runs (fst (run_commands st))) = map descriptor (runs st).
Proof using Type.
  apply executed_from_descriptor, run_loop_executed_from.
Qed.

Lemma main_prepare (x : experiment) (resume : option datetime) (w : world) :
  main x resume w = andthen (prepare x resume w) (parse_and_report x).
Proof using Type.
  unfold main, prepare, parse_and_report, andthen.
  destruct (lift_runs (generate x) _) as [st0 [e|]]; [reflexivity|].
  destruct (check_resume resume st0) as [st1 [e|]]; [reflexivity|].
  destruct (run_commands st1) as [st2 [e|]]; reflexivity.
Qed.

Lemma prepare_descriptor (x : experiment) (resume : option datetime)
      (w : world) :
  map descriptor (runs (fst (prepare x resume w))) =
  map descriptor (fst (generate x [])).
Proof using Type.
  unfold prepare, andthen, lift_runs. cbn [runs env trace].
  destruct (generate x []) as [rs [e|]]; [reflexivity|]. cbn [fst].
  pose proof (check_resume_descriptor resume (mkState rs w [])) as H1.
  destruct (check_resume resume (mkState rs w [])) as [st1 [e|]];
    cbn [fst runs] in *; [exact H1|].
  pose proof (run_commands_descriptor st1) as H2.
  destruct (run_commands st1) as [st2 [e|]]; cbn [fst] in *; congruence.
Qed.

(** X12.  No stage of [main] adds, drops or reorders a run or touches
    what identifies it: whatever the world does, the runs [main] ends with
    have, position by position, the mode, cores, endpoints, config and
    command that [generate] gave them. *)
Theorem main_keeps_descriptors
        (x : experiment) (resume : option datetime) (w : world) :
  map descriptor (runs (fst (main x resume w))) =
  map descriptor (fst (generate x [])).
Proof using Type.
  rewrite main_prepare.
  pose proof (prepare_descriptor x resume w) as H.
  unfold andthen, parse_and_report, andthen, lift_runs.
  destruct (prepare x resume w) as [st [e|]]; cbn [fst] in *; [exact H|].
  destruct (parse_output_keeps x (runs st)) as [Hd _].
  destruct (parse_output x (runs st)) as [rs' [e|]]; cbn [fst runs record] in *;
    congruence.
Qed.

Lemma generate_fresh (x : experiment) :
  Forall fresh (fst (generate x [])) /\ snd (generate x []) = None.
Proof using Type.
  destruct x; unfold generate.
  - destruct (generate_modes_three EndpointScaling.init
                (EndpointScaling.modes EndpointScaling.init)
                (Nat.le_refl 3) []) as [new [E [F _]]].
    unfold EndpointScaling.generate. rewrite E. now split.
  - destruct (generate_zip_eq
                (Deployments.config_path Deployments.init)
                (Deployments.configs Deployments.init)
                (Deployments.modes Deployments.init)
                (Deployments.cores_of Deployments.init)
                (Deployments.endpoint_counts Deployments.init) [])
      as [new [E [_ F]]].
    unfold Deployments.generate. rewrite E. now split.
Qed.

Lemma commands_by_descriptor (rs rs' : list run) :
  map descriptor rs' = map descriptor rs ->
  Forall (fun r => command r <> []) rs ->
  Forall (fun r => command r <> []) rs'.
Proof using Type.
  revert rs'. induction rs as [|r rs IH]; intros [|r' rs'] H F;
    cbn in H; try discriminate; constructor.
  - inversion F; subst. injection H. intros. congruence.
  - injection H as _ H. inversion F; subst. now apply IH.
Qed.

(** X13.  When [main] reaches [parse_output], every run has an output:
    the runs [generate] builds all have a command, so a run the resume
    has not filled has been executed. *)
Theorem prepare_success_fills
        (x : experiment) (resume : option datetime) (w : world) (st : state) :
  prepare x resume w = (st, None) ->
  Forall filled (runs st).
Proof using Type.
  intros H.
  pose proof (prepare_descriptor x resume w) as Hd.
  rewrite H in Hd. cbn [fst] in Hd.
  destruct (generate_fresh x) as [Hf _].
  assert (Hc : Forall (fun r => command r <> []) (runs st)).
  { apply (commands_by_descriptor _ _ Hd).
    eapply Forall_impl; [|exact Hf]. now intros r (_ & _ & Hr). }
  assert (Hs : Forall settled (runs st)).
  { unfold prepare, andthen in H.
    destruct (lift_runs (generate x) _) as [st0 [e|]]; [discriminate|].
    destruct (check_resume resume st0) as [st1 [e|]]; [discriminate|].
    pose proof (run_loop_settles (seq 0 (length (runs st1))) st1 st H) as Hset.
    pose proof (run_loop_executed_from (seq 0 (length (runs st1))) st1) as H2.
    unfold run_commands in H. rewrite H in H2. cbn [fst] in H2.
    apply Forall_forall. intros r Hr.
    apply In_nth_error in Hr. destruct Hr as [idx Hr].
    apply (Hset idx r); [|exact Hr].
    apply in_seq. split; [lia|]. cbn.
    apply Forall2_length in H2. rewrite H2.
    apply nth_error_Some. congruence. }
  rewrite Forall_forall in *. intros r Hr.
  destruct (Hs r Hr) as [Hempty|Hfill]; [|exact Hfill].
  now apply Hc in Hempty.
Qed.

(** ** More on [check_resume] *)

Lemma resume_loop_without_runs
      (resume : datetime) (log : string) (content : list string)
      (logs : list string) :
  forall (rest : list string) (exp_i : nat) (st : state),
    runs st = [] ->
    Forall (fun l => exists dt, log_datetime l = Ok dt) logs ->
    filter (stamped_from resume) logs = log :: rest ->
    read_file (log_path log) (env st) = Ok content ->
    resume_loop resume logs exp_i st =
    (record (EvRead (log_path log)) st, Some IndexError).
Proof using Type.
  induction logs as [|l logs IH]; intros rest exp_i st Hruns Hparse Hf Hread.
  - discriminate.
  - inversion Hparse as [|? ? [dt Hdt] Hparse']; subst.
    cbn [filter resume_loop] in *. unfold stamped_from at 1 in Hf.
    rewrite Hdt in *.
    destruct (dt_ge dt resume).
    + injection Hf as -> _.
      unfold open_read. rewrite Hread.
      unfold assign_output, index. cbn [record runs]. rewrite Hruns.
      now destruct exp_i.
    + now apply (IH rest).
Qed.

(** X16.  With an empty list of runs, [check_resume] still opens the
    first log stamped not before the resume time and then raises
    [IndexError] on [self.runs[0]]. *)
Theorem check_resume_without_runs
        (resume : datetime) (st : state) (names : list string)
        (log : string) (rest : list string) (content : list string) :
  runs st = [] ->
  listdir (env st) = Ok names ->
  (forall l, In l names -> Py.endswith ".log" l = true ->
             exists dt, log_datetime l = Ok dt) ->
  eligible_logs resume names = log :: rest ->
  read_file (log_path log) (env st) = Ok content ->
  check_resume (Some resume) st =
  (record (EvRead (log_path log)) st, Some IndexError).
Proof using Type.
  intros Hruns Hdir Hparse He Hread.
  unfold check_resume. rewrite Hdir.
  apply (resume_loop_without_runs resume log content _ rest); try assumption.
  apply Forall_forall. intros l Hl.
  apply sorted_logs_in in Hl. destruct Hl. now apply Hparse.
Qed.

Lemma split_without_sep (sep s : string) :
  Py.contains sep s = false -> Py.split sep s = [s].
Proof using Type.
  unfold Py.split. induction s as [|c s IH]; intros H.
  - reflexivity.
  - cbn [Py.contains] in H. apply orb_false_elim in H. destruct H as [Hs Hc].
    cbn [Py.split_from]. rewrite Hs. now rewrite (IH Hc).
Qed.

(** X17.  A log whose name holds no underscore makes [check_resume]
    raise [IndexError] when it is the first log in sorted order: nothing
    is read and no run is changed. *)
Theorem check_resume_name_without_underscore
        (resume : datetime) (st : state) (names : list string)
        (log : string) (rest : list string) :
  listdir (env st) = Ok names ->
  Py.sort (filter (Py.endswith ".log") names) = log :: rest ->
  Py.contains "_" log = false ->
  check_resume (Some resume) st = (st, Some IndexError).
Proof using Type.
  intros Hdir Hsort Hlog.
  unfold check_resume. rewrite Hdir, Hsort.
  cbn [resume_loop]. unfold log_datetime.
  rewrite (split_without_sep "_" log Hlog). reflexivity.
Qed.

(** ** The path of the log in the output of a process *)

Lemma startswith_app_long (sep : string) :
  forall x y,
    (String.length sep <= String.length x)%nat ->
    Py.startswith sep (x ++ y) = Py.startswith sep x.
Proof using Type.
  induction sep as [|a sep IH]; intros x y H.
  - reflexivity.
  - destruct x as [|b x]; [cbn in H; lia|].
    cbn [append Py.startswith]. rewrite IH by (cbn in H; lia). reflexivity.
Qed.

Lemma startswith_self (sep rest : string) :
  Py.startswith sep (sep ++ rest) = true.
Proof using Type.
  induction sep as [|a sep IH]; cbn; [reflexivity|].
  now rewrite Ascii.eqb_refl, IH.
Qed.

Lemma split_from_skip (sep t : string) :
  forall p,
    Py.split_from sep (String.length t) (t ++ p) = Py.split_from sep 0 p.
Proof using Type.
  induction t as [|c t IH]; intros p; cbn.
  - now destruct p.
  - apply IH.
Qed.

Lemma split_at_first (init : string) (z : ascii) (pre rest : string) :
  Py.contains (init ++ String z EmptyString) (pre ++ init) = false ->
  Py.split_from (init ++ String z EmptyString) 0
                (pre ++ (init ++ String z EmptyString) ++ rest) =
  pre :: Py.split_from (init ++ String z EmptyString) 0 rest.
Proof using Type.
  set (sep := (init ++ String z EmptyString)%string).
  assert (Hlen : String.length sep = S (String.length init)).
  { unfold sep. rewrite string_length_app. cbn. lia. }
  induction pre as [|c pre IH]; intros H.
  - cbn [append].
    destruct sep as [|a sep'] eqn:Esep; [cbn in Hlen; lia|].
    cbn [append Py.split_from].
    change (String a (sep' ++ rest)) with (String a sep' ++ rest)%string.
    rewrite startswith_self. f_equal.
    cbn [String.length Nat.sub]. rewrite Nat.sub_0_r.
    apply split_from_skip.
  - cbn [append Py.contains] in H. apply orb_false_elim in H.
    destruct H as [Hs Hc].
    cbn [append Py.split_from].
    replace (Py.startswith sep (String c (pre ++ sep ++ rest))) with false.
    + now rewrite (IH Hc).
    + symmetry. rewrite <- Hs.
      change (String c (pre ++ sep ++ rest))
        with (String c pre ++ sep ++ rest)%string.
      change (String c (pre ++ init)) with (String c pre ++ init)%string.
      unfold sep at 2. rewrite (string_app_assoc init).
      rewrite <- (string_app_assoc (String c pre) init).
      apply startswith_app_long.
      rewrite Hlen, string_length_app. cbn. lia.
Qed.

Lemma rstrip_blank (ws : string) :
  all_space ws = true -> Py.rstrip ws = EmptyString.
Proof using Type.
  induction ws as [|c ws IH]; cbn; [reflexivity|].
  intros H. apply andb_prop in H. destruct H as [Hc Hw].
  now rewrite (IH Hw), Hc.
Qed.

Lemma rstrip_app_blank (s ws : string) :
  all_space ws = true -> Py.rstrip (s ++ ws) = Py.rstrip s.
Proof using Type.
  intros H. induction s as [|c s IH].
  - cbn. now apply rstrip_blank.
  - cbn [append Py.rstrip]. now rewrite IH.
Qed.

Lemma rstrip_ends_nonspace (t : string) (c : ascii) :
  Py.is_space c = false ->
  Py.rstrip (t ++ String c EmptyString) = (t ++ String c EmptyString)%string.
Proof using Type.
  intros Hc. induction t as [|d t IH].
  - cbn. now rewrite Hc.
  - cbn [append Py.rstrip]. rewrite IH. now destruct t.
Qed.

(** X18.  From a first output line that ends, up to trailing white
    space, with the phrase [and file at ] followed by a path,
    [run_commands] takes exactly that path, provided the phrase does not
    begin earlier in the line and the path does not hold it. *)
Theorem logpath_after_phrase
        (pre stem : string) (c : ascii) (ws : string) :
  Py.is_space c = false ->
  all_space ws = true ->
  Py.contains "and file at " (pre ++ "and file at") = false ->
  Py.contains "and file at " (stem ++ String c EmptyString) = false ->
  Py.last1
    (Py.split "and file at "
       (Py.rstrip (pre ++ "and file at " ++ (stem ++ String c EmptyString)
                       ++ ws))) =
  Ok (stem ++ String c EmptyString)%string.
Proof using Type.
  intros Hc Hws Hpre Hpath.
  replace (pre ++ "and file at " ++ (stem ++ String c EmptyString) ++ ws)%string
    with (((pre ++ "and file at " ++ stem) ++ String c EmptyString) ++ ws)%string
    by (now rewrite !string_app_assoc).
  rewrite (rstrip_app_blank _ ws Hws), (rstrip_ends_nonspace _ c Hc).
  replace ((pre ++ "and file at " ++ stem) ++ String c EmptyString)%string
    with (pre ++ ("and file at" ++ " ") ++ (stem ++ String c EmptyString))%string
    by (now rewrite !string_app_assoc).
  unfold Py.split.
  rewrite (split_at_first "and file at" " " pre _ Hpre).
  change ("and file at" ++ " ")%string with "and file at ".
  pose proof (split_without_sep "and file at " _ Hpath) as Hs.
  unfold Py.split in Hs. rewrite Hs. reflexivity.
Qed.

(** ** From the lines of a log to the numeric columns *)

Lemma payload_frame_encoded
      (idx : nat -> string) (header : list string) (rows : list (list string)) :
  encodable idx header rows ->
  payload_frame (Py.slice_1_m4 (encode_payload idx header rows)) =
  Ok (mkFrame header (map (map Some) rows)).
Proof using Type.
  intros (Hidx & Hh & Hrows & Hrect).
  pose proof (indexed_rows_plain idx (header :: rows) Hidx
                (Forall_cons _ Hh Hrows) 0%nat) as Hplain.
  destruct (split_rows _ Hplain) as [Hsplit Hesc].
  unfold encode_payload, payload_text.
  rewrite terminated_join by (simpl; discriminate).
  rewrite (slice_framed "'" ("'" ++ LF) _ eq_refl).
  unfold payload_frame, payload_rows.
  rewrite split_join_esc by (assumption || (simpl; discriminate)).
  rewrite Hsplit, indexed_rows_tail.
  cbn [index nth_error bind Py.tail1 tl].
  now apply DataFrame_rect.
Qed.

Lemma getitem_at (header : list string) (rows : list (list string))
      (name : string) (p : nat) :
  positions name 0 header = [p] ->
  getitem (mkFrame header (map (map Some) rows)) name =
  Ok (column_cells p rows).
Proof using Type.
  intros H. unfold getitem. cbn [columns data]. rewrite H.
  unfold column_cells. now rewrite map_map.
Qed.

Lemma nth_error_after {A} (pre : list A) (x : A) (post : list A) (n : nat) :
  nth_error (pre ++ x :: post) (length pre + S n) = nth_error post n.
Proof using Type.
  induction pre as [|y pre IH]; cbn; [reflexivity | exact IH].
Qed.

Lemma payloads_after_marker
      (r : run) (i : option nat) (pre : list string) (mline : string)
      (l1 : string) (post : list string) :
  no_marker pre ->
  Py.contains marker mline = true ->
  payloads r (pre ++ mline :: l1 :: post)
           (enumerate_marker i 0 (pre ++ mline :: l1 :: post)) =
  if String.eqb (mode r) "endpoint"
  then Ok (Py.slice_1_m4 l1, Py.slice_1_m4 l1)
  else match post with
       | [] => Raise IndexError
       | l2 :: _ => Ok (Py.slice_1_m4 l1, Py.slice_1_m4 l2)
       end.
Proof using Type.
  intros Hpre Hm.
  rewrite (enumerate_marker_stops pre mline (l1 :: post) Hpre Hm). cbn [Nat.add].
  unfold payloads, index. cbn [local bind].
  replace (length pre + 1)%nat with (length pre + 1)%nat by reflexivity.
  rewrite !(nth_error_after pre mline (l1 :: post)). cbn [nth_error].
  destruct (String.eqb (mode r) "endpoint"); cbn [negb bind]; [reflexivity|].
  now destruct post.
Qed.

(** X19.  The two output shapes.  After the first marker line, a run in
    the [endpoint] mode takes both payloads from the next line; any
    other run takes the worker payload from the next line and the
    endpoint payload from the line after it, and fails with
    [IndexError] when that line is missing. *)
Theorem payloads_follow_marker
        (r : run) (i : option nat) (pre : list string) (mline : string)
        (l1 : string) (post : list string) :
  no_marker pre ->
  Py.contains marker mline = true ->
  payloads r (pre ++ mline :: l1 :: post)
           (enumerate_marker i 0 (pre ++ mline :: l1 :: post)) =
  if String.eqb (mode r) "endpoint"
  then Ok (Py.slice_1_m4 l1, Py.slice_1_m4 l1)
  else match post with
       | [] => Raise IndexError
       | l2 :: _ => Ok (Py.slice_1_m4 l1, Py.slice_1_m4 l2)
       end.
Proof using Type.
  apply payloads_after_marker.
Qed.

(** X20.  Extraction end to end, for a run that is not in the [endpoint]
    mode: when the lines after the first marker line are the encoded
    worker table and the encoded endpoint table, and each table names its
    numeric column once, the loop body of [EndpointScaling.parse_output]
    computes the metrics from exactly the cells of these two columns,
    converted to numbers. *)
Theorem es_parse_run_of_encoded_tables
        (r : run) (i : option nat)
        (pre post : list string) (mline : string)
        (idxw idxe : nat -> string) (hw he : list string)
        (rw re : list (list string)) (pw pe : nat)
        (wproc elat : NpFloat.column) :
  output r =
    Some (pre ++ mline :: encode_payload idxw hw rw
              :: encode_payload idxe he re :: post) ->
  String.eqb (mode r) "endpoint" = false ->
  no_marker pre ->
  Py.contains marker mline = true ->
  encodable idxw hw rw ->
  encodable idxe he re ->
  positions "proc_time/data (ms)" 0 hw = [pw] ->
  positions "latency_avg (ms)" 0 he = [pe] ->
  to_numeric (column_cells pw rw) = Ok wproc ->
  to_numeric (column_cells pe re) = Ok elat ->
  es_parse_run i r =
  (fst (es_metrics r wproc elat), Some (length pre),
   snd (es_metrics r wproc elat)).
Proof using Type.
  intros Hout Hmode Hpre Hm Hw He Hpw Hpe Hnw Hne.
  unfold es_parse_run. rewrite Hout. cbv zeta. unfold es_tables.
  rewrite (payloads_after_marker r i pre mline _ _ Hpre Hm), Hmode.
  rewrite (enumerate_marker_stops pre mline _ Hpre Hm). cbn [Nat.add].
  cbn [bind].
  rewrite (payload_frame_encoded idxw hw rw Hw). cbn [bind].
  unfold numeric_column.
  rewrite (getitem_at hw rw _ pw Hpw). cbn [bind]. rewrite Hnw. cbn [bind].
  rewrite (payload_frame_encoded idxe he re He). cbn [bind].
  rewrite (getitem_at he re _ pe Hpe). cbn [bind]. rewrite Hne. cbn [bind].
  now destruct (es_metrics r wproc elat).
Qed.

(** X23.  When the worker table that follows the marker does not name
    the column [proc_time/data (ms)], the loop body of
    [EndpointScaling.parse_output] raises [KeyError] and stores no
    metric. *)
Theorem es_parse_run_missing_column
        (r : run) (i : option nat)
        (pre post : list string) (mline l2 : string)
        (idxw : nat -> string) (hw : list string) (rw : list (list string)) :
  output r = Some (pre ++ mline :: encode_payload idxw hw rw :: l2 :: post) ->
  no_marker pre ->
  Py.contains marker mline = true ->
  encodable idxw hw rw ->
  ~ In "proc_time/data (ms)" hw ->
  es_parse_run i r = (r, Some (length pre), Some KeyError).
Proof using Type.
  intros Hout Hpre Hm Hw Hcol.
  unfold es_parse_run. rewrite Hout. cbv zeta. unfold es_tables.
  rewrite (payloads_after_marker r i pre mline _ _ Hpre Hm).
  rewrite (enumerate_marker_stops pre mline _ Hpre Hm). cbn [Nat.add].
  assert (Hpos : forall k, positions "proc_time/data (ms)" k hw = []).
  { clear -Hcol. induction hw as [|c hw IH]; intros k; cbn; [reflexivity|].
    destruct (String.eqb c "proc_time/data (ms)") eqn:E.
    - apply String.eqb_eq in E. subst c. exfalso. apply Hcol. now left.
    - apply IH. intros H. apply Hcol. now right. }
  destruct (String.eqb (mode r) "endpoint"); cbn [bind];
    rewrite (payload_frame_encoded idxw hw rw Hw); cbn [bind];
    unfold numeric_column, getitem; cbn [columns]; rewrite Hpos;
    reflexivity.
Qed.

(** X24.  Extraction end to end in the deployments experiment, for a
    run that is not in the [endpoint] mode: from the encoded worker and
    endpoint tables after the first marker line, the loop body of
    [Deployments.parse_output] computes the metrics from the cells of
    the processing time, latency and preprocessing time columns, and it
    also requires the worker column [delay_avg (ms)] to be numeric. *)
Theorem dp_parse_run_of_encoded_tables
        (r : run) (i : option nat)
        (pre post : list string) (mline : string)
        (idxw idxe : nat -> string) (hw he : list string)
        (rw re : list (list string)) (pw pd pe pp : nat)
        (wproc wdelay elat epre : NpFloat.column) :
  output r =
    Some (pre ++ mline :: encode_payload idxw hw rw
              :: encode_payload idxe he re :: post) ->
  String.eqb (mode r) "endpoint" = false ->
  no_marker pre ->
  Py.contains marker mline = true ->
  encodable idxw hw rw ->
  encodable idxe he re ->
  positions "proc_time/data (ms)" 0 hw = [pw] ->
  positions "delay_avg (ms)" 0 hw = [pd] ->
  positions "latency_avg (ms)" 0 he = [pe] ->
  positions "preproc_time/data (ms)" 0 he = [pp] ->
  to_numeric (column_cells pw rw) = Ok wproc ->
  to_numeric (column_cells pd rw) = Ok wdelay ->
  to_numeric (column_cells pe re) = Ok elat ->
  to_numeric (column_cells pp re) = Ok epre ->
  dp_parse_run i r =
  (fst (dp_metrics r wproc elat epre), Some (length pre),
   snd (dp_metrics r wproc elat epre)).
Proof using Type.
  intros Hout Hmode Hpre Hm Hw He Hpw Hpd Hpe Hpp Hnw Hnd Hne Hnp.
  unfold dp_parse_run. rewrite Hout. cbv zeta. unfold dp_tables.
  rewrite (payloads_after_marker r i pre mline _ _ Hpre Hm), Hmode.
  rewrite (enumerate_marker_stops pre mline _ Hpre Hm). cbn [Nat.add].
  cbn [bind].
  rewrite (payload_frame_encoded idxw hw rw Hw). cbn [bind].
  unfold numeric_column.
  rewrite (getitem_at hw rw _ pw Hpw). cbn [bind]. rewrite Hnw. cbn [bind].
  rewrite (getitem_at hw rw _ pd Hpd). cbn [bind]. rewrite Hnd. cbn [bind].
  rewrite (payload_frame_encoded idxe he re He). cbn [bind].
  rewrite (getitem_at he re _ pe Hpe). cbn [bind]. rewrite Hne. cbn [bind].
  rewrite (getitem_at he re _ pp Hpp). cbn [bind]. rewrite Hnp. cbn [bind].
  now destruct (dp_metrics r wproc elat epre).
Qed.

(** NaN propagates through the arithmetic. *)
Lemma SFdiv_nan_r (p e : Z) (x : spec_float) : SFdiv p e x S754_nan = S754_nan.
Proof using Type. now destruct x. Qed.

Lemma SFmul_nan_l (p e : Z) (y : spec_float) : SFmul p e S754_nan y = S754_nan.
Proof using Type. reflexivity. Qed.

Lemma usage_of_nan (d : NpFloat.dtype) (c e : Z) (fc fe : spec_float) :
  NpFloat.py_float c = Ok fc ->
  NpFloat.py_float (frequency * e) = Ok fe ->
  usage_of (NpFloat.mk d S754_nan) c e = Raise ValueError.
Proof using Type.
  intros Hc He. unfold usage_of. rewrite Hc. cbn [bind]. rewrite He.
  cbn [bind]. unfold NpFloat.rdiv, NpFloat.mul_py.
  cbn [NpFloat.value NpFloat.dtype_of].
  now rewrite !SFdiv_nan_r, !SFmul_nan_l.
Qed.

(** X25.  A worker column without any number in it (no data row, or
    only missing cells) has no mean and no minimum: with a number of
    cores and of endpoints in the range of a float, both experiments
    raise [ValueError] on [int] of NaN and store no metric. *)
Theorem metrics_of_empty_column
        (r : run) (wproc elat epre : NpFloat.column) (c requested : spec_float) :
  NpFloat.py_float (cores r) = Ok c ->
  NpFloat.py_float (frequency * endpoints r) = Ok requested ->
  NpFloat.dropna wproc = [] ->
  es_metrics r wproc elat = (r, Some ValueError)
  /\ dp_metrics r wproc elat epre = (r, Some ValueError).
Proof using Type.
  intros Hc He H. unfold es_metrics, dp_metrics, NpFloat.mean, NpFloat.min.
  rewrite H. unfold NpFloat.nan.
  rewrite (usage_of_nan _ _ _ c requested Hc He). now split.
Qed.

(** Rounding a positive value to a format with at least one bit of
    mantissa, from an exponent that is not below the least exponent of
    the format, yields a positive value or the positive infinity. *)
Section Rounding.

Variables prec emax : Z.
Hypothesis Hprec : 1 <= prec.

Lemma digits2_size (p : positive) : digits2_pos p = Pos.size p.
Proof using Type. clear. induction p; simpl; now rewrite ?IHp. Qed.

Lemma shr_1_m (mrs : shr_record) :
  0 <= shr_m mrs -> shr_m (shr_1 mrs) = Z.div2 (shr_m mrs).
Proof using Type.
  clear. destruct mrs as [m r s]. simpl. intros H.
  destruct m as [|[p|p|]|p]; try reflexivity; lia.
Qed.

Lemma iter_shr_m (n : positive) :
  forall mrs, 0 <= shr_m mrs ->
    shr_m (iter_pos shr_1 n mrs) = Z.shiftr (shr_m mrs) (Zpos n).
Proof using Type.
  clear. induction n as [n IH|n IH|]; intros mrs H; simpl iter_pos.
  - assert (H1 : 0 <= shr_m (shr_1 mrs))
      by (rewrite shr_1_m by assumption; now apply Z.div2_nonneg).
    assert (H2 : 0 <= shr_m (iter_pos shr_1 n (shr_1 mrs)))
      by (rewrite IH by assumption; now apply Z.shiftr_nonneg).
    rewrite IH by assumption. rewrite IH by assumption.
    rewrite shr_1_m by assumption. rewrite Z.div2_spec.
    rewrite !Z.shiftr_shiftr by lia. f_equal. lia.
  - assert (H2 : 0 <= shr_m (iter_pos shr_1 n mrs))
      by (rewrite IH by assumption; now apply Z.shiftr_nonneg).
    rewrite IH by assumption. rewrite IH by assumption.
    rewrite !Z.shiftr_shiftr by lia. f_equal. lia.
  - rewrite shr_1_m by assumption. now rewrite Z.div2_spec.
Qed.

Lemma size_shiftr (p : positive) (k : positive) :
  Zpos k < Zpos (Pos.size p) -> 0 < Z.shiftr (Zpos p) (Zpos k).
Proof using Type.
  clear. intros H. rewrite Z.shiftr_div_pow2 by lia.
  apply Z.div_str_pos. split; [apply Z.pow_pos_nonneg; lia|].
  pose proof (Pos.size_le p) as Hs.
  assert (Hle : 2 ^ Zpos (Pos.size p) <= 2 * Zpos p).
  { change (2 * Zpos p) with (Zpos (p~0)). rewrite <- Pos2Z.inj_pow. lia. }
  replace (Zpos (Pos.size p)) with (Z.succ (Zpos (Pos.size p) - 1)) in Hle
    by lia.
  rewrite Z.pow_succ_r in Hle by lia.
  apply Z.le_trans with (2 ^ (Zpos (Pos.size p) - 1)); [|lia].
  apply Z.pow_le_mono_r; lia.
Qed.

Lemma shr_fexp_pos (p : positive) (e : Z) (l : location) :
  emin prec emax <= e ->
  0 < shr_m (fst (shr_fexp prec emax (Zpos p) e l))
  /\ e <= snd (shr_fexp prec emax (Zpos p) e l).
Proof using Hprec.
  intros He. unfold shr_fexp, shr, fexp. cbn [Zdigits2].
  rewrite digits2_size.
  destruct (Z.max (Zpos (Pos.size p) + e - prec) (emin prec emax) - e)
    as [|k|k] eqn:E; cbn [fst snd].
  - split; [destruct l as [|[]]; cbn; lia | lia].
  - split; [|lia].
    rewrite iter_shr_m by (destruct l as [|[]]; cbn; lia).
    replace (shr_m (shr_record_of_loc (Zpos p) l)) with (Zpos p)
      by (destruct l as [|[]]; reflexivity).
    apply size_shiftr. lia.
  - split; [destruct l as [|[]]; cbn; lia | lia].
Qed.

Lemma round_nearest_even_pos (m : Z) (l : location) :
  0 < m -> 0 < round_nearest_even m l.
Proof using Type.
  clear. intros H. unfold round_nearest_even.
  destruct l as [|[]]; try lia. destruct (Z.even m); lia.
Qed.

Lemma binary_round_aux_pos (s : bool) (p : positive) (e : Z) (l : location) :
  emin prec emax <= e ->
  (exists m' e', binary_round_aux prec emax s (Zpos p) e l = S754_finite s m' e'
                 /\ e <= e')
  \/ binary_round_aux prec emax s (Zpos p) e l = S754_infinity s.
Proof using Hprec.
  intros He. unfold binary_round_aux.
  pose proof (shr_fexp_pos p e l He) as [H1 H2].
  destruct (shr_fexp prec emax (Zpos p) e l) as [mrs' e'] eqn:E1.
  cbn [fst snd] in H1, H2.
  pose proof (round_nearest_even_pos _ (loc_of_shr_record mrs') H1) as H3.
  destruct (round_nearest_even (shr_m mrs') (loc_of_shr_record mrs'))
    as [|q|q] eqn:E2; try lia.
  assert (He' : emin prec emax <= e') by lia.
  pose proof (shr_fexp_pos q e' loc_Exact He') as [H4 H5].
  destruct (shr_fexp prec emax (Zpos q) e' loc_Exact) as [mrs'' e''] eqn:E3.
  cbn [fst snd] in H4, H5.
  destruct (shr_m mrs'') as [|m|m]; try lia.
  destruct (e'' <=? emax - prec); [left | now right].
  exists m, e''. split; [reflexivity | lia].
Qed.

Lemma binary_round_pos (s : bool) (p : positive) (e : Z) :
  emin prec emax <= e ->
  (exists m' e', binary_round prec emax s p e = S754_finite s m' e'
                 /\ e + 1 - prec <= e')
  \/ binary_round prec emax s p e = S754_infinity s.
Proof using Hprec.
  intros He. unfold binary_round.
  remember (fexp prec emax (Zpos (digits2_pos p) + e)) as fx eqn:Efx.
  assert (Hf : e + 1 - prec <= fx /\ emin prec emax <= fx)
    by (subst fx; unfold fexp; lia).
  clear Efx.
  destruct (shl_align p e fx) as [mz ez] eqn:E.
  assert (Hez : emin prec emax <= ez /\ e + 1 - prec <= ez).
  { unfold shl_align in E.
    destruct (fx - e) eqn:E'; injection E as <- <-; lia. }
  destruct (binary_round_aux_pos s mz ez loc_Exact (proj1 Hez))
    as [(m' & e' & H & Hle)|H]; [left | now right].
  exists m', e'. split; [exact H | lia].
Qed.

End Rounding.

(** A positive Python int in the range of a float is a positive float,
    and stays positive, or becomes the positive infinity, in either
    dtype. *)
Lemma py_float_pos (c : Z) (fc : spec_float) :
  0 < c -> NpFloat.py_float c = Ok fc ->
  exists m e, fc = S754_finite false m e /\ -52 <= e.
Proof using Type.
  clear. intros Hc H. unfold NpFloat.py_float, NpFloat.lit in H.
  destruct c as [|p|p]; try lia. cbn [binary_normalize] in H.
  destruct (binary_round_pos 53 1024 ltac:(lia) false p 0 ltac:(cbv; discriminate))
    as [(m & e & E & He)|E]; rewrite E in H.
  - injection H as <-. exists m, e. split; [reflexivity | lia].
  - discriminate H.
Qed.

Lemma cast_pos (d : NpFloat.dtype) (m : positive) (e : Z) :
  -52 <= e ->
  (exists m' e', NpFloat.cast d (S754_finite false m e) = S754_finite false m' e')
  \/ NpFloat.cast d (S754_finite false m e) = S754_infinity false.
Proof using Type.
  clear. intros He. cbn [NpFloat.cast].
  destruct (binary_round_pos (NpFloat.prec d) (NpFloat.emax d)
              ltac:(destruct d; cbv; discriminate) false m e
              ltac:(destruct d; cbv [emin NpFloat.prec NpFloat.emax]; lia))
    as [(m' & e' & E & _)|E]; [left; now exists m', e' | now right].
Qed.

Lemma with_python_again (weak : bool) (d : NpFloat.dtype) :
  NpFloat.with_python weak (NpFloat.with_python weak d) =
  NpFloat.with_python weak d.
Proof using Type. now destruct weak. Qed.

(** X26.  An aggregate processing time of zero does not raise: the
    processed rate is infinite and the usage 0, for every number of
    cores above zero that is in the range of a float and every number
    of endpoints whose requested rate is a finite float in the dtype of
    the computation. *)
Theorem usage_of_zero_time
        (d : NpFloat.dtype) (s : bool) (c e : Z) (fc fe : spec_float) :
  0 < c ->
  NpFloat.py_float c = Ok fc ->
  NpFloat.py_float (frequency * e) = Ok fe ->
  NpFloat.is_finite
    (NpFloat.cast (NpFloat.with_python (weak_scalars lib) d) fe) = true ->
  usage_of (NpFloat.mk d (S754_zero s)) c e = Ok 0.
Proof using Type.
  intros Hc Hfc Hfe Hfin.
  destruct (py_float_pos c fc Hc Hfc) as (m & ec & -> & Hec).
  unfold usage_of. rewrite Hfc. cbn [bind]. rewrite Hfe. cbn [bind].
  unfold NpFloat.rdiv, NpFloat.mul_py. cbn [NpFloat.value NpFloat.dtype_of].
  rewrite !with_python_again.
  set (d1 := NpFloat.with_python (weak_scalars lib) d) in *.
  assert (H1000 : exists m1 e1,
             NpFloat.cast d1 (NpFloat.lit 1000) = S754_finite false m1 e1)
    by (destruct d1; eexists; eexists; vm_compute; reflexivity).
  assert (H100 : exists m1 e1,
             NpFloat.cast d1 (NpFloat.lit 100) = S754_finite false m1 e1)
    by (destruct d1; eexists; eexists; vm_compute; reflexivity).
  destruct H1000 as (m1 & e1 & ->). destruct H100 as (m2 & e2 & ->).
  change (NpFloat.cast d1 (S754_zero s)) with (S754_zero s).
  change (SFdiv (NpFloat.prec d1) (NpFloat.emax d1) (S754_finite false m1 e1)
                (S754_zero s))
    with (S754_infinity s).
  change (NpFloat.cast d1 (S754_infinity s)) with (S754_infinity s).
  assert (Hproc : SFmul (NpFloat.prec d1) (NpFloat.emax d1) (S754_infinity s)
                        (NpFloat.cast d1 (S754_finite false m ec)) =
                  S754_infinity (xorb s false)).
  { destruct (cast_pos d1 m ec Hec) as [(m' & e' & ->)| ->]; reflexivity. }
  rewrite Hproc.
  change (NpFloat.cast d1 (S754_infinity (xorb s false)))
    with (S754_infinity (xorb s false)).
  destruct (NpFloat.cast d1 fe) as [sz|sz| |sz mz ez]; try discriminate Hfin;
    reflexivity.
Qed.

(** The sign of a product and of a quotient is the sign of the exact
    result, whatever the rounding does. *)
Lemma binary_round_aux_sign (p e : Z) (m x : Z) (l : location) :
  sign_clear (binary_round_aux p e false m x l) = true.
Proof using Type.
  clear. unfold binary_round_aux.
  destruct (shr_fexp p e m x l) as [mrs' e'].
  destruct (shr_fexp p e _ e' loc_Exact) as [mrs'' e''].
  destruct (shr_m mrs''); try reflexivity.
  now destruct (e'' <=? e - p).
Qed.

Lemma cast_sign (d : NpFloat.dtype) (x : spec_float) :
  sign_clear x = true -> sign_clear (NpFloat.cast d x) = true.
Proof using Type.
  clear. destruct x as [s|s| |s m e]; cbn [NpFloat.cast]; try easy.
  destruct s; [discriminate|]. intros _. unfold binary_round.
  destruct (shl_align m e _) as [mz ez]. apply binary_round_aux_sign.
Qed.

Lemma SFdiv_sign (p e : Z) (x y : spec_float) :
  sign_clear x = true -> sign_clear y = true ->
  sign_clear (SFdiv p e x y) = true.
Proof using Type.
  clear. destruct x as [[]|[]| |[] mx ex], y as [[]|[]| |[] my ey];
    try discriminate; try reflexivity. intros _ _. cbn [SFdiv xorb].
  destruct (SFdiv_core_binary p e (Zpos mx) ex (Zpos my) ey) as [[mz ez] lz].
  apply binary_round_aux_sign.
Qed.

Lemma SFmul_sign (p e : Z) (x y : spec_float) :
  sign_clear x = true -> sign_clear y = true ->
  sign_clear (SFmul p e x y) = true.
Proof using Type.
  clear. destruct x as [[]|[]| |[] mx ex], y as [[]|[]| |[] my ey];
    try discriminate; try reflexivity. intros _ _. cbn [SFmul xorb].
  apply binary_round_aux_sign.
Qed.

Lemma py_float_sign (z : Z) (x : spec_float) :
  0 <= z -> NpFloat.py_float z = Ok x -> sign_clear x = true.
Proof using Type.
  clear. intros Hz H. unfold NpFloat.py_float in H.
  assert (Hs : sign_clear (NpFloat.lit z) = true).
  { unfold NpFloat.lit. destruct z as [|q|q]; try lia; [reflexivity|].
    cbn [binary_normalize]. unfold binary_round.
    destruct (shl_align q 0 _) as [mz ez]. apply binary_round_aux_sign. }
  destruct (NpFloat.lit z); try (injection H as <-; exact Hs).
  discriminate H.
Qed.

Lemma exact_sign (x : spec_float) (q : Q) :
  sign_clear x = true -> NpFloat.exact x = Some q -> 0 <= Qnum q.
Proof using Type.
  clear. destruct x as [s|s| |s m e]; intros Hs H; try discriminate H.
  - injection H as <-. discriminate.
  - destruct s; [discriminate Hs|]. unfold NpFloat.exact in H.
    injection H as <-. destruct e as [|p|p].
    + change (0 <= Zpos m * 2 ^ 0). lia.
    + change (0 <= Zpos m * 2 ^ Zpos p).
      apply Z.mul_nonneg_nonneg; [lia | apply Z.pow_nonneg; lia].
    + change (0 <= Zpos m). lia.
Qed.

Lemma to_int_sign (a : NpFloat.t) (u : Z) :
  sign_clear (NpFloat.value a) = true -> NpFloat.to_int a = Ok u -> 0 <= u.
Proof using Type.
  clear. intros Hs H. unfold NpFloat.to_int in H.
  destruct (NpFloat.exact (NpFloat.value a)) as [q|] eqn:E.
  - injection H as <-. apply Z.quot_pos; [|lia].
    exact (exact_sign _ q Hs E).
  - destruct (NpFloat.value a); discriminate H.
Qed.

(** X14.  The usage is never negative: for an aggregate processing time
    that is not negative, a number of cores and a number of endpoints
    that are not negative, whatever [usage] stores is at least 0. *)
Theorem usage_is_not_negative (agg : NpFloat.t) (c e u : Z) :
  sign_clear (NpFloat.value agg) = true ->
  0 <= c -> 0 <= e ->
  usage_of agg c e = Ok u ->
  0 <= u.
Proof using Type.
  intros Ha Hc He. unfold usage_of.
  destruct (NpFloat.py_float c) as [fc|] eqn:Efc; [|discriminate].
  destruct (NpFloat.py_float (frequency * e)) as [fe|] eqn:Efe; [|discriminate].
  cbn [bind]. apply to_int_sign.
  pose proof (py_float_sign c fc Hc Efc) as Hfc.
  assert (Hfe : sign_clear fe = true)
    by (apply (py_float_sign (frequency * e)); [unfold frequency; lia | exact Efe]).
  unfold NpFloat.mul_py, NpFloat.rdiv. cbn [NpFloat.value NpFloat.dtype_of].
  repeat (first [apply SFmul_sign | apply SFdiv_sign | apply cast_sign]);
    try assumption; reflexivity.
Qed.

(** ** The order of the executions *)

Lemma executions_app (tr1 tr2 : list event) :
  executions (tr1 ++ tr2) = executions tr1 ++ executions tr2.
Proof using Type.
  induction tr1 as [|ev tr1 IH]; cbn; [reflexivity|].
  destruct ev; cbn; now rewrite ?IH.
Qed.

Lemma prefix_of_nil {A} (ys : list A) : prefix_of [] ys.
Proof using Type. now exists ys. Qed.

Lemma prefix_of_one {A} (y : A) (ys : list A) : prefix_of [y] (y :: ys).
Proof using Type. now exists ys. Qed.

Lemma prefix_of_cons {A} (y : A) (xs ys : list A) :
  prefix_of xs ys -> prefix_of (y :: xs) (y :: ys).
Proof using Type. intros [zs ->]. now exists zs. Qed.

Lemma nth_error_middle {A} (xs : list A) (y : A) (ys : list A) :
  nth_error (xs ++ y :: ys) (length xs) = Some y.
Proof using Type.
  induction xs; cbn; auto.
Qed.

Lemma run_loop_executions (todo : list run) :
  forall (done : list run) (st : state),
    runs st = done ++ todo ->
    exists tr,
      trace (fst (run_loop (seq (length done) (length todo)) st)) =
      trace st ++ tr
      /\ prefix_of (executions tr) (map command (filter to_execute todo))
      /\ (snd (run_loop (seq (length done) (length todo)) st) = None ->
          executions tr = map command (filter to_execute todo)).
Proof using Type.
  induction todo as [|r todo IH]; intros done st Hruns.
  - exists []. cbn. rewrite app_nil_r. repeat split. apply prefix_of_nil.
  - cbn [length seq run_loop]. unfold run_command.
    rewrite Hruns, nth_error_middle. rewrite <- Hruns.
    assert (Hskip : to_execute r = false ->
      exists tr,
        trace (fst (run_loop (seq (S (length done)) (length todo)) st)) =
        trace st ++ tr
        /\ prefix_of (executions tr)
                     (map command (filter to_execute (r :: todo)))
        /\ (snd (run_loop (seq (S (length done)) (length todo)) st) = None ->
            executions tr = map command (filter to_execute (r :: todo)))).
    { intros Hr. cbn [filter]. rewrite Hr.
      replace (S (length done)) with (length (done ++ [r]))
        by (rewrite length_app; cbn; lia).
      apply IH. now rewrite <- app_assoc. }
    destruct (command r) as [|c0 cs] eqn:Hcmd.
    { apply Hskip. unfold to_execute. now rewrite Hcmd. }
    destruct (output r) as [o|] eqn:Ho.
    { apply Hskip. unfold to_execute. now rewrite Hcmd, Ho. }
    assert (Hexec : to_execute r = true)
      by (unfold to_execute; now rewrite Hcmd, Ho).
    cbn [filter map]. rewrite Hexec. cbn [map]. rewrite Hcmd.
    destruct (execute (c0 :: cs) (env st)) as [[[out err]|e] w'].
    2:{ exists []. cbn. rewrite app_nil_r. repeat split; try discriminate.
        apply prefix_of_nil. }
    destruct err as [|l err].
    2:{ exists [EvExecute (c0 :: cs) out (l :: err)]. cbn.
        repeat split; try discriminate. apply prefix_of_one. }
    destruct (index out 0) as [line|e]; cbn [bind].
    2:{ exists [EvExecute (c0 :: cs) out []]. cbn.
        repeat split; try discriminate. apply prefix_of_one. }
    destruct (Py.last1 _) as [logpath|e]; cbn [bind].
    2:{ exists [EvExecute (c0 :: cs) out []]. cbn.
        repeat split; try discriminate. apply prefix_of_one. }
    unfold open_read.
    destruct (read_file logpath _) as [content|e].
    2:{ exists [EvExecute (c0 :: cs) out []]. cbn.
        repeat split; try discriminate. apply prefix_of_one. }
    rewrite assign_output_ok
      by (cbn [record runs]; rewrite Hruns, length_app; cbn; lia).
    cbn [record runs env trace]. rewrite Hruns, update_app.
    set (st3 := mkState (done ++ set_output r content :: todo) w'
                        (((trace st ++ [EvExecute (c0 :: cs) out []])
                            ++ [EvRead logpath])
                           ++ [EvAssign (length done) Execution])).
    destruct (IH (done ++ [set_output r content]) st3) as [tr [Ht [Hp Hs]]].
    { unfold st3. cbn [runs]. now rewrite <- app_assoc. }
    rewrite length_app in Ht, Hs. cbn [length] in Ht, Hs.
    replace (length done + 1)%nat with (S (length done)) in Ht, Hs by lia.
    exists (EvExecute (c0 :: cs) out [] :: EvRead logpath
              :: EvAssign (length done) Execution :: tr).
    split; [|split].
    + rewrite Ht. unfold st3. cbn [trace]. now rewrite <- !app_assoc.
    + cbn [executions]. now apply prefix_of_cons.
    + intros H. cbn [executions]. f_equal. now apply Hs.
Qed.

(** X27.  [run_commands] runs the processes strictly in the order of
    the runs and only for runs that have a command and no output: the
    commands it has executed are a beginning of the commands of those
    runs, and all of them when it returns without an exception. *)
Theorem run_commands_in_run_order (st : state) :
  exists tr,
    trace (fst (run_commands st)) = trace st ++ tr
    /\ prefix_of (executions tr)
                 (map command (filter to_execute (runs st)))
    /\ (snd (run_commands st) = None ->
        executions tr = map command (filter to_execute (runs st))).
Proof using Type.
  unfold run_commands.
  apply (run_loop_executions (runs st) [] st eq_refl).
Qed.

End Program.

(** ** The theorems at concrete inputs *)

(** Three logs stamped T1 < T2 < T3, a resume time equal to T2 and five
    pending runs: the first two runs receive the logs of T2 and T3, the
    other three stay pending, and the log of T1 is not used. *)
Lemma check_resume_three_logs :
  (runs sample_world
     (fst (check_resume Z stamp_of_string Z.geb sample_world sw_listdir
             sw_read (Some 20240102100000)
             (mkState sample_world five_runs three_logs_world []))) =
   fill_in_order [["second"]; ["third"]] five_runs
   /\ snd (check_resume Z stamp_of_string Z.geb sample_world sw_listdir
             sw_read (Some 20240102100000)
             (mkState sample_world five_runs three_logs_world [])) = None
   /\ (Forall pending five_runs ->
       fill_in_order [["second"]; ["third"]] five_runs =
       resume_spec five_runs [["second"]; ["third"]]))
  /\ map output (fill_in_order [["second"]; ["third"]] five_runs) =
     [Some ["second"]; Some ["third"]; None; None; None].
Proof.
  split; [|reflexivity].
  apply (check_resume_fills_by_position
           Z stamp_of_string Z.geb sample_world sw_listdir sw_read
           20240102100000
           (mkState sample_world five_runs three_logs_world [])
           (sw_dir three_logs_world)
           [ "2024-01-01_10:00:00_a.log"; "2024-01-02_10:00:00_b.log";
             "2024-01-03_10:00:00_c.log" ]).
  - reflexivity.
  - split.
    + exact (Permutation_sym
               (Permutation_cons_app
                  [ "2024-01-01_10:00:00_a.log"; "2024-01-02_10:00:00_b.log" ]
                  [] "2024-01-03_10:00:00_c.log" (Permutation_refl _))).
    + repeat constructor.
  - intros log Hin Hlog. cbn in Hin.
    destruct Hin as [<-|[<-|[<-|[<-|[]]]]];
      try discriminate Hlog; eexists; reflexivity.
  - intros log Hin Hlog Hst. cbn in Hin.
    destruct Hin as [<-|[<-|[<-|[<-|[]]]]];
      try discriminate Hlog; try discriminate Hst; eexists; reflexivity.
Defined.

(** C2, as stated, fails: the cursor counts positions, not runs without
    an output.  With a first run that has an output, a pending second
    run and one log stamped not before the resume time, the log
    overwrites the output of the first run and the second run stays
    pending, where the specification's matcher fills the second run. *)
Lemma check_resume_overwrites_filled :
  map output
    (runs sample_world
       (fst (check_resume Z stamp_of_string Z.geb sample_world sw_listdir
               sw_read (Some 20240103100000)
               (mkState sample_world
                  [ set_output (EndpointScaling.new_run "cloud" "cloud_endpoint" 4 1)
                               ["old"];
                    EndpointScaling.new_run "cloud" "cloud_endpoint" 4 2 ]
                  three_logs_world [])))) =
    [Some ["third"]; None]
  /\ map output
       (resume_spec
          [ set_output (EndpointScaling.new_run "cloud" "cloud_endpoint" 4 1)
                       ["old"];
            EndpointScaling.new_run "cloud" "cloud_endpoint" 4 2 ]
          [["third"]]) =
     [Some ["old"]; Some ["third"]].
Proof. split; reflexivity. Qed.

(** An output of one line without the marker, parsed as the first run:
    [i] stays at 0 and the line at position 1 does not exist. *)
Lemma parse_run_without_marker_sample :
  es_parse_run sample_lib None run_without_marker =
    (run_without_marker, Some 0%nat, Some IndexError)
  /\ dp_parse_run sample_lib None run_without_marker =
    (run_without_marker, Some 0%nat, Some IndexError)
  /\ indexing_or_type_fault IndexError = true.
Proof.
  apply (parse_run_without_marker sample_lib None run_without_marker
           ["no metrics here"]).
  - reflexivity.
  - repeat constructor.
Defined.

(** C3, as stated, fails: for an output without the marker the run ends
    in an [IndexError], an indexing fault, and not in an exception named
    ExtractionError. *)
Lemma missing_marker_is_index_error :
  no_marker ["no metrics here"]
  /\ snd (es_parse_run sample_lib None run_without_marker) =
     Some IndexError
  /\ indexing_or_type_fault IndexError = true
  /\ exn_name IndexError <> "ExtractionError".
Proof.
  split; [repeat constructor|].
  split; [reflexivity|]. split; [reflexivity | discriminate].
Qed.

(** A mean processing time of 100 ms, 4 cores and 2 endpoints: the
    processed rate is 40, the requested rate 10, the percentage 25 and
    the usage 25. *)
Lemma usage_of_sample :
  (exists u,
      usage (fst (es_metrics sample_lib
                    (EndpointScaling.new_run "cloud" "cloud_endpoint" 4 2)
                    (literal_column false ["100"])
                    (literal_column false ["300"]))) = Some u
      /\ truncates_to (7036874417766400 # 281474976710656) u)
  /\ usage (fst (es_metrics sample_lib
                   (EndpointScaling.new_run "cloud" "cloud_endpoint" 4 2)
                   (literal_column false ["100"])
                   (literal_column false ["300"]))) = Some 25
  /\ NpFloat.value
       (processed_rate sample_lib
          (NpFloat.mean NpFloat.seq_sum (literal_column false ["100"]))
          (NpFloat.lit 4)) = NpFloat.lit 40
  /\ NpFloat.py_float (frequency * 2) = Ok (NpFloat.lit 10)
  /\ (7036874417766400 # 281474976710656 == 25)%Q.
Proof.
  split; [|repeat split; reflexivity].
  apply (usage_is_truncated_percentage sample_lib
           (EndpointScaling.new_run "cloud" "cloud_endpoint" 4 2)
           (literal_column false ["100"]) (literal_column false ["300"])
           (NpFloat.lit 4) (NpFloat.lit 10)
           (7036874417766400 # 281474976710656)).
  - reflexivity.
  - reflexivity.
  - reflexivity.
Defined.

(** C4, as stated, fails: a mean processing time of 125 ms on 4 cores
    with one endpoint gives 15.625 percent, which [round] takes to 16 and
    the code to 15. *)
Lemma usage_truncated_not_rounded :
  usage (fst (es_metrics sample_lib
                (EndpointScaling.new_run "cloud" "cloud_endpoint" 4 1)
                (literal_column false ["125"])
                (literal_column false ["200"]))) = Some 15
  /\ NpFloat.exact
       (NpFloat.value
          (percentage sample_lib (NpFloat.lit 5)
             (processed_rate sample_lib
                (NpFloat.mean NpFloat.seq_sum (literal_column false ["125"]))
                (NpFloat.lit 4)))) =
     Some (8796093022208000 # 562949953421312)
  /\ (8796093022208000 # 562949953421312 == 15.625)%Q
  /\ py_round (8796093022208000 # 562949953421312) = 16.
Proof. repeat split; reflexivity. Qed.

(** The percentage is computed in floating point: for a mean processing
    time of 241 ms, 4 cores and 8 endpoints the exact percentage is 241,
    the computed one lies just below it, and the usage is 240, in
    [float64] as in [float32]. *)
Lemma usage_below_exact_percentage :
  (exact_percentage 241 4 8 == 241)%Q
  /\ usage (fst (es_metrics sample_lib
                   (EndpointScaling.new_run "cloud" "cloud_endpoint" 4 8)
                   (literal_column false ["241"])
                   (literal_column false ["200"]))) = Some 240
  /\ usage (fst (es_metrics narrow_lib
                   (EndpointScaling.new_run "cloud" "cloud_endpoint" 4 8)
                   (literal_column true ["241"])
                   (literal_column true ["200"]))) = Some 240.
Proof. repeat split; reflexivity. Qed.



(** The differences are computed in the dtype of the columns: with the
    [float32] cells nearest to 18.7, 100.0 and 1.3 the communication
    component is 80, although the exact difference of these three cells
    lies below 80. *)
Lemma latency_breakdown_rounds :
  latency_breakdown_of (literal_column true ["18.7"])
                       (literal_column true ["100.0"])
                       (literal_column true ["1.3"]) = Ok [18; 80]
  /\ NpFloat.cells (literal_column true ["18.7"]) =
     [S754_finite false 9804186 (-19)]
  /\ NpFloat.cells (literal_column true ["1.3"]) =
     [S754_finite false 10905190 (-23)]
  /\ (100 - (10905190 # 8388608) - (9804186 # 524288) < 80)%Q.
Proof. repeat split; reflexivity. Qed.

(** A process that writes to its error stream: the first run is executed,
    [main] ends with [SystemExit] and the nine runs hold no metric. *)
Lemma process_error_sample :
  snd (main sample_lib Z stamp_of_string Z.geb sample_world
            sw_listdir sw_read sw_execute EndpointScalingExp None
            failing_world) = Some (SystemExit None)
  /\ (exists tr,
         trace sample_world
           (fst (main sample_lib Z stamp_of_string Z.geb sample_world
                      sw_listdir sw_read sw_execute EndpointScalingExp None
                      failing_world)) =
         tr ++ [EvExecute
                  [ "python3"; "main.py"; "-v";
                    "configuration/experiment_endpoint_scaling/cloud_endpoint1.cfg" ]
                  ["started"] ["Traceback"]])
  /\ Forall no_metrics
       (runs sample_world
          (fst (main sample_lib Z stamp_of_string Z.geb sample_world
                     sw_listdir sw_read sw_execute EndpointScalingExp None
                     failing_world)))
  /\ ~ In EvReport
       (trace sample_world
          (fst (main sample_lib Z stamp_of_string Z.geb sample_world
                     sw_listdir sw_read sw_execute EndpointScalingExp None
                     failing_world)))
  /\ exit_status
       (snd (main sample_lib Z stamp_of_string Z.geb sample_world
                  sw_listdir sw_read sw_execute EndpointScalingExp None
                  failing_world)) = 0.
Proof.
  apply (process_error_aborts_batch
           sample_lib Z stamp_of_string Z.geb sample_world
           sw_listdir sw_read sw_execute EndpointScalingExp None failing_world).
  - left. reflexivity.
  - discriminate.
Defined.

(** C6, as stated, fails in its last clause: after a process has written
    to its error stream the script ends as it does after a batch without
    any failure, with exit status 0, so no failure is reported to the
    caller. *)
Lemma process_error_not_reported :
  (exists cmd out err,
      In (EvExecute cmd out err)
         (trace sample_world
            (fst (main sample_lib Z stamp_of_string Z.geb sample_world
                       sw_listdir sw_read sw_execute EndpointScalingExp None
                       failing_world)))
      /\ err <> [])
  /\ ~ reports_failure
        (snd (main sample_lib Z stamp_of_string Z.geb sample_world
                   sw_listdir sw_read sw_execute EndpointScalingExp None
                   failing_world))
  /\ snd (main sample_lib Z stamp_of_string Z.geb sample_world
            sw_listdir sw_read sw_execute DeploymentsExp None
            working_world) = None
  /\ exit_status
       (snd (main sample_lib Z stamp_of_string Z.geb sample_world
                  sw_listdir sw_read sw_execute EndpointScalingExp None
                  failing_world)) =
     exit_status
       (snd (main sample_lib Z stamp_of_string Z.geb sample_world
                  sw_listdir sw_read sw_execute DeploymentsExp None
                  working_world)).
Proof.
  split.
  - exists [ "python3"; "main.py"; "-v";
             "configuration/experiment_endpoint_scaling/cloud_endpoint1.cfg" ],
           ["started"], ["Traceback"].
    split; [left; reflexivity | discriminate].
  - split; [|split; reflexivity].
    intros H. apply H. reflexivity.
Qed.

(** The table with the header a, b and the rows 1, 2 and 3, 4, its
    payload between two quotes and before a line feed. *)
Lemma decode_encode_sample :
  decode_payload
    (framed "'" ("'" ++ LF)
            (payload_text (fun _ => "0") ["a"; "b"] [["1"; "2"]; ["3"; "4"]])) =
  Ok (mkFrame ["a"; "b"]
              [[Some "1"; Some "2"]; [Some "3"; Some "4"]]).
Proof.
  apply (decode_encode_payload "'" ("'" ++ LF) (fun _ => "0") ["a"; "b"]
                               [["1"; "2"]; ["3"; "4"]]).
  - reflexivity.
  - intros k. split; reflexivity.
  - repeat constructor.
  - repeat constructor.
  - repeat constructor.
Defined.

(** The same table with the index fields pandas writes: none for the
    header and the row number for a data row. *)
Lemma decode_encode_row_numbers :
  encode_payload (fun k => match k with
                           | O => EmptyString
                           | S n => Py.str (Z.of_nat n)
                           end)
                 ["a"; "b"] [["1"; "2"]; ["3"; "4"]] =
  ("'" ++ ",a,b" ++ esc_nl ++ "0,1,2" ++ esc_nl ++ "1,3,4" ++ esc_nl
       ++ "'" ++ LF)%string
  /\ decode_payload
       ("'" ++ ",a,b" ++ esc_nl ++ "0,1,2" ++ esc_nl ++ "1,3,4" ++ esc_nl
            ++ "'" ++ LF)%string =
     Ok (mkFrame ["a"; "b"]
                 [[Some "1"; Some "2"]; [Some "3"; Some "4"]]).
Proof. split; reflexivity. Qed.

(** With the three logs and the resume time T2, two files are opened,
    both logs, and [notes.txt] is not among them. *)
Lemma check_resume_reads_sample :
  (exists tr,
      trace sample_world
        (fst (check_resume Z stamp_of_string Z.geb sample_world
                sw_listdir sw_read (Some 20240102100000)
                (mkState sample_world five_runs three_logs_world []))) =
      [] ++ tr
      /\ (length (reads tr) <= 5)%nat
      /\ (forall p, In p (reads tr) ->
                    exists names log,
                      sw_listdir three_logs_world = Ok names /\ In log names
                      /\ Py.endswith ".log" log = true /\ p = log_path log)
      /\ (forall i r',
             nth_error
               (runs sample_world
                  (fst (check_resume Z stamp_of_string Z.geb sample_world
                          sw_listdir sw_read (Some 20240102100000)
                          (mkState sample_world five_runs three_logs_world []))))
               i = Some r' ->
             exists r, nth_error five_runs i = Some r
                       /\ output_from_logs sample_world sw_listdir sw_read
                                           three_logs_world r r'))
  /\ reads (trace sample_world
              (fst (check_resume Z stamp_of_string Z.geb sample_world
                      sw_listdir sw_read (Some 20240102100000)
                      (mkState sample_world five_runs three_logs_world [])))) =
     [ "./logs/2024-01-02_10:00:00_b.log"; "./logs/2024-01-03_10:00:00_c.log" ].
Proof.
  split; [|reflexivity].
  apply (check_resume_reads_only_logs
           Z stamp_of_string Z.geb sample_world sw_listdir sw_read
           (Some 20240102100000)
           (mkState sample_world five_runs three_logs_world [])).
Defined.

(** C10, as stated, fails in its bound: with no run and the three logs,
    one artifact is read, which is more than [len(runs)], before
    [self.runs[0]] raises [IndexError]. *)
Lemma check_resume_reads_without_runs :
  reads (trace sample_world
           (fst (check_resume Z stamp_of_string Z.geb sample_world
                   sw_listdir sw_read (Some 20240102100000)
                   (mkState sample_world [] three_logs_world [])))) =
    [ "./logs/2024-01-02_10:00:00_b.log" ]
  /\ snd (check_resume Z stamp_of_string Z.geb sample_world
            sw_listdir sw_read (Some 20240102100000)
            (mkState sample_world [] three_logs_world [])) = Some IndexError
  /\ ~ (length [ "./logs/2024-01-02_10:00:00_b.log" ] <=
        length (runs sample_world
                  (mkState sample_world [] three_logs_world [])))%nat.
Proof.
  split; [reflexivity|]. split; [reflexivity|].
  cbn. lia.
Qed.

(** ** Further properties at concrete inputs *)

(** Five endpoint counts and three modes: eleven runs. *)
Lemma generate_size_sample :
  (exists new,
      EndpointScaling.generate five_counts [] = ([] ++ new, None)
      /\ Forall fresh new
      /\ length new =
         grid_size (EndpointScaling.modes five_counts)
                   (EndpointScaling.endpoint_counts five_counts))
  /\ grid_size (EndpointScaling.modes five_counts)
               (EndpointScaling.endpoint_counts five_counts) = 11%nat.
Proof.
  split; [|reflexivity].
  apply (endpoint_scaling_generate_size five_counts []). cbn. lia.
Defined.

Lemma generate_no_cores_sample :
  EndpointScaling.generate
    (EndpointScaling.mkGrid ["cloud"; "edge"] [] [1; 2]) five_runs =
  (five_runs, Some IndexError).
Proof.
  apply (endpoint_scaling_generate_no_cores
           (EndpointScaling.mkGrid ["cloud"; "edge"] [] [1; 2]) five_runs).
  - reflexivity.
  - discriminate.
Defined.

(** Five pending runs in a world where every process succeeds. *)
Lemma run_commands_settles_sample :
  Forall settled
    (runs sample_world
       (fst (run_commands sample_world sw_read sw_execute
               (mkState sample_world five_runs working_world [])))).
Proof.
  apply (run_commands_success_settles sample_world sw_read sw_execute
           (mkState sample_world five_runs working_world [])
           (fst (run_commands sample_world sw_read sw_execute
                   (mkState sample_world five_runs working_world [])))).
  vm_compute. reflexivity.
Defined.

Lemma run_commands_silent_sample :
  run_commands sample_world sw_read sw_execute
    (mkState sample_world
             [EndpointScaling.new_run "cloud" "cloud_endpoint" 4 1]
             silent_world []) =
  (mkState sample_world
           [EndpointScaling.new_run "cloud" "cloud_endpoint" 4 1]
           silent_world
           ([] ++ [EvExecute
                     (command (EndpointScaling.new_run "cloud" "cloud_endpoint" 4 1))
                     [] []]),
   Some IndexError).
Proof.
  apply (run_commands_silent_process sample_world sw_read sw_execute
           (mkState sample_world
                    [EndpointScaling.new_run "cloud" "cloud_endpoint" 4 1]
                    silent_world [])
           (EndpointScaling.new_run "cloud" "cloud_endpoint" 4 1) []
           silent_world).
  - reflexivity.
  - reflexivity.
  - discriminate.
  - reflexivity.
Defined.

Lemma parse_output_metrics_sample :
  Forall (has_metrics EndpointScalingExp)
    (fst (parse_output sample_lib EndpointScalingExp
            [logged_run "cloud"; logged_run "edge"])).
Proof.
  apply (parse_output_success_has_metrics sample_lib EndpointScalingExp
           [logged_run "cloud"; logged_run "edge"]
           (fst (parse_output sample_lib EndpointScalingExp
                   [logged_run "cloud"; logged_run "edge"]))).
  vm_compute. reflexivity.
Defined.

(** The second of three runs has no marker line. *)
Lemma parse_output_failure_sample :
  exists pre r post pre' r',
    [logged_run "cloud"; run_without_marker; logged_run "edge"] =
    pre ++ r :: post
    /\ fst (parse_output sample_lib EndpointScalingExp
              [logged_run "cloud"; run_without_marker; logged_run "edge"]) =
       pre' ++ r' :: post
    /\ length pre' = length pre
    /\ Forall (has_metrics EndpointScalingExp) pre'
    /\ descriptor r' = descriptor r
    /\ output r' = output r.
Proof.
  apply (parse_output_failure_position sample_lib EndpointScalingExp
           [logged_run "cloud"; run_without_marker; logged_run "edge"]
           (fst (parse_output sample_lib EndpointScalingExp
                   [logged_run "cloud"; run_without_marker; logged_run "edge"]))
           IndexError).
  vm_compute. reflexivity.
Defined.

Lemma enumerate_marker_sample :
  enumerate_marker (Some 7%nat) 0 sample_log = Some 1%nat.
Proof.
  apply (enumerate_marker_first (Some 7%nat) 0 ["starting"]
           "Output in csv format"
           [sample_worker_line; sample_endpoint_line]).
  - repeat constructor.
  - reflexivity.
Defined.

Lemma prepare_fills_sample :
  Forall filled
    (runs sample_world
       (fst (prepare Z stamp_of_string Z.geb sample_world sw_listdir sw_read
               sw_execute EndpointScalingExp None working_world))).
Proof.
  apply (prepare_success_fills Z stamp_of_string Z.geb sample_world
           sw_listdir sw_read sw_execute EndpointScalingExp None working_world
           (fst (prepare Z stamp_of_string Z.geb sample_world sw_listdir
                   sw_read sw_execute EndpointScalingExp None working_world))).
  vm_compute. reflexivity.
Defined.

(** No runs, three logs and the resume time T2. *)
Lemma check_resume_without_runs_sample :
  check_resume Z stamp_of_string Z.geb sample_world sw_listdir sw_read
    (Some 20240102100000) (mkState sample_world [] three_logs_world []) =
  (mkState sample_world [] three_logs_world
           ([] ++ [EvRead "./logs/2024-01-02_10:00:00_b.log"]),
   Some IndexError).
Proof.
  apply (check_resume_without_runs Z stamp_of_string Z.geb sample_world
           sw_listdir sw_read 20240102100000
           (mkState sample_world [] three_logs_world [])
           (sw_dir three_logs_world)
           "2024-01-02_10:00:00_b.log" ["2024-01-03_10:00:00_c.log"]
           ["second"]).
  - reflexivity.
  - reflexivity.
  - intros log Hin Hlog. cbn in Hin.
    destruct Hin as [<-|[<-|[<-|[<-|[]]]]];
      try discriminate Hlog; eexists; reflexivity.
  - reflexivity.
  - reflexivity.
Defined.

Lemma check_resume_stray_log_sample :
  check_resume Z stamp_of_string Z.geb sample_world sw_listdir sw_read
    (Some 20240102100000) (mkState sample_world five_runs stray_log_world []) =
  (mkState sample_world five_runs stray_log_world [], Some IndexError).
Proof.
  apply (check_resume_name_without_underscore Z stamp_of_string Z.geb
           sample_world sw_listdir sw_read 20240102100000
           (mkState sample_world five_runs stray_log_world [])
           (sw_dir stray_log_world) "0stray.log"
           ["2024-01-02_10:00:00_b.log"]).
  - reflexivity.
  - reflexivity.
  - reflexivity.
Defined.

Lemma logpath_sample :
  Py.last1
    (Py.split "and file at "
       (Py.rstrip
          ("Logging enabled, writing to stdout " ++ "and file at "
             ++ ("/tmp/run.lo" ++ String "g" EmptyString) ++ LF))) =
  Ok "/tmp/run.log".
Proof.
  apply (logpath_after_phrase "Logging enabled, writing to stdout "
           "/tmp/run.lo" "g" LF); reflexivity.
Defined.

Lemma payloads_sample :
  payloads (logged_run "cloud")
           (["starting"] ++ "Output in csv format" :: sample_worker_line
                         :: [sample_endpoint_line])
           (enumerate_marker None 0
              (["starting"] ++ "Output in csv format" :: sample_worker_line
                            :: [sample_endpoint_line])) =
  Ok (Py.slice_1_m4 sample_worker_line, Py.slice_1_m4 sample_endpoint_line).
Proof.
  apply (payloads_follow_marker (logged_run "cloud") None ["starting"]
           "Output in csv format" sample_worker_line [sample_endpoint_line]).
  - repeat constructor.
  - reflexivity.
Defined.

Lemma sample_tables_encodable :
  encodable (fun _ => "0") sample_worker_header sample_worker_rows
  /\ encodable (fun _ => "0") sample_endpoint_header sample_endpoint_rows.
Proof.
  split; (split; [intros k; split; reflexivity | repeat constructor]).
Qed.

(** The sample log: a mean processing time of 100 ms on 4 cores with one
    endpoint, and a mean latency of 205 ms. *)
Lemma es_parse_run_sample :
  es_parse_run sample_lib None (logged_run "cloud") =
  (fst (es_metrics sample_lib (logged_run "cloud")
                   (literal_column false ["125"; "75"])
                   (literal_column false ["200"; "210"])),
   Some (length ["starting"]),
   snd (es_metrics sample_lib (logged_run "cloud")
                   (literal_column false ["125"; "75"])
                   (literal_column false ["200"; "210"])))
  /\ usage (fst (fst (es_parse_run sample_lib None (logged_run "cloud")))) =
     Some 12.
Proof.
  split; [|reflexivity].
  apply (es_parse_run_of_encoded_tables sample_lib (logged_run "cloud")
           None ["starting"] [] "Output in csv format"
           (fun _ => "0") (fun _ => "0")
           sample_worker_header sample_endpoint_header
           sample_worker_rows sample_endpoint_rows 1 0).
  - reflexivity.
  - reflexivity.
  - repeat constructor.
  - reflexivity.
  - apply sample_tables_encodable.
  - apply sample_tables_encodable.
  - reflexivity.
  - reflexivity.
  - reflexivity.
  - reflexivity.
Defined.

Lemma es_parse_run_missing_column_sample :
  es_parse_run sample_lib None
    (set_output (EndpointScaling.new_run "cloud" "cloud_endpoint" 4 1)
       (["starting"] ++ "Output in csv format"
          :: encode_payload (fun _ => "0") ["a"; "b"] [["1"; "2"]]
          :: "x" :: [])) =
  (set_output (EndpointScaling.new_run "cloud" "cloud_endpoint" 4 1)
     (["starting"] ++ "Output in csv format"
        :: encode_payload (fun _ => "0") ["a"; "b"] [["1"; "2"]]
        :: "x" :: []),
   Some (length ["starting"]), Some KeyError).
Proof.
  apply (es_parse_run_missing_column sample_lib _ None
           ["starting"] [] "Output in csv format" "x"
           (fun _ => "0") ["a"; "b"] [["1"; "2"]]).
  - reflexivity.
  - repeat constructor.
  - reflexivity.
  - split; [intros k; split; reflexivity | repeat constructor].
  - intros [H|[H|[]]]; discriminate H.
Defined.

Lemma dp_parse_run_sample :
  dp_parse_run sample_lib None (logged_run "cloud") =
  (fst (dp_metrics sample_lib (logged_run "cloud")
                   (literal_column false ["125"; "75"])
                   (literal_column false ["200"; "210"])
                   (literal_column false ["30"; "35"])),
   Some (length ["starting"]),
   snd (dp_metrics sample_lib (logged_run "cloud")
                   (literal_column false ["125"; "75"])
                   (literal_column false ["200"; "210"])
                   (literal_column false ["30"; "35"])))
  /\ latency_breakdown
       (fst (fst (dp_parse_run sample_lib None (logged_run "cloud")))) =
     Some [75; 95].
Proof.
  split; [|reflexivity].
  apply (dp_parse_run_of_encoded_tables sample_lib (logged_run "cloud")
           None ["starting"] [] "Output in csv format"
           (fun _ => "0") (fun _ => "0")
           sample_worker_header sample_endpoint_header
           sample_worker_rows sample_endpoint_rows 1 2 0 1
           (literal_column false ["125"; "75"])
           (literal_column false ["3"; "5"])).
  - reflexivity.
  - reflexivity.
  - repeat constructor.
  - reflexivity.
  - apply sample_tables_encodable.
  - apply sample_tables_encodable.
  - reflexivity.
  - reflexivity.
  - reflexivity.
  - reflexivity.
  - reflexivity.
  - reflexivity.
  - reflexivity.
  - reflexivity.
Defined.

(** A mean processing time of 100 ms, 4 cores and 2 endpoints. *)
Lemma usage_is_not_negative_sample :
  usage_of sample_lib (NpFloat.mk NpFloat.float64 (NpFloat.lit 100)) 4 2 =
    Ok 25
  /\ 0 <= 25.
Proof.
  split; [reflexivity|].
  apply (usage_is_not_negative sample_lib
           (NpFloat.mk NpFloat.float64 (NpFloat.lit 100)) 4 2 25).
  - reflexivity.
  - lia.
  - lia.
  - reflexivity.
Defined.

(** A worker column whose only cell is missing. *)
Lemma metrics_of_empty_column_sample :
  es_metrics sample_lib (logged_run "cloud")
             (NpFloat.mkColumn NpFloat.float64 [S754_nan])
             (literal_column false ["200"]) =
    (logged_run "cloud", Some ValueError)
  /\ dp_metrics sample_lib (logged_run "cloud")
                (NpFloat.mkColumn NpFloat.float64 [S754_nan])
                (literal_column false ["200"])
                (literal_column false ["30"]) =
    (logged_run "cloud", Some ValueError).
Proof.
  apply (metrics_of_empty_column sample_lib (logged_run "cloud")
           (NpFloat.mkColumn NpFloat.float64 [S754_nan])
           (literal_column false ["200"]) (literal_column false ["30"])
           (NpFloat.lit 4) (NpFloat.lit 5)).
  - reflexivity.
  - reflexivity.
  - reflexivity.
Defined.

(** A [float32] aggregate of zero, 4 cores and 2 endpoints. *)
Lemma usage_of_zero_time_sample :
  usage_of narrow_lib (NpFloat.mk NpFloat.float32 (S754_zero false)) 4 2 =
  Ok 0.
Proof.
  apply (usage_of_zero_time narrow_lib NpFloat.float32 false 4 2
           (NpFloat.lit 4) (NpFloat.lit 10)).
  - lia.
  - reflexivity.
  - reflexivity.
  - reflexivity.
Defined.
